(** * MEXC spot/perp arbitrage scanner: a shallow embedding of [scanner.py],
    [database.py], [symbols_loader.py] and [config.py], and of the menu
    handlers of [bot.py], and the properties of the scanning pipeline and of
    its collaborators checked against it.

    Conventions of the embedding.
    - Python [float] is IEEE binary64: Rocq's primitive [float], with the
      operations of [PrimFloat] (one NaN, signed zeros and infinities).
    - Python [str] is [string]; only ASCII letters change case under
      [str.upper].
    - Values decoded from JSON, and the untyped fields of dictionaries, are
      [pyval].
    - A call that may raise returns a [result]; the exceptions are the
      subclasses of Python's [Exception] the code can meet. *)

From Stdlib Require Import Floats ZArith Bool Ascii String Lia.
From stdpp Require Import gmap strings list.

Set Warnings "-register-all,-inexact-float".

Local Open Scope string_scope.

(* ===================================================================== *)
(** * Part I: the model *)
(* ===================================================================== *)

(** ** Strings: the [str] methods the scanner uses *)

Module PyStr.

(** [c.upper()] on one ASCII character. *)
Definition upper_ascii (c : ascii) : ascii :=
  let n := N_of_ascii c in
  if ((97 <=? n) && (n <=? 122))%N then ascii_of_N (n - 32) else c.

(** [s.upper()]. *)
Fixpoint upper (s : string) : string :=
  match s with
  | EmptyString => EmptyString
  | String c s' => String (upper_ascii c) (upper s')
  end.

(** [s.startswith(p)]. *)
Fixpoint startswith (p s : string) : bool :=
  match p, s with
  | EmptyString, _ => true
  | String _ _, EmptyString => false
  | String a p', String b s' => if Ascii.eqb a b then startswith p' s' else false
  end.

(** [p in s], substring test. *)
Fixpoint contains (p s : string) : bool :=
  startswith p s ||
  match s with
  | EmptyString => false
  | String _ s' => contains p s'
  end.

(** [s.replace(p, "")] for a non-empty [p]: the occurrences of [p] are
    found left to right and do not overlap.  [skip] counts the characters
    of an occurrence already matched that are still to be dropped. *)
Fixpoint remove_from (p : string) (skip : nat) (s : string) : string :=
  match s with
  | EmptyString => EmptyString
  | String c s' =>
      match skip with
      | S k => remove_from p k s'
      | O =>
          if startswith p s
          then remove_from p (String.length p - 1) s'
          else String c (remove_from p 0 s')
      end
  end.

Definition remove (p s : string) : string := remove_from p 0 s.

(** [s[n:]]. *)
Fixpoint drop (n : nat) (s : string) : string :=
  match n, s with
  | S k, String _ s' => drop k s'
  | _, _ => s
  end.

(** The newline character, for the [$] anchor of [re]. *)
Definition newline : string := String (ascii_of_N 10) EmptyString.

(** [re.sub("(a1|a2|...)$", "", s)] where no alternative is empty: at the
    leftmost position where an alternative reaches the end of the string
    (or the newline that ends it, as Python's [$] allows), the alternative is
    deleted. *)
Definition at_dollar (rest : string) : bool :=
  String.eqb rest EmptyString || String.eqb rest newline.

Fixpoint match_alt (alts : list string) (s : string) : option string :=
  match alts with
  | [] => None
  | a :: alts' =>
      if startswith a s && at_dollar (drop (String.length a) s)
      then Some (drop (String.length a) s)
      else match_alt alts' s
  end.

Fixpoint sub_suffix (alts : list string) (s : string) : string :=
  match match_alt alts s with
  | Some rest => rest
  | None =>
      match s with
      | EmptyString => EmptyString
      | String c s' => String c (sub_suffix alts s')
      end
  end.

End PyStr.

(** ** SymbolMatcher: [normalize_symbol] *)

Definition futures_suffixes : list string :=
  ["_PERP"; "_USD"; "_USDT"; "_FUTURE"; "_THISWEEK"; "_NEXTWEEK";
   "_QUARTER"; "_NEXTQUARTER"].

Definition normalize_symbol (symbol symbol_type : string) : string :=
  let symbol := PyStr.upper symbol in
  if String.eqb symbol_type "spot" then
    PyStr.remove "USD" (PyStr.remove "USDT" symbol)
  else if String.eqb symbol_type "futures" then
    let base := PyStr.sub_suffix futures_suffixes symbol in
    PyStr.remove "_" base
  else symbol.

(** ** Python values, exceptions, results *)

(** The subclasses of [Exception] that the modelled code can meet.
    [ClientError] stands for every failure of [session.get] and
    [resp.json()] (transport error, [asyncio.TimeoutError], undecodable
    body); [SendError] for every failure of the send function other than
    [telegram.error.TimedOut]; [SqliteError] for [sqlite3.Error] and its
    subclasses. *)
Inductive exn :=
| KeyError (key : string)
| AttributeError
| TypeError
| ValueError
| OverflowError
| ClientError
| TimedOut
| SendError
| SqliteError.

Inductive result (A : Type) :=
| Ok (a : A)
| Raise (e : exn).
Arguments Ok {A} a.
Arguments Raise {A} e.

Definition rbind {A B} (r : result A) (k : A -> result B) : result B :=
  match r with
  | Ok a => k a
  | Raise e => Raise e
  end.

Declare Scope result_scope.
Delimit Scope result_scope with result.
Notation "'let?' x ':=' r 'in' k" := (rbind r (fun x => k))
  (at level 10, x name, r at level 100, k at level 200) : result_scope.
Local Open Scope result_scope.

Definition is_sqlite_error (e : exn) : bool :=
  match e with SqliteError => true | _ => false end.

Definition is_key_error (e : exn) : bool :=
  match e with KeyError _ => true | _ => false end.

Definition is_timed_out (e : exn) : bool :=
  match e with TimedOut => true | _ => false end.

(** What [json.loads] builds, and what a dictionary or a dataclass field may
    hold. *)
Inductive pyval :=
| PNone
| PBool (b : bool)
| PInt (z : Z)
| PFloat (f : float)
| PStr (s : string)
| PList (l : list pyval)
| PDict (d : list (string * pyval)).

Module Py.

Local Open Scope float_scope.

(** [float(z)] for a Python [int]: round to nearest even. *)
Definition float_of_Z (z : Z) : float :=
  SF2Prim (binary_normalize prec emax z 0 false).

(** Neither NaN nor an infinity. *)
Definition is_finite (f : float) : bool :=
  match Prim2SF f with
  | S754_nan | S754_infinity _ => false
  | _ => true
  end.

(** [int(f)]: truncation toward zero; [ValueError] on NaN, [OverflowError]
    on an infinity. *)
Definition int_of_float (f : float) : result Z :=
  match Prim2SF f with
  | S754_nan => Raise ValueError
  | S754_infinity _ => Raise OverflowError
  | S754_zero _ => Ok 0%Z
  | S754_finite s m e =>
      let v := match e with
               | Z0 => Zpos m
               | Zpos p => Z.shiftl (Zpos m) (Zpos p)
               | Zneg p => Z.shiftr (Zpos m) (Zpos p)
               end in
      Ok (if s then Z.opp v else v)
  end.

(** [min(a, b)] and [max(a, b)] of two floats: the first argument is kept
    unless the second is strictly smaller (larger). *)
Definition min (a b : float) : float := if b <? a then b else a.
Definition max (a b : float) : float := if a <? b then b else a.

(** Lookup in a dictionary given as an association list. *)
Fixpoint lookup (k : string) (d : list (string * pyval)) : option pyval :=
  match d with
  | [] => None
  | (k', v) :: d' => if String.eqb k k' then Some v else lookup k d'
  end.

(** [bool(v)]. *)
Definition truthy (v : pyval) : bool :=
  match v with
  | PNone => false
  | PBool b => b
  | PInt z => negb (z =? 0)%Z
  | PFloat f => negb (f =? 0)
  | PStr s => negb (String.eqb s "")
  | PList l => match l with [] => false | _ => true end
  | PDict d => match d with [] => false | _ => true end
  end.

(** [a or b]. *)
Definition or (a b : pyval) : pyval := if truthy a then a else b.

(** [v.get(k)]: only dictionaries have the method. *)
Definition get (v : pyval) (k : string) : result pyval :=
  match v with
  | PDict d => Ok (default PNone (lookup k d))
  | _ => Raise AttributeError
  end.

(** [v[k]] for a string [k]. *)
Definition getitem (v : pyval) (k : string) : result pyval :=
  match v with
  | PDict d =>
      match lookup k d with
      | Some x => Ok x
      | None => Raise (KeyError k)
      end
  | _ => Raise TypeError
  end.

Definition is_str (k : string) (v : pyval) : bool :=
  match v with PStr s => String.eqb s k | _ => false end.

(** [k in v] for a string [k]. *)
Definition contains (k : string) (v : pyval) : result bool :=
  match v with
  | PDict d => Ok (bool_decide (is_Some (lookup k d)))
  | PList l => Ok (existsb (is_str k) l)
  | PStr s => Ok (PyStr.contains k s)
  | _ => Raise TypeError
  end.

(** [v == n] for an integer literal [n]. *)
Definition eq_int (v : pyval) (n : Z) : bool :=
  match v with
  | PInt z => (z =? n)%Z
  | PFloat f => f =? float_of_Z n
  | PBool b => ((if b then 1 else 0) =? n)%Z
  | _ => false
  end.

(** [float(v)], with the parser of numeric strings as a parameter. *)
Definition to_float (parse : string -> option float) (v : pyval) : result float :=
  match v with
  | PBool b => Ok (if b then 1 else 0)
  | PInt z =>
      let f := float_of_Z z in
      if is_infinity f then Raise OverflowError else Ok f
  | PFloat f => Ok f
  | PStr s =>
      match parse s with
      | Some f => Ok f
      | None => Raise ValueError
      end
  | _ => Raise TypeError
  end.

End Py.

(** ** Configuration: [config.py] *)

Module Config.
Local Open Scope float_scope.
Definition THRESHOLD_PERCENT : float := 1.5.
Definition THRESHOLD_NOTIFY_PERCENT : float := 2.0.
Definition RISK_MULTIPLIER : Z := 3.
Definition CHECK_INTERVAL_FAST : Z := 30.
Definition CHECK_INTERVAL_SLOW : Z := 120.
Definition PAIRS_UPDATE_INTERVAL : Z := 3600.
Definition TOP_VOLUME_LIMIT : nat := 100.
Definition API_RATE_LIMIT : Z := 20.
Definition API_MAX_CONCURRENT_REQUESTS : Z := 10.
End Config.

(** ** Data model *)

(** The dictionary [fetch_data_for_pair] returns; the fields carry the names
    of its keys. *)
Record signal := mkSignal {
  spot_symbol : string;
  futures_symbol : string;
  spot_price : float;
  futures_price : float;
  spread_percent : float;
  volume_spot : float;
  timestamp : float;
  bid_ask : string
}.

(** The same dictionary as the key/value object [save_signal] receives.  The
    time stamp is the clock reading; the source formats it as text. *)
Definition signal_dict (s : signal) : pyval :=
  PDict [("spot_symbol", PStr (spot_symbol s));
         ("futures_symbol", PStr (futures_symbol s));
         ("spot_price", PFloat (spot_price s));
         ("futures_price", PFloat (futures_price s));
         ("spread_percent", PFloat (spread_percent s));
         ("volume_spot", PFloat (volume_spot s));
         ("timestamp", PFloat (timestamp s));
         ("bid_ask", PStr (bid_ask s))].

(** [database.ArbitrageSignal]: a dataclass, whose fields are not type-checked
    at run time.  [timestamp] and [id] are not read by [save_signal]. *)
Record ArbitrageSignal := mkArbitrageSignal {
  symbol : pyval;
  as_spot_price : pyval;
  as_futures_price : pyval;
  as_spread_percent : pyval;
  volume : pyval
}.

(** A row of the table [arbitrage_signals], in the column order of the
    [INSERT]: symbol, spot_price, futures_price, spread_percent, volume. *)
Definition row : Type := pyval * pyval * pyval * pyval * pyval.

(** What [create_signal_message] derives from a signal; the text layout of the
    message is presentation and is not modelled. *)
Inductive strength := VeryStrong | Strong | Medium | Moderate.
Inductive context := HistoricalMax | Unprecedented | HighOpportunity | Standard.
Inductive liquidity := HighLiquidity | MediumLiquidity | LowLiquidity.

Record message := mkMessage {
  msg_signal : signal;
  msg_futures_higher : bool;
  msg_strength : strength;
  msg_context : context;
  msg_leverage : Z;
  msg_position_size : float;
  msg_stop_loss : float;
  msg_liquidity : liquidity;
  msg_flames : Z;
  msg_gem : bool
}.

(** ** Effects: the world, the trace and the monad *)

(** The call sites of [asyncio.sleep]. *)
Inductive sleep_site :=
| RateLimit
| SpotBackoff
| FuturesBackoff
| SendCooldown
| FastInterval
| SlowInterval.

Inductive event :=
| EvGet (url : string)
| EvSleep (site : sleep_site) (seconds : float)
| EvSend (chat_id : Z) (text : message).

(** The mutable state: the wall clock, the two module globals of the rate
    limiter ([_last_request_time], and the number of holders of the one
    [semaphore]), the count of HTTP requests issued, and the table
    [arbitrage_signals]. *)
Record world := mkWorld {
  clock : float;
  last_request_time : float;
  semaphore_held : nat;
  requests : nat;
  arbitrage_signals : list row
}.

(** The collaborators, as the code sees them.
    - [parse_float]: [float(s)] on a string.
    - [http url n]: what the request of [url] yields when [n] requests were
      issued before it, the decoded JSON body or the failure of
      [session.get] / [resp.json()].
    - [db_insert]: connect, [INSERT], commit; the new table or the failure.
    - [db_subscribers]: connect and [SELECT user_id FROM subscribers]; [None]
      when the driver raises [sqlite3.Error].
    - [top_symbols]: the ranked list [get_top_symbols] slices (its cache, the
      fresh ranking, or the empty list after a failure).
    - [send_message_func]: the send function handed to [main_loop], if any;
      its result is the outcome of one delivery. *)
Record env := mkEnv {
  parse_float : string -> option float;
  http : string -> nat -> result pyval;
  db_insert : row -> list row -> result (list row);
  db_subscribers : option (list Z);
  top_symbols : list pyval;
  send_message_func : option (Z -> message -> result unit)
}.

Definition M (A : Type) : Type := world -> result A * world * list event.

Definition ret {A} (a : A) : M A := fun w => (Ok a, w, []).

Definition bind {A B} (m : M A) (k : A -> M B) : M B :=
  fun w =>
    match m w with
    | (Ok a, w1, ev1) =>
        match k a w1 with
        | (r, w2, ev2) => (r, w2, (ev1 ++ ev2)%list)
        end
    | (Raise e, w1, ev1) => (Raise e, w1, ev1)
    end.

Definition raise {A} (e : exn) : M A := fun w => (Raise e, w, []).

Definition lift {A} (r : result A) : M A := fun w => (r, w, []).

(** [try: m  except Exception as e: h e]. *)
Definition try_except {A} (m : M A) (h : exn -> M A) : M A :=
  fun w =>
    match m w with
    | (Ok a, w1, ev1) => (Ok a, w1, ev1)
    | (Raise e, w1, ev1) =>
        match h e w1 with
        | (r, w2, ev2) => (r, w2, (ev1 ++ ev2)%list)
        end
    end.

(** [try: m  finally: f], for an [f] that does not raise. *)
Definition finally {A} (m : M A) (f : M unit) : M A :=
  fun w =>
    match m w with
    | (r, w1, ev1) =>
        match f w1 with
        | (_, w2, ev2) => (r, w2, (ev1 ++ ev2)%list)
        end
    end.

Declare Scope py_scope.
Delimit Scope py_scope with py.
Notation "'let*' x ':=' m 'in' k" := (bind m (fun x => k))
  (at level 10, x name, m at level 100, k at level 200) : py_scope.
Notation "m ';;' k" := (bind m (fun _ => k))
  (at level 100, k at level 200, right associativity) : py_scope.
Local Open Scope py_scope.

Definition emit (ev : event) : M unit := fun w => (Ok tt, w, [ev]).

Definition time : M float := fun w => (Ok (clock w), w, []).

Definition modify (f : world -> world) : M unit := fun w => (Ok tt, f w, []).

Definition advance (d : float) (w : world) : world :=
  mkWorld (clock w + d)%float (last_request_time w) (semaphore_held w)
          (requests w) (arbitrage_signals w).

(** [await asyncio.sleep(d)]. *)
Definition sleep (site : sleep_site) (d : float) : M unit :=
  emit (EvSleep site d) ;; modify (advance d).

(** One request: [session.get(url)] and [resp.json()]. *)
Definition http_get (E : env) (url : string) : M pyval :=
  fun w =>
    (http E url (requests w),
     mkWorld (clock w) (last_request_time w) (semaphore_held w)
             (S (requests w)) (arbitrage_signals w),
     [EvGet url]).

(** The results of running a computation. *)
Definition result_of {A} (x : result A * world * list event) : result A := x.1.1.
Definition world_of {A} (x : result A * world * list event) : world := x.1.2.
Definition events_of {A} (x : result A * world * list event) : list event := x.2.

(** ** RateLimiter: the module globals and [rate_limit] *)

Definition min_interval : float :=
  if (0 <? Config.API_RATE_LIMIT)%Z
  then (1 / Py.float_of_Z Config.API_RATE_LIMIT)%float
  else 0.2%float.

Definition set_last_request_time (t : float) (w : world) : world :=
  mkWorld (clock w) t (semaphore_held w) (requests w) (arbitrage_signals w).

Definition set_semaphore_held (n : nat) (w : world) : world :=
  mkWorld (clock w) (last_request_time w) n (requests w) (arbitrage_signals w).

Definition rate_limit : M unit :=
  let* now := time in
  fun w =>
    let elapsed := (now - last_request_time w)%float in
    ((if (elapsed <? min_interval)%float
      then sleep RateLimit (min_interval - elapsed)%float
      else ret tt) ;;
     let* t := time in
     modify (set_last_request_time t)) w.

(** [async with semaphore: body].  The scan loop awaits one fetch at a time,
    so the acquisition never has to wait; the count of holders is kept. *)
Definition with_semaphore {A} (body : M A) : M A :=
  modify (fun w => set_semaphore_held (S (semaphore_held w)) w) ;;
  finally body (modify (fun w => set_semaphore_held (pred (semaphore_held w)) w)).

(** ** PriceFetcher *)

(** [1.5 * (attempt + 1)]. *)
Definition backoff (attempt : nat) : float :=
  (1.5 * Py.float_of_Z (Z.of_nat attempt + 1))%float.

(** What the [try] of [fetch_spot_price] computes from the decoded body:
    [float(data.get("lastPrice") or data.get("price") or 0)] and
    [float(data.get("quoteVolume") or 0)]. *)
Definition spot_ticker (E : env) (data : pyval) : result (float * float) :=
  let? last := Py.get data "lastPrice" in
  let? p := (if Py.truthy last then Ok last
             else let? price := Py.get data "price" in
                  Ok (Py.or price (PInt 0))) in
  let? price := Py.to_float (parse_float E) p in
  let? qv := Py.get data "quoteVolume" in
  let? vol := Py.to_float (parse_float E) (Py.or qv (PInt 0)) in
  Ok (price, vol).

(** The body of the [try] in [fetch_spot_price]. *)
Definition spot_attempt (E : env) (url : string) : M (float * float) :=
  let* data := http_get E url in
  lift (spot_ticker E data).

(** [for attempt in range(retries)], from [attempt] on, with [n] rounds
    left; then [return 0, 0]. *)
Fixpoint spot_attempts (E : env) (url : string) (n attempt : nat) : M (float * float) :=
  match n with
  | O => ret (0%float, 0%float)
  | S n' =>
      try_except (spot_attempt E url)
        (fun _ => sleep SpotBackoff (backoff attempt) ;;
                  spot_attempts E url n' (S attempt))
  end.

Definition spot_url (symbol : string) : string :=
  "https://api.mexc.com/api/v3/ticker/24hr?symbol=" ++ symbol.

Definition fetch_spot_price (E : env) (symbol : string) (retries : nat) : M (float * float) :=
  with_semaphore (rate_limit ;; spot_attempts E (spot_url symbol) retries 0).

(** The body of the [try] in [fetch_futures_price]: [Some price] is the
    [return]; [None] lets the loop go on. *)
Definition futures_attempt (E : env) (url : string) (attempt : nat) : M (option float) :=
  let* data := http_get E url in
  let* has_data := lift (Py.contains "data" data) in
  let* has_price :=
    (if has_data
     then let* inner := lift (Py.getitem data "data") in
          lift (Py.contains "lastPrice" inner)
     else ret false) in
  if has_price
  then
    let* inner := lift (Py.getitem data "data") in
    let* last := lift (Py.getitem inner "lastPrice") in
    let* price := lift (Py.to_float (parse_float E) last) in
    ret (Some price)
  else
    let* code := lift (Py.get data "code") in
    (if Py.eq_int code 510
     then sleep FuturesBackoff (backoff attempt)
     else ret tt) ;;
    ret None.

Fixpoint futures_attempts (E : env) (url : string) (n attempt : nat) : M float :=
  match n with
  | O => ret 0%float
  | S n' =>
      let* r := try_except (futures_attempt E url attempt)
                  (fun _ => sleep FuturesBackoff (backoff attempt) ;; ret None) in
      match r with
      | Some price => ret price
      | None => futures_attempts E url n' (S attempt)
      end
  end.

Definition futures_url (symbol : string) : string :=
  "https://contract.mexc.com/api/v1/contract/ticker?symbol=" ++ symbol.

Definition fetch_futures_price (E : env) (symbol : string) (retries : nat) : M float :=
  with_semaphore (rate_limit ;; futures_attempts E (futures_url symbol) retries 0).

(** ** SpreadEvaluator: the computation of [fetch_data_for_pair] *)

(** What [fetch_data_for_pair] does with the two prices once fetched. *)
Definition evaluate (spot_symbol futures_symbol : string)
    (spot_price volume futures_price now : float) : option signal :=
  if ((spot_price <=? 0) || (futures_price <=? 0))%float then None
  else
    let spread_percent := (abs ((futures_price - spot_price) / spot_price) * 100)%float in
    Some (mkSignal spot_symbol futures_symbol spot_price futures_price
            spread_percent volume now
            (if (spot_price <? futures_price)%float
             then "Buy Spot / Sell Futures"
             else "Buy Futures / Sell Spot")).

Definition fetch_data_for_pair (E : env) (spot_symbol futures_symbol : string)
  : M (option signal) :=
  try_except
    (let* spot := fetch_spot_price E spot_symbol 3 in
     let* futures_price := fetch_futures_price E futures_symbol 3 in
     let* now := time in
     ret (evaluate spot_symbol futures_symbol spot.1 spot.2 futures_price now))
    (fun _ => ret None).

(** ** Persistence: [database.save_signal] and [database.get_subscribers] *)

(** The argument of [save_signal]: an [ArbitrageSignal] instance or any other
    object. *)
Inductive signal_arg :=
| ArgSignal (s : ArbitrageSignal)
| ArgValue (v : pyval).

Definition set_arbitrage_signals (t : list row) (w : world) : world :=
  mkWorld (clock w) (last_request_time w) (semaphore_held w) (requests w) t.

(** The first half of the [try] block: the five values, or [None] for an
    unsupported type. *)
Definition signal_fields (sig : signal_arg) : result (option row) :=
  match sig with
  | ArgSignal s =>
      Ok (Some (symbol s, as_spot_price s, as_futures_price s,
                as_spread_percent s, volume s))
  | ArgValue (PDict d) =>
      let? symbol := Py.getitem (PDict d) "symbol" in
      let? spot_price := Py.getitem (PDict d) "spot_price" in
      let? futures_price := Py.getitem (PDict d) "futures_price" in
      let? spread_percent := Py.getitem (PDict d) "spread_percent" in
      let? volume := Py.getitem (PDict d) "volume" in
      Ok (Some (symbol, spot_price, futures_price, spread_percent, volume))
  | ArgValue _ => Ok None
  end.

(** [with db_connection() as conn: with conn: conn.execute(INSERT ...)]. *)
Definition insert_row (E : env) (r : row) : M bool :=
  fun w =>
    match db_insert E r (arbitrage_signals w) with
    | Ok t => (Ok true, set_arbitrage_signals t w, [])
    | Raise e => (Raise e, w, [])
    end.

Definition save_signal (E : env) (sig : signal_arg) : M bool :=
  try_except
    (let* fields := lift (signal_fields sig) in
     match fields with
     | None => ret false
     | Some r => insert_row E r
     end)
    (fun e => if is_key_error e || is_sqlite_error e then ret false else raise e).

Definition get_subscribers (E : env) : list Z :=
  match db_subscribers E with
  | Some l => l
  | None => []
  end.

(** ** Presentation helpers and [create_signal_message] *)

Definition get_signal_strength (spread : float) : strength :=
  if (8.0 <=? spread)%float then VeryStrong
  else if (5.0 <=? spread)%float then Strong
  else if (3.0 <=? spread)%float then Medium
  else Moderate.

Definition get_historical_context (spread : float) : context :=
  if (15.0 <=? spread)%float then HistoricalMax
  else if (10.0 <=? spread)%float then Unprecedented
  else if (5.0 <=? spread)%float then HighOpportunity
  else Standard.

(** Leverage, position size and stop-loss; [int(...)] may raise. *)
Definition get_risk_management (spread volume : float) : result (Z * float * float) :=
  let? l := Py.int_of_float (spread * Py.float_of_Z Config.RISK_MULTIPLIER)%float in
  Ok (Z.min l 20,
      Py.min (volume * 0.0001)%float 10000%float,
      Py.max 1%float (spread / 2)%float).

Definition get_liquidity_status (volume : float) : liquidity :=
  if (5000000 <? volume)%float then HighLiquidity
  else if (1000000 <? volume)%float then MediumLiquidity
  else LowLiquidity.

Definition create_signal_message (s : signal) : result message :=
  let spread := spread_percent s in
  let direction := (spot_price s <? futures_price s)%float in
  let strength := get_signal_strength spread in
  let context := get_historical_context spread in
  let? risk := get_risk_management spread (volume_spot s) in
  let liquidity := get_liquidity_status (volume_spot s) in
  let? flames := Py.int_of_float spread in
  Ok (mkMessage s direction strength context risk.1.1 risk.1.2 risk.2
        liquidity (Z.min flames 5) (5 <? spread)%float).

(** ** NotificationFanout: [notify_subscribers] *)

(** The inner coroutine [send_message(user_id)]. *)
Definition send_message (E : env) (text : message) (user_id : Z) : M unit :=
  try_except
    (match send_message_func E with
     | Some send => emit (EvSend user_id text) ;; lift (send user_id text)
     | None => ret tt
     end)
    (fun e => if is_timed_out e then sleep SendCooldown 3%float else ret tt).

(** [await asyncio.gather] over the tasks: every task runs to its end; the first
    exception raised by one of them, if any, is the result.  The tasks are
    taken in the order of the list; which of them run at the same time
    (at most five hold [sem_notify]) is not modelled. *)
Fixpoint gather (tasks : list (M unit)) : M unit :=
  match tasks with
  | [] => ret tt
  | t :: tasks' =>
      fun w =>
        match t w with
        | (r, w1, ev1) =>
            match gather tasks' w1 with
            | (r', w2, ev2) =>
                (match r with Raise e => Raise e | Ok _ => r' end,
                 w2, (ev1 ++ ev2)%list)
            end
        end
  end.

Definition notify_subscribers (E : env) (s : signal) : M unit :=
  match get_subscribers E with
  | [] => ret tt
  | subscribers =>
      let* message_text := lift (create_signal_message s) in
      gather (map (send_message E message_text) subscribers)
  end.

(** ** Processing core: [process_and_notify] *)

Fixpoint process_and_notify (E : env) (pairs : list (string * string)) : M unit :=
  match pairs with
  | [] => ret tt
  | (spot_sym, fut_sym) :: rest =>
      let* sig := fetch_data_for_pair E spot_sym fut_sym in
      match sig with
      | None => ret tt
      | Some s =>
          let spread := spread_percent s in
          if (Config.THRESHOLD_PERCENT <=? spread)%float
          then
            let* saved := save_signal E (ArgValue (signal_dict s)) in
            if (Config.THRESHOLD_NOTIFY_PERCENT <=? spread)%float
            then notify_subscribers E s
            else ret tt
          else ret tt
      end ;;
      process_and_notify E rest
  end.

(** ** SymbolMatcher: discovery and pairing *)

Definition futures_listing_url : string :=
  "https://contract.mexc.com/api/v1/contract/detail".

(** [item.get("symbol") or item.get("contractName") or
    item.get("instrumentId")], kept when truthy; items that are not
    dictionaries are skipped. *)
Definition item_symbol (item : pyval) : option pyval :=
  match item with
  | PDict d =>
      let field k := default PNone (Py.lookup k d) in
      let symbol := Py.or (Py.or (field "symbol") (field "contractName"))
                          (field "instrumentId") in
      if Py.truthy symbol then Some symbol else None
  | _ => None
  end.

Definition get_futures_symbols (E : env) : M (list pyval) :=
  try_except
    (let* data := http_get E futures_listing_url in
     let* d := lift (Py.get data "data") in
     match d with
     | PList items => ret (omap item_symbol items)
     | _ => ret []
     end)
    (fun _ => ret []).

(** [symbols_loader.get_top_symbols(limit)]: on each of its paths (cache hit,
    fresh ranking, failure) the result is a list cut at [limit].  Only the
    list it returns is taken here, from the collaborator [top_symbols]: the
    request it makes on a cache miss, its reading of the clock and its cache
    are those of [SymbolsLoader.get_top_symbols] below and leave no event in
    the trace of the scanner, so a trace says nothing of the ranking
    request. *)
Definition get_top_symbols (E : env) (limit : nat) : list pyval :=
  take limit (top_symbols E).

(** [isinstance(s, str) and "TRUMP" not in s]. *)
Definition spot_candidate (v : pyval) : option string :=
  match v with
  | PStr s => if PyStr.contains "TRUMP" s then None else Some s
  | _ => None
  end.

(** The dictionary built by the first loop: later symbols overwrite earlier
    ones with the same canonical form. *)
Definition futures_norm_map (futures_symbols_raw : list pyval) : gmap string string :=
  foldl (fun m f_sym =>
           match f_sym with
           | PStr f => <[normalize_symbol f "futures" := f]> m
           | _ => m
           end) ∅ futures_symbols_raw.

(** The second loop, with its [break]. *)
Fixpoint match_spots (limit : nat) (m : gmap string string)
    (spot_symbols : list string) (filtered : list (string * string))
  : list (string * string) :=
  match spot_symbols with
  | [] => filtered
  | spot_sym :: rest =>
      match m !! normalize_symbol spot_sym "spot" with
      | Some f_sym =>
          let filtered' := (filtered ++ [(spot_sym, f_sym)])%list in
          if (limit <=? List.length filtered')%nat then filtered'
          else match_spots limit m rest filtered'
      | None => match_spots limit m rest filtered
      end
  end.

Definition get_top_symbol_pairs (E : env) (limit : nat) : M (list (string * string)) :=
  let* futures_symbols_raw := get_futures_symbols E in
  match futures_symbols_raw with
  | [] => ret []
  | _ =>
      let spot_symbols := omap spot_candidate (get_top_symbols E (limit * 3)) in
      ret (match_spots limit (futures_norm_map futures_symbols_raw) spot_symbols [])
  end.

(** ** ScanScheduler: [main_loop] *)

Record loop_state := mkLoop {
  last_pairs_update : float;
  pairs : list (string * string)
}.

Definition nonempty {A} (l : list A) : bool :=
  match l with [] => false | _ => true end.

(** One pass through the body of [while True]. *)
Definition main_loop_iteration (E : env) (st : loop_state) : M loop_state :=
  let* now := time in
  let* st1 :=
    (if (Py.float_of_Z Config.PAIRS_UPDATE_INTERVAL <? now - last_pairs_update st)%float
        || negb (nonempty (pairs st))
     then let* ps := get_top_symbol_pairs E Config.TOP_VOLUME_LIMIT in
          ret (mkLoop now ps)
     else ret st) in
  let fast_pairs := take 50 (pairs st1) in
  let slow_pairs := drop 50 (pairs st1) in
  (if nonempty fast_pairs
   then try_except (process_and_notify E fast_pairs) (fun _ => ret tt) ;;
        sleep FastInterval (Py.float_of_Z Config.CHECK_INTERVAL_FAST)
   else ret tt) ;;
  (if nonempty slow_pairs
   then try_except (process_and_notify E slow_pairs) (fun _ => ret tt) ;;
        sleep SlowInterval (Py.float_of_Z Config.CHECK_INTERVAL_SLOW)
   else ret tt) ;;
  ret st1.

(** The first [n] passes of the loop, which itself never ends. *)
Fixpoint main_loop_from (E : env) (n : nat) (st : loop_state) : M loop_state :=
  match n with
  | O => ret st
  | S n' =>
      let* st' := main_loop_iteration E st in
      main_loop_from E n' st'
  end.

Definition main_loop (E : env) (n : nat) : M loop_state :=
  main_loop_from E n (mkLoop 0%float []).

(** ** A scenario to run the model on

    The spot ticker of BTCUSDT reads 100 and the derivative ticker of BTC_USDT
    108; the listing holds BTC_USDT and ETH_USDT; every other request fails.
    The database accepts every row; three users are subscribed, and the
    delivery to the second one times out. *)

Module Scenario.

Local Open Scope float_scope.

Definition parse (s : string) : option float :=
  if String.eqb s "100" then Some 100
  else if String.eqb s "2000000" then Some 2000000
  else None.

Definition spot_body : pyval :=
  PDict [("symbol", PStr "BTCUSDT"); ("lastPrice", PStr "100");
         ("quoteVolume", PStr "2000000")].

Definition futures_body : pyval :=
  PDict [("success", PBool true); ("code", PInt 0);
         ("data", PDict [("symbol", PStr "BTC_USDT"); ("lastPrice", PFloat 108)])].

Definition listing_body : pyval :=
  PDict [("success", PBool true);
         ("data", PList [PDict [("symbol", PStr "BTC_USDT")];
                         PDict [("symbol", PStr "ETH_USDT")]])].

Definition answers (url : string) (n : nat) : result pyval :=
  if String.eqb url (spot_url "BTCUSDT") then Ok spot_body
  else if String.eqb url (futures_url "BTC_USDT") then Ok futures_body
  else if String.eqb url futures_listing_url then Ok listing_body
  else Raise ClientError.

Definition unreachable (url : string) (n : nat) : result pyval := Raise ClientError.

Definition driver (r : row) (t : list row) : result (list row) := Ok (t ++ [r])%list.

(** A driver that enforces the [NOT NULL] constraints of the table and
    refuses the values [sqlite3] cannot bind. *)
Definition bindable (v : pyval) : bool :=
  match v with
  | PNone | PList _ | PDict _ => false
  | _ => true
  end.

Definition strict_driver (r : row) (t : list row) : result (list row) :=
  match r with
  | (a, b, c, d, e) =>
      if bindable a && bindable b && bindable c && bindable d && bindable e
      then Ok (t ++ [r])%list
      else Raise SqliteError
  end.

Definition send (uid : Z) (text : message) : result unit :=
  if (uid =? 2)%Z then Raise TimedOut else Ok tt.

Definition ranking : list pyval := [PStr "BTCUSDT"; PStr "ETHUSDT"].

Definition live : env :=
  mkEnv parse answers driver (Some [1; 2; 3]%Z) ranking (Some send).

Definition without_send : env :=
  mkEnv parse answers driver (Some [1; 2; 3]%Z) ranking None.

Definition down : env :=
  mkEnv parse unreachable driver (Some [1; 2; 3]%Z) ranking (Some send).

(** The clock reads 1000 seconds; nothing was requested or stored yet. *)
Definition w0 : world := mkWorld 1000 0 0 0 [].

End Scenario.

(** ** The vocabulary of the properties

    Predicates on computations, the readings of a trace and the pure
    summaries of the effectful functions that the statements of Part II
    use. *)

(** A relation between the world before, the world after and the events
    emitted that holds of a step doing nothing and composes along
    sequencing. *)
Class Invariant (P : world -> world -> list event -> Prop) : Prop := {
  inv_refl : forall w, P w w [];
  inv_trans : forall w1 w2 w3 e1 e2,
      P w1 w2 e1 -> P w2 w3 e2 -> P w1 w3 (e1 ++ e2)%list
}.

(** Every run of [m] is in the relation [P]. *)
Definition respects {A} (P : world -> world -> list event -> Prop) (m : M A) : Prop :=
  forall w, P w (world_of (m w)) (events_of (m w)).

(** [m] returns a value from every world: it never raises. *)
Definition total {A} (m : M A) : Prop :=
  forall w, exists a, result_of (m w) = Ok a.

(** The instant at which [rate_limit] lets the caller through. *)
Definition grant_time (w : world) : float :=
  let elapsed := (clock w - last_request_time w)%float in
  if (elapsed <? min_interval)%float
  then (clock w + (min_interval - elapsed))%float
  else clock w.

(** The wait of [rate_limit], if it has to wait. *)
Definition rate_limit_events (w : world) : list event :=
  let elapsed := (clock w - last_request_time w)%float in
  if (elapsed <? min_interval)%float
  then [EvSleep RateLimit (min_interval - elapsed)%float]
  else [].

(** One more request issued. *)
Definition bump_requests (w : world) : world :=
  mkWorld (clock w) (last_request_time w) (semaphore_held w) (S (requests w))
          (arbitrage_signals w).

(** What the request of [url], issued after [n] others, yields once parsed
    as a spot ticker: the pair of price and volume, or the exception of the
    attempt. *)
Definition spot_outcome (E : env) (url : string) (n : nat) : result (float * float) :=
  let? data := http E url n in spot_ticker E data.

(** The result is an exception. *)
Definition is_raise {A} (r : result A) : bool :=
  match r with Raise _ => true | Ok _ => false end.

(** The events of a fetch other than the wait of the rate limiter. *)
Definition attempt_events (evs : list event) : list event :=
  List.filter (fun ev => match ev with EvSleep RateLimit _ => false | _ => true end) evs.

(** [n] failed attempts in a row, the first numbered [attempt]: each is a
    request followed by the sleep of [1.5 * (attempt + 1)] seconds. *)
Fixpoint failed_rounds (url : string) (attempt n : nat) : list event :=
  match n with
  | O => []
  | S n' =>
      EvGet url :: EvSleep SpotBackoff (backoff attempt)
        :: failed_rounds url (S attempt) n'
  end.

(** The world once [rate_limit] has let the caller through. *)
Definition granted (w : world) : world :=
  mkWorld (grant_time w) (grant_time w) (semaphore_held w) (requests w)
          (arbitrage_signals w).

(** The event is a request. *)
Definition is_get (ev : event) : bool :=
  match ev with EvGet _ => true | _ => false end.

(** The state of the rate limiter is left as it was. *)
Definition limiter_kept (w w' : world) (_ : list event) : Prop :=
  last_request_time w' = last_request_time w /\
  semaphore_held w' = semaphore_held w.




(** The delivery attempts recorded in a trace: recipient and message. *)
Definition deliveries (evs : list event) : list (Z * message) :=
  omap (fun ev => match ev with EvSend uid text => Some (uid, text) | _ => None end) evs.

(** The list [get_futures_symbols] makes of what the listing request
    yields. *)
Definition futures_symbols_of (resp : result pyval) : list pyval :=
  match resp with
  | Ok data =>
      match Py.get data "data" with
      | Ok (PList items) => omap item_symbol items
      | _ => []
      end
  | Raise _ => []
  end.

(** The pairs [get_top_symbol_pairs] makes of a listing. *)
Definition pairs_of (E : env) (limit : nat) (futures_symbols_raw : list pyval)
  : list (string * string) :=
  match futures_symbols_raw with
  | [] => []
  | _ =>
      match_spots limit (futures_norm_map futures_symbols_raw)
        (omap spot_candidate (get_top_symbols E (limit * 3))) []
  end.

(** The listing request failed, or its answer holds no list under
    ["data"]. *)
Definition listing_failed (resp : result pyval) : Prop :=
  match resp with
  | Raise _ => True
  | Ok data =>
      match Py.get data "data" with
      | Ok (PList _) => False
      | _ => True
      end
  end.

(** A spot symbol with the derivative symbol of the same canonical form. *)
Definition paired (m : gmap string string) (spot_sym : string) : option (string * string) :=
  (fun f_sym => (spot_sym, f_sym)) <$> m !! normalize_symbol spot_sym "spot".

(** The event is the sleep that ends a tier. *)
Definition is_tier_sleep (ev : event) : bool :=
  match ev with
  | EvSleep FastInterval _ | EvSleep SlowInterval _ => true
  | _ => false
  end.

(** The sleeps between tiers recorded in a trace. *)
Definition tier_sleeps (evs : list event) : list event :=
  List.filter is_tier_sleep evs.

(** No tier sleep was emitted. *)
Definition no_tier_sleep (_ _ : world) (evs : list event) : Prop :=
  tier_sleeps evs = [].



(** The table [arbitrage_signals] is left as it was. *)
Definition table_kept (w w' : world) (_ : list event) : Prop :=
  arbitrage_signals w' = arbitrage_signals w.

(** ** Further vocabulary: readings of floats and of the message tiers *)

(** [math.isnan] and [math.isinf]. *)
Definition isnan (f : float) : bool :=
  match Prim2SF f with S754_nan => true | _ => false end.

Definition isinf (f : float) : bool :=
  match Prim2SF f with S754_infinity _ => true | _ => false end.

(** The float is a NaN, or its sign bit is clear: it is not below zero and
    it is not the negative zero. *)
Definition sign_clear (f : float) : bool :=
  match Prim2SF f with
  | S754_nan => true
  | S754_zero s | S754_infinity s | S754_finite s _ _ => negb s
  end.

(** The labels of the message, weakest first. *)
Definition strength_rank (s : strength) : nat :=
  match s with Moderate => 0 | Medium => 1 | Strong => 2 | VeryStrong => 3 end.

Definition context_rank (c : context) : nat :=
  match c with Standard => 0 | HighOpportunity => 1 | Unprecedented => 2 | HistoricalMax => 3 end.

Definition liquidity_rank (l : liquidity) : nat :=
  match l with LowLiquidity => 0 | MediumLiquidity => 1 | HighLiquidity => 2 end.

(** What one attempt of [fetch_futures_price] makes of the answer to its
    request: the price it returns, the rate-limit code 510 (a sleep, then
    the next attempt), any other body without a price (the next attempt at
    once), or an exception (a sleep, then the next attempt). *)
Inductive futures_reply :=
| Price (p : float)
| RateLimited
| BadData
| Failed (e : exn).

Definition futures_ticker (E : env) (data : pyval) : result futures_reply :=
  let? has_data := Py.contains "data" data in
  let? has_price :=
    (if has_data
     then let? inner := Py.getitem data "data" in Py.contains "lastPrice" inner
     else Ok false) in
  if has_price
  then
    let? inner := Py.getitem data "data" in
    let? last := Py.getitem inner "lastPrice" in
    let? price := Py.to_float (parse_float E) last in
    Ok (Price price)
  else
    let? code := Py.get data "code" in
    Ok (if Py.eq_int code 510 then RateLimited else BadData).

(** The reply to the request of [url] issued after [n] others. *)
Definition futures_outcome (E : env) (url : string) (n : nat) : futures_reply :=
  match (let? data := http E url n in futures_ticker E data) with
  | Ok r => r
  | Raise e => Failed e
  end.

Definition price_of (r : futures_reply) : option float :=
  match r with Price p => Some p | _ => None end.

Definition backs_off (r : futures_reply) : bool :=
  match r with RateLimited | Failed _ => true | _ => false end.

(** [n] attempts in a row that return no price, the first numbered [attempt]
    and answered as the request number [first]: each is a request, followed
    by the sleep of [1.5 * (attempt + 1)] seconds when the reply backs
    off. *)
Fixpoint futures_rounds (E : env) (url : string) (first attempt n : nat) : list event :=
  match n with
  | O => []
  | S n' =>
      (EvGet url ::
       (if backs_off (futures_outcome E url first)
        then [EvSleep FuturesBackoff (backoff attempt)] else []))
      ++ futures_rounds E url (S first) (S attempt) n'
  end%list.

(** A delivery that [process_and_notify] may make for the pairs [pairs]: to
    a subscriber, about a signal of one of the pairs whose spread passes both
    thresholds. *)
Definition delivery_ok (E : env) (pairs : list (string * string)) (d : Z * message) : Prop :=
  let s := msg_signal d.2 in
  d.1 ∈ get_subscribers E /\
  (spot_symbol s, futures_symbol s) ∈ pairs /\
  (Config.THRESHOLD_PERCENT <=? spread_percent s)%float = true /\
  (Config.THRESHOLD_NOTIFY_PERCENT <=? spread_percent s)%float = true.

(** Every delivery recorded in the trace is one of those. *)
Definition gated (E : env) (pairs : list (string * string))
    (_ _ : world) (evs : list event) : Prop :=
  Forall (delivery_ok E pairs) (deliveries evs).

(** The requests recorded in a trace. *)
Definition gets (evs : list event) : list event := List.filter is_get evs.

(** ** A second scenario: a spread that overflows

    The spot ticker of XUSDT reads 1e-300 and the derivative ticker of X_USDT
    1e10, so that the spread is an infinity; the listing holds X_USDT and
    BTC_USDT, and XUSDT ranks first; the rest is as in the first scenario. *)

Module Extreme.

Local Open Scope float_scope.

Definition extreme_answers (url : string) (n : nat) : result pyval :=
  if String.eqb url (spot_url "XUSDT")
  then Ok (PDict [("symbol", PStr "XUSDT"); ("lastPrice", PFloat 1e-300);
                  ("quoteVolume", PFloat 2000000)])
  else if String.eqb url (futures_url "X_USDT")
  then Ok (PDict [("success", PBool true); ("code", PInt 0);
                  ("data", PDict [("symbol", PStr "X_USDT"); ("lastPrice", PFloat 1e10)])])
  else if String.eqb url futures_listing_url
  then Ok (PDict [("success", PBool true);
                  ("data", PList [PDict [("symbol", PStr "X_USDT")];
                                  PDict [("symbol", PStr "BTC_USDT")]])])
  else Scenario.answers url n.

Definition market : env :=
  mkEnv Scenario.parse extreme_answers Scenario.driver (Some [1; 2; 3]%Z)
        [PStr "XUSDT"; PStr "BTCUSDT"] (Some Scenario.send).

End Extreme.

(** The quote currencies a spot symbol may end in for its canonical form to
    be its base. *)
Definition spot_quotes : list string := ["USDT"; "USD"].

(** ** The ranking of spot symbols: [symbols_loader.get_top_symbols]

    The module global [_cache] is the state; the clock reading, the outcome
    of the request ([requests.get], [raise_for_status], [response.json()]) and
    the order [sorted] puts the keyed items in are the inputs.  [sorted] is a
    parameter because the order it gives to keys that are NaN depends on
    the details of the algorithm; a stable descending insertion sort, which
    agrees with it on keys that can be compared, is [sort_desc]. *)

Module SymbolsLoader.

Local Open Scope float_scope.

Record cache := mkCache {
  cache_timestamp : float;
  cache_data : list pyval
}.

Definition CACHE_TTL : float := 60.

(** [_cache] when the module is loaded. *)
Definition initial : cache := mkCache 0 [].

(** [f(x) for x in l], stopping at the first exception. *)
Fixpoint traverse {A B} (f : A -> result B) (l : list A) : result (list B) :=
  match l with
  | [] => Ok []
  | x :: l' =>
      let? y := f x in
      let? ys := traverse f l' in
      Ok (y :: ys)
  end.

(** [for item in data]: a list gives its elements, a dictionary its keys, a
    string its characters; nothing else can be iterated. *)
Definition iterate (data : pyval) : result (list pyval) :=
  match data with
  | PList l => Ok l
  | PDict d => Ok (map (fun kv => PStr kv.1) d)
  | PStr s => Ok (map (fun c => PStr (String c EmptyString)) (list_ascii_of_string s))
  | _ => Raise TypeError
  end.

(** [s.endswith(suffix)]. *)
Definition endswith (suffix s : string) : bool :=
  (String.length suffix <=? String.length s)%nat
  && String.eqb (PyStr.drop (String.length s - String.length suffix) s) suffix.

(** [item['symbol'].endswith("USDT")]. *)
Definition is_usdt (item : pyval) : result bool :=
  let? sym := Py.getitem item "symbol" in
  match sym with
  | PStr s => Ok (endswith "USDT" s)
  | _ => Raise AttributeError
  end.

(** [[item for item in data if item['symbol'].endswith("USDT")]]. *)
Fixpoint usdt_pairs (items : list pyval) : result (list pyval) :=
  match items with
  | [] => Ok []
  | item :: rest =>
      let? keep := is_usdt item in
      let? kept := usdt_pairs rest in
      Ok (if keep then item :: kept else kept)
  end.

(** The key of [sorted]: [float(x['quoteVolume'])], paired with its item. *)
Definition keyed (parse : string -> option float) (item : pyval) : result (float * pyval) :=
  let? qv := Py.getitem item "quoteVolume" in
  let? key := Py.to_float parse qv in
  Ok (key, item).

(** The body of the [try]. *)
Definition fresh_ranking (sorted : list (float * pyval) -> list (float * pyval))
    (parse : string -> option float) (response : result pyval) (limit : nat)
  : result (list pyval) :=
  let? data := response in
  let? items := iterate data in
  let? usdt := usdt_pairs items in
  let? keys := traverse (keyed parse) usdt in
  let sorted_by_volume := (sorted keys).*2 in
  traverse (fun item => Py.getitem item "symbol") (take limit sorted_by_volume).

(** The call [get_top_symbols(limit)] at the clock reading [now]: the list
    returned, the cache afterwards, and whether the request was made. *)
Definition get_top_symbols (sorted : list (float * pyval) -> list (float * pyval))
    (parse : string -> option float) (response : result pyval) (now : float)
    (limit : nat) (c : cache) : list pyval * cache * bool :=
  if (now - cache_timestamp c <? CACHE_TTL) && nonempty (cache_data c)
  then (take limit (cache_data c), c, false)
  else
    match fresh_ranking sorted parse response limit with
    | Ok top_symbols => (top_symbols, mkCache now top_symbols, true)
    | Raise _ => ([], c, true)
    end.

(** An insertion sort by descending key, stable as [sorted(...,
    reverse=True)] is: [x], which comes first in the input, goes behind the
    items of greater key only, so items of equal key keep the order they
    came in.  (With a NaN among the keys what [sorted] returns depends on
    the comparisons it happens to make; this is then one possible order.) *)
Fixpoint insert_desc (x : float * pyval) (l : list (float * pyval)) : list (float * pyval) :=
  match l with
  | [] => [x]
  | y :: l' => if (x.1 <? y.1) then y :: insert_desc x l' else x :: y :: l'
  end.

Definition sort_desc (l : list (float * pyval)) : list (float * pyval) :=
  foldr insert_desc [] l.

(** A string that ends in [USDT]. *)
Definition usdt_symbol (v : pyval) : Prop :=
  exists s, v = PStr s /\ endswith "USDT" s = true.

(** The outcomes of the request that make the [try] raise: a failure of the
    request; a body that cannot be iterated ([None], a number, a truth
    value); a dictionary or a string that is not empty (it is iterated, but
    its elements are strings, which have no ['symbol']); a list with an item
    whose ['symbol'] cannot be read or is not a string.  The empty
    dictionary and the empty string are not among them: iterating them
    raises nothing. *)
Definition unusable (response : result pyval) : Prop :=
  match response with
  | Raise _ => True
  | Ok (PList items) => Exists (fun item => is_raise (is_usdt item) = true) items
  | Ok (PDict d) => d <> []
  | Ok (PStr s) => s <> EmptyString
  | Ok _ => True
  end.

(** A body with nothing to iterate: the empty list, the empty dictionary,
    the empty string. *)
Definition empty_body (response : result pyval) : Prop :=
  response = Ok (PList []) \/ response = Ok (PDict []) \/ response = Ok (PStr EmptyString).

(** The ticker list of the exchange in a small: three USDT pairs and one
    pair quoted in BTC. *)
Definition tickers : pyval :=
  PList [PDict [("symbol", PStr "ETHUSDT"); ("quoteVolume", PStr "2000000")];
         PDict [("symbol", PStr "ETHBTC"); ("quoteVolume", PStr "100")];
         PDict [("symbol", PStr "BTCUSDT"); ("quoteVolume", PFloat 5000000)];
         PDict [("symbol", PStr "XUSDT"); ("quoteVolume", PStr "100")]].

End SymbolsLoader.

(** ** The tables behind [database.py]: [add_subscriber],
    [remove_subscriber], [get_subscribers], and the driver of [save_signal]

    The table [subscribers] has the one column [user_id INTEGER PRIMARY KEY]:
    it is a set of 64-bit integers.  Each function opens a connection of its
    own, runs one statement on it and, for the two that write, answers
    [conn.total_changes > 0]; the counter starts at zero with the
    connection and counts the rows its statements have inserted or deleted.
    What is modelled of [sqlite3] is the meaning of the three statements on
    the table, and when it raises: [sqlite3.Error], at the will of the
    parameter [driver_state], before the parameters are bound ([connect], the
    preparation of the statement) or after (the execution, the commit), and
    [OverflowError], which is not an [sqlite3.Error], for a Python [int]
    that does not fit in 64 bits.  Nothing is written by a call that
    raises.  The order of the rows [SELECT] gives is the driver's; the
    properties use membership only. *)

Module Database.

Inductive driver_state := Working | FailsEarly | FailsLate.

Definition fits_int64 (z : Z) : bool :=
  ((- 2 ^ 63 <=? z) && (z <? 2 ^ 63))%Z.

(** A connection: the rows of [subscribers] as its statements have left
    them, and [conn.total_changes]. *)
Record connection := mkConnection {
  rows : gset Z;
  total_changes : nat
}.

(** [sqlite3.connect(DB_FILE, timeout=15)]. *)
Definition connect (d : driver_state) (t : gset Z) : result connection :=
  match d with
  | FailsEarly => Raise SqliteError
  | _ => Ok (mkConnection t 0)
  end.

(** Binding a Python [int] to a parameter of a statement. *)
Definition bind_int (z : Z) : result unit :=
  if fits_int64 z then Ok tt else Raise OverflowError.

(** What is left of a statement once its parameters are bound. *)
Definition step (d : driver_state) (conn : connection) : result connection :=
  match d with
  | FailsLate => Raise SqliteError
  | _ => Ok conn
  end.

(** [conn.execute("INSERT OR IGNORE INTO subscribers (user_id) VALUES (?)",
    (user_id,))]: a new row, unless the key is in the table already. *)
Definition insert_or_ignore (d : driver_state) (user_id : Z) (conn : connection)
  : result connection :=
  let? _ := bind_int user_id in
  step d (if bool_decide (user_id ∈ rows conn) then conn
          else mkConnection ({[user_id]} ∪ rows conn) (S (total_changes conn))).

(** [conn.execute("DELETE FROM subscribers WHERE user_id = ?", (user_id,))]:
    the row of that key goes, if there is one. *)
Definition delete (d : driver_state) (user_id : Z) (conn : connection)
  : result connection :=
  let? _ := bind_int user_id in
  step d (if bool_decide (user_id ∈ rows conn)
          then mkConnection (rows conn ∖ {[user_id]}) (S (total_changes conn))
          else conn).

(** [cursor.execute("SELECT user_id FROM subscribers")] and
    [[row['user_id'] for row in cursor.fetchall()]]. *)
Definition select_user_ids (d : driver_state) (conn : connection) : result (list Z) :=
  let? conn' := step d conn in Ok (elements (rows conn')).

(** The frame the two writing functions share:
    [try: with db_connection() as conn: with conn: statement;
    return conn.total_changes > 0  except sqlite3.Error: return False].
    The rows are committed when the statement returns, and the table is as
    before when it raises; an exception that is not [sqlite3.Error] is not
    caught. *)
Definition changed (d : driver_state) (t : gset Z)
    (statement : connection -> result connection) : result bool * gset Z :=
  match (let? conn := connect d t in statement conn) with
  | Ok conn => (Ok (0 <? total_changes conn)%nat, rows conn)
  | Raise e => if is_sqlite_error e then (Ok false, t) else (Raise e, t)
  end.

Definition add_subscriber (d : driver_state) (user_id : Z) (t : gset Z)
  : result bool * gset Z :=
  changed d t (insert_or_ignore d user_id).

Definition remove_subscriber (d : driver_state) (user_id : Z) (t : gset Z)
  : result bool * gset Z :=
  changed d t (delete d user_id).

(** [get_subscribers] as [env] expects it: [None] when [sqlite3.Error] is
    raised, which the function turns into the empty list. *)
Definition select_subscribers (d : driver_state) (t : gset Z) : option (list Z) :=
  match (let? conn := connect d t in select_user_ids d conn) with
  | Ok user_ids => Some user_ids
  | Raise _ => None
  end.

Definition get_subscribers (d : driver_state) (t : gset Z) : list Z :=
  default [] (select_subscribers d t).




End Database.


(** The items of the listing the request yields, if it yields a list. *)
Definition listing_items (resp : result pyval) : list pyval :=
  match resp with
  | Ok data =>
      match Py.get data "data" with
      | Ok (PList items) => items
      | _ => []
      end
  | Raise _ => []
  end.

(** The keys a symbol is looked for under, in this order. *)
Definition symbol_keys : list string := ["symbol"; "contractName"; "instrumentId"].

(** The refresh of the pairs is due. *)
Definition refresh_due (st : loop_state) (now : float) : bool :=
  (Py.float_of_Z Config.PAIRS_UPDATE_INTERVAL <? now - last_pairs_update st)%float
  || negb (nonempty (pairs st)).

(** ** The menu of the bot: [bot.handle_menu_interaction] and
    [bot.handle_text_input]

    What the two handlers do to the table of subscribers, to the module
    global [user_settings] and to [context.user_data], and which reply they
    choose.  The texts of the replies and the keyboards are presentation; the
    calls to Telegram are taken to return.  Each call of a database function
    has a driver of its own: [d_get] for [get_subscribers], evaluated at the
    head of every call, [d_op] for [add_subscriber] or [remove_subscriber]. *)

Module Bot.

Local Open Scope float_scope.

(** The constant of [bot.py], not the one of [config.py]. *)
Definition THRESHOLD_NOTIFY_PERCENT : float := 0.7.
Definition MAIN_MENU : string := "main_menu".
Definition SETTINGS_MENU : string := "settings_menu".

(** An entry of [user_settings]. *)
Record settings := mkSettings {
  min_spread : float;
  min_volume : pyval;
  links_enabled : bool;
  notifications : bool
}.

(** [context.user_data]: an absent key reads as [None], which is falsy. *)
Record user_data := mkUserData {
  menu : option string;
  awaiting_spread : bool;
  awaiting_volume : bool
}.

Record state := mkState {
  subscribers : gset Z;
  user_settings : gmap Z settings
}.

Inductive reply :=
| Status | Stats
| Subscribed | AlreadySubscribed
| Unsubscribed | WasNotSubscribed
| SettingsMenu | Help | MainMenu
| NotificationsOff | NotificationsOffFailed
| NotificationsOn | NotificationsOnFailed
| AskSpread | AskVolume
| NotRecognised | NoReply
| SpreadSet | InvalidSpread
| VolumeSet | InvalidVolume
| UseMenu.

Definition set_menu (m : string) (ud : user_data) : user_data :=
  mkUserData (Some m) (awaiting_spread ud) (awaiting_volume ud).
Definition set_awaiting_spread (b : bool) (ud : user_data) : user_data :=
  mkUserData (menu ud) b (awaiting_volume ud).
Definition set_awaiting_volume (b : bool) (ud : user_data) : user_data :=
  mkUserData (menu ud) (awaiting_spread ud) b.

Definition set_notifications (b : bool) (s : settings) : settings :=
  mkSettings (min_spread s) (min_volume s) (links_enabled s) b.
Definition set_links_enabled (b : bool) (s : settings) : settings :=
  mkSettings (min_spread s) (min_volume s) b (notifications s).
Definition set_min_spread (f : float) (s : settings) : settings :=
  mkSettings f (min_volume s) (links_enabled s) (notifications s).
Definition set_min_volume (v : pyval) (s : settings) : settings :=
  mkSettings (min_spread s) v (links_enabled s) (notifications s).

(** [user_settings.setdefault(user.id, {...})]: the entry of the user, made
    from the database when there is none. *)
Definition setdefault (d_get : Database.driver_state) (uid : Z) (st : state) : settings * state :=
  match user_settings st !! uid with
  | Some s => (s, st)
  | None =>
      let s := mkSettings THRESHOLD_NOTIFY_PERCENT (PInt 0) true
                 (bool_decide (uid ∈ Database.get_subscribers d_get (subscribers st))) in
      (s, mkState (subscribers st) (<[uid := s]> (user_settings st)))
  end.

(** The entry is a dictionary shared with [user_settings]: an assignment to
    one of its keys is seen there. *)
Definition store (uid : Z) (s : settings) (st : state) : state :=
  mkState (subscribers st) (<[uid := s]> (user_settings st)).

Definition set_subscribers (t : gset Z) (st : state) : state :=
  mkState t (user_settings st).

(** A database call that decides between two replies; it sets the flag
    [notifications] to [flag] when it answers [True]. *)
Definition switch (op : result bool * gset Z) (flag : bool) (yes no : reply)
    (uid : Z) (s : settings) (ud : user_data) (st : state)
  : result reply * user_data * state :=
  match op with
  | (Ok true, t) => (Ok yes, ud, store uid (set_notifications flag s) (set_subscribers t st))
  | (Ok false, t) => (Ok no, ud, set_subscribers t st)
  | (Raise e, t) => (Raise e, ud, set_subscribers t st)
  end.

Definition handle_menu_interaction (d_get d_op : Database.driver_state) (data : string)
    (uid : Z) (ud : user_data) (st0 : state) : result reply * user_data * state :=
  let (s, st) := setdefault d_get uid st0 in
  if String.eqb data "status" then (Ok Status, set_menu MAIN_MENU ud, st)
  else if String.eqb data "stats" then (Ok Stats, set_menu MAIN_MENU ud, st)
  else if String.eqb data "subscribe" then
    switch (Database.add_subscriber d_op uid (subscribers st)) true
      Subscribed AlreadySubscribed uid s ud st
  else if String.eqb data "unsubscribe" then
    switch (Database.remove_subscriber d_op uid (subscribers st)) false
      Unsubscribed WasNotSubscribed uid s ud st
  else if String.eqb data "settings" then (Ok SettingsMenu, set_menu SETTINGS_MENU ud, st)
  else if String.eqb data "help" then (Ok Help, ud, st)
  else if String.eqb data "back_to_main" then (Ok MainMenu, set_menu MAIN_MENU ud, st)
  else if bool_decide (menu ud = Some SETTINGS_MENU) then
    if String.eqb data "toggle_links" then
      (Ok SettingsMenu, ud, store uid (set_links_enabled (negb (links_enabled s)) s) st)
    else if String.eqb data "toggle_notifications" then
      if notifications s
      then switch (Database.remove_subscriber d_op uid (subscribers st)) false
             NotificationsOff NotificationsOffFailed uid s ud st
      else switch (Database.add_subscriber d_op uid (subscribers st)) true
             NotificationsOn NotificationsOnFailed uid s ud st
    else if String.eqb data "set_spread" then (Ok AskSpread, set_awaiting_spread true ud, st)
    else if String.eqb data "set_volume" then (Ok AskVolume, set_awaiting_volume true ud, st)
    else (Ok NoReply, ud, st)
  else (Ok NotRecognised, ud, st).

(** [str.strip()] and [str.replace(",", ".")], on ASCII. *)
Definition is_space (c : ascii) : bool :=
  let n := N_of_ascii c in
  ((9 <=? n) && (n <=? 13) || (28 <=? n) && (n <=? 32))%N.

Fixpoint lstrip (s : string) : string :=
  match s with
  | String c s' => if is_space c then lstrip s' else s
  | EmptyString => EmptyString
  end.

Fixpoint rstrip (s : string) : string :=
  match s with
  | EmptyString => EmptyString
  | String c s' =>
      match rstrip s' with
      | EmptyString => if is_space c then EmptyString else String c EmptyString
      | rest => String c rest
      end
  end.

Definition strip (s : string) : string := rstrip (lstrip s).

Fixpoint comma_to_dot (s : string) : string :=
  match s with
  | EmptyString => EmptyString
  | String c s' => String (if Ascii.eqb c "," then "."%char else c) (comma_to_dot s')
  end.

(** [parse] is [float] on a string; its failure is the [ValueError] that the
    handler catches. *)
Definition handle_text_input (parse : string -> option float) (d_get : Database.driver_state)
    (message_text : string) (uid : Z) (ud : user_data) (st0 : state)
  : reply * user_data * state :=
  let text := strip message_text in
  let (s, st) := setdefault d_get uid st0 in
  if awaiting_spread ud then
    match parse (comma_to_dot text) with
    | Some val =>
        if val <=? 0 then (InvalidSpread, ud, st)
        else (SpreadSet, set_awaiting_spread false ud,
              store uid (set_min_spread (val / 100) s) st)
    | None => (InvalidSpread, ud, st)
    end
  else if awaiting_volume ud then
    match parse (comma_to_dot text) with
    | Some val =>
        if val <? 0 then (InvalidVolume, ud, st)
        else (VolumeSet, set_awaiting_volume false ud,
              store uid (set_min_volume (PFloat val) s) st)
    | None => (InvalidVolume, ud, st)
    end
  else (UseMenu, ud, st).

(** The flag [notifications] that the bot keeps for a user says whether the
    user is in the table of subscribers. *)
Definition in_sync (uid : Z) (st : state) : Prop :=
  forall s, user_settings st !! uid = Some s ->
            (notifications s = true <-> uid ∈ subscribers st).

End Bot.

(** ** The migrations: [database.column_exists] and
    [database.apply_migrations]

    Of the database, the columns of the table [arbitrage_signals] and the
    names recorded in the table [migrations]; [None] stands for a table that
    does not exist.  The statements the driver runs either succeed or raise
    [sqlite3.Error] for the reason given here (a missing table, a column that
    exists already: SQLite compares the names of columns ignoring case);
    what the database holds after an exception is not modelled. *)

Module Migrations.

Record schema := mkSchema {
  signals_columns : option (list string);
  applied : option (gset string)
}.

(** An entry of [MIGRATIONS]: its name, and the column its [sql] adds to
    [arbitrage_signals] and its [check] looks for. *)
Record migration := mkMigration {
  name : string;
  column : string
}.

Definition MIGRATIONS : list migration :=
  [mkMigration "add_volume_column" "volume"].

(** [PRAGMA table_info(arbitrage_signals)] gives no row for a missing
    table; then [column_name in columns]. *)
Definition column_exists (sch : schema) (column_name : string) : bool :=
  existsb (String.eqb column_name) (default [] (signals_columns sch)).

(** [ALTER TABLE arbitrage_signals ADD COLUMN c ...]. *)
Definition add_column (c : string) (sch : schema) : result schema :=
  match signals_columns sch with
  | None => Raise SqliteError
  | Some cols =>
      if existsb (fun x => String.eqb (PyStr.upper x) (PyStr.upper c)) cols
      then Raise SqliteError
      else Ok (mkSchema (Some (cols ++ [c])%list) (applied sch))
  end.

(** [INSERT INTO migrations (name) VALUES (?)]; the column is [UNIQUE]. *)
Definition record_migration (n : string) (sch : schema) : result schema :=
  match applied sch with
  | None => Raise SqliteError
  | Some names =>
      if bool_decide (n ∈ names) then Raise SqliteError
      else Ok (mkSchema (signals_columns sch) (Some ({[n]} ∪ names)))
  end.

(** The loop over [MIGRATIONS], with the names read before it. *)
Fixpoint run_migrations (applied_migrations : gset string) (ms : list migration)
    (sch : schema) : result schema :=
  match ms with
  | [] => Ok sch
  | m :: ms' =>
      let? sch1 :=
        (if bool_decide (name m ∈ applied_migrations) then Ok sch
         else if negb (column_exists sch (column m))
              then let? sch' := add_column (column m) sch in
                   record_migration (name m) sch'
              else Ok sch) in
      run_migrations applied_migrations ms' sch1
  end.

Definition apply_migrations (sch : schema) : result schema :=
  match applied sch with
  | None => Raise SqliteError
  | Some applied_migrations => run_migrations applied_migrations MIGRATIONS sch
  end.

(** The table as [init_db] creates it. *)
Definition created : list string :=
  ["id"; "symbol"; "spot_price"; "futures_price"; "spread_percent"; "volume"; "timestamp"].

End Migrations.

(* ===================================================================== *)
(** * Part II: properties *)
(* ===================================================================== *)

(** ** SymbolMatcher: normalisation *)

(** The ordinary case: one trailing quote currency, and a base free of
    [USD]. *)
Example normalize_symbol_ordinary :
  normalize_symbol "btcusdt" "spot" = "BTC" /\
  normalize_symbol "ETHUSD" "spot" = "ETH" /\
  normalize_symbol "BTC_USDT" "futures" = "BTC" /\
  normalize_symbol "ETH_PERP" "futures" = "ETH" /\
  normalize_symbol "BTCUSDT" "other" = "BTCUSDT".
Proof. repeat split; reflexivity. Qed.

(** C3, at symbols the scanner can meet.  The spot symbol USDCUSDT is
    reduced to C, not to USDC: the [USD] inside the base is deleted as well,
    so the spot form no longer equals the canonical form USDC of the
    derivative symbol USDC_USDT.  And normalising is not idempotent:
    UUSDSD gives USD, which gives the empty string. *)
Theorem normalize_symbol_spot_deletes_inside :
  normalize_symbol "USDCUSDT" "spot" = "C" /\
  normalize_symbol "USDC_USDT" "futures" = "USDC" /\
  normalize_symbol "UUSDSD" "spot" = "USD" /\
  normalize_symbol (normalize_symbol "UUSDSD" "spot") "spot" = EmptyString.
Proof. repeat split; reflexivity. Qed.

(** ** Facts about binary64 arithmetic *)

Module FloatFacts.

Local Open Scope float_scope.

Lemma Prim2SF_zero : Prim2SF 0 = S754_zero false.
Proof. reflexivity. Qed.


(** Rounding to nearest even does not look at the sign. *)
Lemma binary_round_aux_abs sx m e l :
  SFabs (binary_round_aux prec emax sx m e l)
  = binary_round_aux prec emax false m e l.
Proof.
  unfold binary_round_aux.
  destruct (shr_fexp prec emax m e l) as [mrs' e'].
  destruct (shr_fexp prec emax _ e' loc_Exact) as [mrs'' e''].
  destruct (shr_m mrs''); try reflexivity.
  destruct (Z.leb e'' (emax - prec)); reflexivity.
Qed.






End FloatFacts.

(** ** SpreadEvaluator *)

Section Evaluate.

Local Open Scope float_scope.

Variables (spot_sym fut_sym : string) (volume now : float).


End Evaluate.

(** The scenarios of the specification: 50000 against 50250 is a spread of
    0.5 per cent, 100 against 108 one of 8 per cent. *)
Example evaluate_scenarios :
  (spread_percent <$> evaluate "BTCUSDT" "BTC_USDT" 50000 0 50250 0 = Some 0.5%float) /\
  (spread_percent <$> evaluate "BTCUSDT" "BTC_USDT" 100 0 108 0 = Some 8%float) /\
  (bid_ask <$> evaluate "BTCUSDT" "BTC_USDT" 100 0 108 0 = Some "Buy Spot / Sell Futures").
Proof. repeat split; reflexivity. Qed.


(** ** Reasoning about computations: two-state invariants

    A relation between the world before, the world after and the events
    emitted, that holds of a step which does nothing and composes along
    sequencing, is inherited by every control structure of the monad. *)

Section Respects.

Context (P : world -> world -> list event -> Prop) `{!Invariant P}.

Lemma respects_ret {A} (a : A) : respects P (ret a).
Proof. intros w. apply inv_refl. Qed.

Lemma respects_lift {A} (r : result A) : respects P (lift r).
Proof. intros w. apply inv_refl. Qed.

Lemma respects_raise {A} (e : exn) : respects P (@raise A e).
Proof. intros w. apply inv_refl. Qed.

Lemma respects_time : respects P time.
Proof. intros w. apply inv_refl. Qed.

Lemma respects_bind {A B} (m : M A) (k : A -> M B) :
  respects P m -> (forall a, respects P (k a)) -> respects P (bind m k).
Proof.
  intros Hm Hk w. specialize (Hm w). unfold bind, world_of, events_of in *.
  destruct (m w) as [[[a|e] w1] ev1]; simpl in *; [|assumption].
  specialize (Hk a w1). unfold world_of, events_of in Hk.
  destruct (k a w1) as [[r w2] ev2]; simpl in *.
  eapply inv_trans; eassumption.
Qed.

Lemma respects_try_except {A} (m : M A) (h : exn -> M A) :
  respects P m -> (forall e, respects P (h e)) -> respects P (try_except m h).
Proof.
  intros Hm Hh w. specialize (Hm w). unfold try_except, world_of, events_of in *.
  destruct (m w) as [[[a|e] w1] ev1]; simpl in *; [assumption|].
  specialize (Hh e w1). unfold world_of, events_of in Hh.
  destruct (h e w1) as [[r w2] ev2]; simpl in *.
  eapply inv_trans; eassumption.
Qed.

Lemma respects_finally {A} (m : M A) (f : M unit) :
  respects P m -> respects P f -> respects P (finally m f).
Proof.
  intros Hm Hf w. specialize (Hm w). unfold finally, world_of, events_of in *.
  destruct (m w) as [[r w1] ev1]; simpl in *.
  specialize (Hf w1). unfold world_of, events_of in Hf.
  destruct (f w1) as [[r' w2] ev2]; simpl in *.
  eapply inv_trans; eassumption.
Qed.

Lemma respects_gather (tasks : list (M unit)) :
  Forall (respects P) tasks -> respects P (gather tasks).
Proof.
  induction 1 as [|t tasks Ht _ IH]; intros w; simpl.
  - apply inv_refl.
  - specialize (Ht w). unfold world_of, events_of in *.
    destruct (t w) as [[r w1] ev1]; simpl in *.
    specialize (IH w1).
    destruct (gather tasks w1) as [[r' w2] ev2]; simpl in *.
    eapply inv_trans; eassumption.
Qed.

End Respects.

(** The structural steps of a proof that a computation respects an
    invariant; the primitive effects are left to the hint database
    [respects]. *)
Create HintDb respects.

Ltac respects_step :=
  lazymatch goal with
  | |- respects _ (bind _ _) => apply respects_bind; [try exact _| |intros ?]
  | |- respects _ (try_except _ _) => apply respects_try_except; [try exact _| |intros ?]
  | |- respects _ (finally _ _) => apply respects_finally; [try exact _| |]
  | |- respects _ (ret _) => apply respects_ret; exact _
  | |- respects _ (lift _) => apply respects_lift; exact _
  | |- respects _ (raise _) => apply respects_raise; exact _
  | |- respects _ time => apply respects_time; exact _
  | |- respects _ (if ?b then _ else _) => destruct b
  | |- respects _ (match ?x with _ => _ end) => destruct x
  | |- respects _ _ => solve [auto with respects]
  end.

Ltac respects_auto := repeat respects_step.

(** ** Computations that return *)

Lemma total_ret {A} (a : A) : total (ret a).
Proof. intros w. exists a. reflexivity. Qed.

Lemma total_bind {A B} (m : M A) (k : A -> M B) :
  total m -> (forall a, total (k a)) -> total (bind m k).
Proof.
  intros Hm Hk w. destruct (Hm w) as [a Ha]. unfold bind, result_of in *.
  destruct (m w) as [[r w1] ev1]; simpl in Ha; subst r.
  destruct (Hk a w1) as [b Hb]. unfold result_of in Hb.
  destruct (k a w1) as [[r w2] ev2]; simpl in *. eauto.
Qed.

(** A handler that returns makes the whole [try] return. *)
Lemma total_try_except {A} (m : M A) (h : exn -> M A) :
  (forall e, total (h e)) -> total (try_except m h).
Proof.
  intros Hh w. unfold try_except, result_of.
  destruct (m w) as [[[a|e] w1] ev1]; simpl; [eauto|].
  destruct (Hh e w1) as [b Hb]. unfold result_of in Hb.
  destruct (h e w1) as [[r w2] ev2]; simpl in *. eauto.
Qed.

Lemma total_finally {A} (m : M A) (f : M unit) :
  total m -> total (finally m f).
Proof.
  intros Hm w. destruct (Hm w) as [a Ha]. unfold finally, result_of in *.
  destruct (m w) as [[r w1] ev1]; simpl in Ha; subst r.
  destruct (f w1) as [[r' w2] ev2]; simpl. eauto.
Qed.

Lemma total_emit ev : total (emit ev).
Proof. intros w. exists tt. reflexivity. Qed.

Lemma total_modify f : total (modify f).
Proof. intros w. exists tt. reflexivity. Qed.

Lemma total_time : total time.
Proof. intros w. eexists. reflexivity. Qed.

Lemma total_sleep site d : total (sleep site d).
Proof. intros w. exists tt. reflexivity. Qed.

Lemma total_gather (tasks : list (M unit)) :
  Forall total tasks -> total (gather tasks).
Proof.
  induction 1 as [|t tasks Ht _ IH]; intros w; simpl.
  - exists tt. reflexivity.
  - destruct (Ht w) as [[] Ha]. unfold result_of in *.
    destruct (t w) as [[r w1] ev1]; simpl in Ha; subst r.
    destruct (IH w1) as [[] Hb].
    destruct (gather tasks w1) as [[r' w2] ev2]; simpl in *. eauto.
Qed.

Create HintDb total.

#[export] Hint Resolve total_ret total_emit total_modify total_time total_sleep : total.

Ltac total_step :=
  lazymatch goal with
  | |- total (bind _ _) => apply total_bind; [|intros ?]
  | |- total (try_except _ _) => apply total_try_except; intros ?
  | |- total (finally _ _) => apply total_finally
  | |- total (if ?b then _ else _) => destruct b
  | |- total (match ?x with _ => _ end) => destruct x
  | |- total _ => solve [auto with total]
  end.

Ltac total_auto := repeat total_step.

(** ** RateLimiter *)

Lemma rate_limit_run w :
  rate_limit w =
  (Ok tt,
   mkWorld (grant_time w) (grant_time w) (semaphore_held w) (requests w)
           (arbitrage_signals w),
   rate_limit_events w).
Proof.
  unfold rate_limit, grant_time, rate_limit_events, bind, time, sleep, emit,
    modify, ret, advance, set_last_request_time. simpl.
  destruct (_ <? _)%float; reflexivity.
Qed.

Lemma total_rate_limit : total rate_limit.
Proof. intros w. rewrite rate_limit_run. exists tt. reflexivity. Qed.

#[export] Hint Resolve total_rate_limit : total.

Lemma total_with_semaphore {A} (body : M A) : total body -> total (with_semaphore body).
Proof. intros H. unfold with_semaphore. total_auto. Qed.

(** ** PriceFetcher: the spot leg *)

Lemma spot_attempt_run E url w :
  spot_attempt E url w = (spot_outcome E url (requests w), bump_requests w, [EvGet url]).
Proof.
  unfold spot_attempt, spot_outcome, bind, http_get, lift, rbind, bump_requests.
  destruct (http E url (requests w)) as [data|e]; simpl; [|reflexivity].
  destruct (spot_ticker E data); reflexivity.
Qed.

Lemma total_spot_attempts E url n attempt : total (spot_attempts E url n attempt).
Proof.
  revert attempt. induction n as [|n IH]; intros attempt; simpl.
  - apply total_ret.
  - apply total_try_except. intros e. total_auto.
Qed.

Lemma bind_sleep {A} site d (k : M A) w :
  (sleep site d ;; k) w =
  match k (advance d w) with
  | (r, w2, ev2) => (r, w2, EvSleep site d :: ev2)
  end.
Proof.
  unfold bind, sleep, emit, modify, bind. simpl.
  destruct (k (advance d w)) as [[r w2] ev2]. reflexivity.
Qed.

Lemma spot_attempts_run E url retries : forall attempt w,
  exists n,
    (n <= retries)%nat /\
    (forall k, (k < n)%nat -> is_raise (spot_outcome E url (requests w + k)) = true) /\
    events_of (spot_attempts E url retries attempt w)
      = (failed_rounds url attempt n
         ++ (if (n <? retries)%nat then [EvGet url] else []))%list /\
    result_of (spot_attempts E url retries attempt w)
      = (if (n <? retries)%nat then spot_outcome E url (requests w + n)
         else Ok (0%float, 0%float)) /\
    last_request_time (world_of (spot_attempts E url retries attempt w))
      = last_request_time w /\
    semaphore_held (world_of (spot_attempts E url retries attempt w))
      = semaphore_held w.
Proof.
  induction retries as [|r IH]; intros attempt w.
  - exists 0%nat. simpl. repeat split; try reflexivity; intros; lia.
  - simpl. unfold try_except. rewrite spot_attempt_run.
    destruct (spot_outcome E url (requests w)) as [pv|e] eqn:Hout.
    + exists 0%nat. simpl. rewrite Nat.add_0_r, Hout.
      repeat split; try reflexivity; intros; lia.
    + rewrite bind_sleep.
      destruct (IH (S attempt) (advance (backoff attempt) (bump_requests w)))
        as (n & Hn & Hfail & Hev & Hres & Hlast & Hsem).
      unfold events_of, result_of, world_of in *.
      destruct (spot_attempts E url r (S attempt)
                  (advance (backoff attempt) (bump_requests w)))
        as [[res w2] ev2]; simpl in *.
      exists (S n). repeat split.
      * lia.
      * intros k Hk. destruct k as [|k].
        -- rewrite Nat.add_0_r, Hout. reflexivity.
        -- replace (requests w + S k)%nat with (S (requests w + k)) by lia.
           apply Hfail. lia.
      * rewrite Hev. reflexivity.
      * rewrite Hres. replace (requests w + S n)%nat with (S (requests w + n)) by lia.
        reflexivity.
      * assumption.
      * assumption.
Qed.

Lemma with_semaphore_run {A} (body : M A) w :
  with_semaphore body w =
  match body (set_semaphore_held (S (semaphore_held w)) w) with
  | (r, w1, ev) => (r, set_semaphore_held (pred (semaphore_held w1)) w1, ev)
  end.
Proof.
  unfold with_semaphore, bind, finally, modify. simpl.
  destruct (body _) as [[r w1] ev]. simpl. rewrite app_nil_r. reflexivity.
Qed.

Lemma bind_rate_limit {A} (k : M A) w :
  (rate_limit ;; k) w =
  match k (granted w) with
  | (r, w2, ev2) => (r, w2, (rate_limit_events w ++ ev2)%list)
  end.
Proof. unfold bind. rewrite rate_limit_run. reflexivity. Qed.

Lemma attempt_events_rate_limit w : attempt_events (rate_limit_events w) = [].
Proof. unfold rate_limit_events. destruct (_ <? _)%float; reflexivity. Qed.

Lemma attempt_events_failed_rounds url n : forall attempt,
  attempt_events (failed_rounds url attempt n) = failed_rounds url attempt n.
Proof.
  induction n as [|n IH]; intros attempt; simpl; [reflexivity|].
  unfold attempt_events in *. rewrite IH. reflexivity.
Qed.

Lemma gets_failed_rounds url n : forall attempt,
  List.length (List.filter is_get (failed_rounds url attempt n)) = n.
Proof.
  induction n as [|n IH]; intros attempt; simpl; [reflexivity|].
  rewrite IH. reflexivity.
Qed.

Lemma total_fetch_spot_price E symbol retries : total (fetch_spot_price E symbol retries).
Proof.
  unfold fetch_spot_price. apply total_with_semaphore.
  apply total_bind; [apply total_rate_limit|intros _; apply total_spot_attempts].
Qed.

(** The sleeps after the first, the second and the third failed attempt. *)
Lemma failed_rounds_seconds url n :
  (n <= 3)%nat ->
  failed_rounds url 0 n
  = take (2 * n) [EvGet url; EvSleep SpotBackoff 1.5;
                  EvGet url; EvSleep SpotBackoff 3;
                  EvGet url; EvSleep SpotBackoff 4.5].
Proof.
  assert (H0 : backoff 0 = 1.5%float) by reflexivity.
  assert (H1 : backoff 1 = 3%float) by reflexivity.
  assert (H2 : backoff 2 = 4.5%float) by reflexivity.
  intros Hn. destruct n as [|[|[|[|n]]]]; try lia; cbn [failed_rounds];
    rewrite ?H0, ?H1, ?H2; reflexivity.
Qed.

(** C8.  [fetch_spot_price] issues at most three requests.  For some
    [n <= 3], the first [n] attempts fail, each followed by a sleep of
    [1.5 * attemptNumber] seconds: 1.5 seconds after the first, 3 after the
    second and 4.5 after the third; if [n < 3] the next attempt succeeds and
    its price and volume are returned, otherwise the result is [(0, 0)].
    No exception reaches the caller. *)
Theorem fetch_spot_price_retries E symbol w :
  let run := fetch_spot_price E symbol 3 w in
  let url := spot_url symbol in
  exists n,
    (n <= 3)%nat /\
    (forall k, (k < n)%nat -> is_raise (spot_outcome E url (requests w + k)) = true) /\
    attempt_events (events_of run)
      = (failed_rounds url 0 n ++ (if (n <? 3)%nat then [EvGet url] else []))%list /\
    attempt_events (events_of run)
      = (take (2 * n) [EvGet url; EvSleep SpotBackoff 1.5;
                       EvGet url; EvSleep SpotBackoff 3;
                       EvGet url; EvSleep SpotBackoff 4.5]
         ++ (if (n <? 3)%nat then [EvGet url] else []))%list /\
    (List.length (List.filter is_get (events_of run)) <= 3)%nat /\
    result_of run
      = (if (n <? 3)%nat then spot_outcome E url (requests w + n)
         else Ok (0%float, 0%float)) /\
    (exists pv, result_of run = Ok pv) /\
    ((forall k, (k < 3)%nat -> is_raise (spot_outcome E url (requests w + k)) = true) ->
     result_of run = Ok (0%float, 0%float)).
Proof.
  intros run url. subst url.
  destruct (total_fetch_spot_price E symbol 3 w) as [pv Hpv]. fold run in Hpv.
  subst run. unfold fetch_spot_price in *.
  rewrite with_semaphore_run, bind_rate_limit in *.
  set (w1 := granted (set_semaphore_held (S (semaphore_held w)) w)) in *.
  destruct (spot_attempts_run E (spot_url symbol) 3 0 w1)
    as (n & Hn & Hfail & Hev & Hres & _ & _).
  unfold events_of, result_of in *.
  destruct (spot_attempts E (spot_url symbol) 3 0 w1) as [[res w2] ev2].
  simpl in *. subst res ev2.
  exists n. split; [exact Hn|]. split; [exact Hfail|].
  assert (Hatt : forall l, attempt_events
            (rate_limit_events (set_semaphore_held (S (semaphore_held w)) w) ++ l)
          = attempt_events l).
  { intros l. unfold attempt_events. rewrite List.filter_app.
    fold (attempt_events (rate_limit_events (set_semaphore_held (S (semaphore_held w)) w))).
    rewrite attempt_events_rate_limit. reflexivity. }
  assert (Hrounds : attempt_events
            (rate_limit_events (set_semaphore_held (S (semaphore_held w)) w)
             ++ failed_rounds (spot_url symbol) 0 n
             ++ (if (n <? 3)%nat then [EvGet (spot_url symbol)] else []))
          = (failed_rounds (spot_url symbol) 0 n
             ++ (if (n <? 3)%nat then [EvGet (spot_url symbol)] else []))%list).
  { rewrite Hatt. unfold attempt_events. rewrite List.filter_app.
    fold (attempt_events (failed_rounds (spot_url symbol) 0 n)).
    rewrite attempt_events_failed_rounds. destruct (n <? 3)%nat; reflexivity. }
  split; [exact Hrounds|].
  split; [rewrite Hrounds, (failed_rounds_seconds _ n Hn); reflexivity|].
  split; [|split; [|split]].
  - rewrite !List.filter_app, !List.length_app, gets_failed_rounds.
    unfold rate_limit_events. destruct (_ <? _)%float; simpl;
      destruct (n <? 3)%nat eqn:Hlt; simpl;
      try apply Nat.ltb_lt in Hlt; lia.
  - exact Hres.
  - eauto.
  - intros Hall. destruct (n <? 3)%nat eqn:Hlt; [|exact Hres].
    apply Nat.ltb_lt in Hlt. specialize (Hall n Hlt).
    rewrite <- Hres in Hall. discriminate.
Qed.

(** The property with every request failing: the three attempts are used up
    and the sentinel comes back. *)
Lemma fetch_spot_price_retries_witness :
  result_of (fetch_spot_price Scenario.down "BTCUSDT" 3 Scenario.w0)
  = Ok (0%float, 0%float).
Proof.
  destruct (fetch_spot_price_retries Scenario.down "BTCUSDT" Scenario.w0)
    as (n & _ & _ & _ & _ & _ & _ & _ & Hall).
  apply Hall. intros k _. reflexivity.
Defined.

(** The values of the back-off and of the two tier intervals. *)
Example sleep_durations :
  backoff 0 = 1.5%float /\ backoff 1 = 3%float /\ backoff 2 = 4.5%float /\
  Py.float_of_Z Config.CHECK_INTERVAL_FAST = 30%float /\
  Py.float_of_Z Config.CHECK_INTERVAL_SLOW = 120%float /\
  min_interval = 0.05%float.
Proof. repeat split; reflexivity. Qed.

(** The three failed attempts of that run, with their sleeps of 1.5, 3 and
    4.5 seconds. *)
Example fetch_spot_price_unreachable :
  attempt_events (events_of (fetch_spot_price Scenario.down "BTCUSDT" 3 Scenario.w0))
  = [EvGet (spot_url "BTCUSDT"); EvSleep SpotBackoff 1.5;
     EvGet (spot_url "BTCUSDT"); EvSleep SpotBackoff 3;
     EvGet (spot_url "BTCUSDT"); EvSleep SpotBackoff 4.5].
Proof. vm_compute. reflexivity. Qed.

(** ** PriceFetcher: the derivative leg *)

Lemma total_futures_attempts E url n : forall attempt,
  total (futures_attempts E url n attempt).
Proof.
  induction n as [|n IH]; intros attempt; simpl.
  - apply total_ret.
  - apply total_bind.
    + apply total_try_except. intros e. total_auto.
    + intros [price|]; [apply total_ret|apply IH].
Qed.

Lemma total_fetch_futures_price E symbol retries :
  total (fetch_futures_price E symbol retries).
Proof.
  unfold fetch_futures_price. apply total_with_semaphore.
  apply total_bind; [apply total_rate_limit|intros _; apply total_futures_attempts].
Qed.

(** [fetch_data_for_pair] returns what [evaluate] makes of the two fetched
    prices; neither fetch raises, so its [except] branch is not taken. *)
Lemma fetch_data_for_pair_evaluates E spot_sym fut_sym w :
  let spot_run := fetch_spot_price E spot_sym 3 w in
  let futures_run := fetch_futures_price E fut_sym 3 (world_of spot_run) in
  exists spot_price volume futures_price,
    result_of spot_run = Ok (spot_price, volume) /\
    result_of futures_run = Ok futures_price /\
    result_of (fetch_data_for_pair E spot_sym fut_sym w)
    = Ok (evaluate spot_sym fut_sym spot_price volume futures_price
            (clock (world_of futures_run))).
Proof.
  intros spot_run futures_run. subst spot_run futures_run.
  unfold fetch_data_for_pair, try_except, bind, result_of, world_of.
  destruct (total_fetch_spot_price E spot_sym 3 w) as [[p v] Hs].
  unfold result_of in Hs.
  destruct (fetch_spot_price E spot_sym 3 w) as [[r w1] ev1]. simpl in *. subst r.
  destruct (total_fetch_futures_price E fut_sym 3 w1) as [f Hf].
  unfold result_of in Hf.
  destruct (fetch_futures_price E fut_sym 3 w1) as [[r w2] ev2]. simpl in *. subst r.
  exists p, v, f. repeat split.
Qed.

(** ** RateLimiter: one limiter for both upstreams *)

#[export] Instance limiter_kept_invariant : Invariant limiter_kept.
Proof.
  split.
  - intros w. split; reflexivity.
  - intros w1 w2 w3 e1 e2 [H1 H2] [H3 H4]. split; congruence.
Qed.

Lemma limiter_kept_sleep site d : respects limiter_kept (sleep site d).
Proof. intros w. split; reflexivity. Qed.

Lemma limiter_kept_http_get E url : respects limiter_kept (http_get E url).
Proof. intros w. split; reflexivity. Qed.

#[export] Hint Resolve limiter_kept_sleep limiter_kept_http_get : respects.






(** ** Persistence *)






(** The dictionary the scanner hands over has neither the key ["symbol"]
    nor the key ["volume"]: [save_signal] answers [False] and stores
    nothing. *)
Lemma save_signal_scanner_dict E s w :
  save_signal E (ArgValue (signal_dict s)) w = (Ok false, w, []).
Proof. reflexivity. Qed.

(** A well-formed input is stored; a failure of the driver is turned into
    [False]; and an instance with an empty field is refused by a driver that
    enforces [NOT NULL], which gives [False] as well. *)
Example save_signal_stores :
  let sig := ArgSignal (mkArbitrageSignal (PStr "BTCUSDT") (PFloat 50000)
                          (PFloat 50250) (PFloat 0.5) (PFloat 1500000)) in
  let empty := ArgSignal (mkArbitrageSignal PNone (PFloat 50000)
                            (PFloat 50250) (PFloat 0.5) (PFloat 1500000)) in
  let failing := mkEnv Scenario.parse Scenario.answers (fun _ _ => Raise SqliteError)
                   None [] None in
  let strict := mkEnv Scenario.parse Scenario.answers Scenario.strict_driver
                  None [] None in
  (exists r, save_signal Scenario.live sig Scenario.w0
             = (Ok true, set_arbitrage_signals [r] Scenario.w0, [])) /\
  save_signal failing sig Scenario.w0 = (Ok false, Scenario.w0, []) /\
  (exists r, save_signal strict sig Scenario.w0
             = (Ok true, set_arbitrage_signals [r] Scenario.w0, [])) /\
  save_signal strict empty Scenario.w0 = (Ok false, Scenario.w0, []).
Proof. repeat split; try eexists; reflexivity. Qed.

(** ** NotificationFanout *)

Lemma deliveries_app e1 e2 :
  deliveries (e1 ++ e2) = (deliveries e1 ++ deliveries e2)%list.
Proof. apply omap_app. Qed.

Lemma int_of_float_finite f :
  Py.is_finite f = true -> exists z, Py.int_of_float f = Ok z.
Proof.
  unfold Py.is_finite, Py.int_of_float.
  destruct (Prim2SF f); try discriminate; eauto.
Qed.

Lemma is_finite_mul_l x y :
  Py.is_finite (x * y)%float = true -> Py.is_finite x = true.
Proof.
  unfold Py.is_finite. rewrite mul_spec. unfold SF64mul, SFmul.
  destruct (Prim2SF x), (Prim2SF y); simpl; congruence.
Qed.

(** The message can be built as soon as [spread * RISK_MULTIPLIER] is a
    finite number. *)
Lemma create_signal_message_finite s :
  Py.is_finite (spread_percent s * Py.float_of_Z Config.RISK_MULTIPLIER)%float = true ->
  exists text, create_signal_message s = Ok text.
Proof.
  intros H. unfold create_signal_message, get_risk_management, rbind.
  destruct (int_of_float_finite _ H) as [l ->].
  destruct (int_of_float_finite _ (is_finite_mul_l _ _ H)) as [n ->].
  eauto.
Qed.

(** One delivery: the send function is called once, and whatever it does the
    coroutine returns. *)
Lemma send_message_run E send text uid w :
  send_message_func E = Some send ->
  result_of (send_message E text uid w) = Ok tt /\
  deliveries (events_of (send_message E text uid w)) = [(uid, text)].
Proof.
  intros Hsend. unfold send_message, try_except, bind, emit, lift. rewrite Hsend.
  simpl. destruct (send uid text) as [[]|e]; simpl; [split; reflexivity|].
  destruct (is_timed_out e); simpl; split; reflexivity.
Qed.

Lemma send_message_none E text uid w :
  send_message_func E = None ->
  send_message E text uid w = (Ok tt, w, []).
Proof. intros Hsend. unfold send_message, try_except. rewrite Hsend. reflexivity. Qed.

Lemma gather_send_messages E send text subscribers : forall w,
  send_message_func E = Some send ->
  result_of (gather (map (send_message E text) subscribers) w) = Ok tt /\
  deliveries (events_of (gather (map (send_message E text) subscribers) w))
    = map (fun uid => (uid, text)) subscribers.
Proof.
  induction subscribers as [|uid rest IH]; intros w Hsend; simpl.
  - split; reflexivity.
  - destruct (send_message_run E send text uid w Hsend) as [Hr Hd].
    unfold result_of, events_of in *.
    destruct (send_message E text uid w) as [[r w1] ev1]. simpl in *. subst r.
    destruct (IH w1 Hsend) as [Hr' Hd'].
    destruct (gather (map (send_message E text) rest) w1) as [[r' w2] ev2].
    simpl in *. subst r'. split; [reflexivity|].
    rewrite deliveries_app, Hd, Hd'. reflexivity.
Qed.

Lemma gather_send_messages_none E text subscribers : forall w,
  send_message_func E = None ->
  gather (map (send_message E text) subscribers) w = (Ok tt, w, []).
Proof.
  induction subscribers as [|uid rest IH]; intros w Hsend; simpl; [reflexivity|].
  rewrite (send_message_none E text uid w Hsend), (IH w Hsend). reflexivity.
Qed.

(** C7, as the code has it.  With no subscriber the fan-out does nothing.
    When a send function was supplied and the spread times the risk
    multiplier is a finite number, the fan-out returns without raising, and
    the send function is called exactly once for each subscriber, in the order
    of the list, with the same message: whatever the deliveries do (succeed,
    time out, fail), none of them keeps another from being attempted.  When
    no send function was supplied, no delivery is attempted. *)
Theorem notify_subscribers_fanout E s w :
  (get_subscribers E = [] -> notify_subscribers E s w = (Ok tt, w, []))
  /\
  (forall send,
      send_message_func E = Some send ->
      Py.is_finite (spread_percent s * Py.float_of_Z Config.RISK_MULTIPLIER)%float = true ->
      exists text,
        create_signal_message s = Ok text /\
        result_of (notify_subscribers E s w) = Ok tt /\
        deliveries (events_of (notify_subscribers E s w))
          = map (fun uid => (uid, text)) (get_subscribers E))
  /\
  (send_message_func E = None ->
   deliveries (events_of (notify_subscribers E s w)) = []).
Proof.
  unfold notify_subscribers. split; [|split].
  - intros ->. reflexivity.
  - intros send Hsend Hfin.
    destruct (create_signal_message_finite s Hfin) as [text Htext].
    exists text. split; [exact Htext|].
    destruct (get_subscribers E) as [|uid rest]; [split; reflexivity|].
    unfold bind, lift. rewrite Htext.
    destruct (gather_send_messages E send text (uid :: rest) w Hsend) as [Hr Hd].
    unfold result_of, events_of in *.
    destruct (gather (map (send_message E text) (uid :: rest)) w) as [[r w1] ev1].
    simpl in *. split; assumption.
  - intros Hsend.
    destruct (get_subscribers E) as [|uid rest]; [reflexivity|].
    unfold bind, lift.
    destruct (create_signal_message s) as [text|e]; [|reflexivity].
    rewrite (gather_send_messages_none E text (uid :: rest) w Hsend). reflexivity.
Qed.

(** The property in the scenario: three subscribers, the second delivery
    timing out, and each of the three attempted once. *)
Lemma notify_subscribers_fanout_witness :
  let s := mkSignal "BTCUSDT" "BTC_USDT" 100 108 8 2000000 1000
             "Buy Spot / Sell Futures" in
  exists text,
    create_signal_message s = Ok text /\
    result_of (notify_subscribers Scenario.live s Scenario.w0) = Ok tt /\
    deliveries (events_of (notify_subscribers Scenario.live s Scenario.w0))
    = map (fun uid => (uid, text)) (get_subscribers Scenario.live).
Proof.
  intros s.
  apply (proj1 (proj2 (notify_subscribers_fanout Scenario.live s Scenario.w0))
           Scenario.send); reflexivity.
Defined.

(** C7, the claim as stated fails.  The scanner may run without a send
    function (its own entry point starts [main_loop] so): then, with three
    subscribers, no delivery is attempted. *)
Lemma notify_subscribers_without_send_function :
  let s := mkSignal "BTCUSDT" "BTC_USDT" 100 108 8 2000000 1000
             "Buy Spot / Sell Futures" in
  let run := notify_subscribers Scenario.without_send s Scenario.w0 in
  get_subscribers Scenario.without_send = [1; 2; 3]%Z /\
  result_of run = Ok tt /\
  deliveries (events_of run) = [].
Proof. repeat split; vm_compute; reflexivity. Qed.

(** A spread that overflowed to infinity (a spot price of 1e-300 against a
    derivative price of 1e10) passes both thresholds, and the fan-out raises
    [OverflowError] before any delivery. *)
Example notify_subscribers_infinite_spread :
  exists s,
    evaluate "BTCUSDT" "BTC_USDT" 1e-300 0 1e10 0 = Some s /\
    spread_percent s = infinity /\
    result_of (notify_subscribers Scenario.live s Scenario.w0) = Raise OverflowError /\
    deliveries (events_of (notify_subscribers Scenario.live s Scenario.w0)) = [].
Proof. eexists. split; [vm_compute; reflexivity|]. repeat split; vm_compute; reflexivity. Qed.

(** ** SymbolMatcher: discovery *)

Lemma get_futures_symbols_run E w :
  get_futures_symbols E w =
  (Ok (futures_symbols_of (http E futures_listing_url (requests w))), bump_requests w,
   [EvGet futures_listing_url]).
Proof.
  unfold get_futures_symbols, try_except, bind, http_get, lift, futures_symbols_of,
    bump_requests.
  destruct (http E futures_listing_url (requests w)) as [data|e]; simpl; [|reflexivity].
  destruct (Py.get data "data") as [d|e]; simpl; [|reflexivity].
  destruct d; reflexivity.
Qed.

Lemma get_top_symbol_pairs_run E limit w :
  get_top_symbol_pairs E limit w =
  (Ok (pairs_of E limit (futures_symbols_of (http E futures_listing_url (requests w)))),
   bump_requests w, [EvGet futures_listing_url]).
Proof.
  unfold get_top_symbol_pairs, bind, pairs_of. rewrite get_futures_symbols_run.
  destruct (futures_symbols_of _); reflexivity.
Qed.

(** C6.  When the derivative listing cannot be fetched, or comes without a
    list of symbols, [get_top_symbol_pairs] returns the empty list and raises
    nothing. *)
Theorem get_top_symbol_pairs_listing_failed E limit w :
  listing_failed (http E futures_listing_url (requests w)) ->
  result_of (get_top_symbol_pairs E limit w) = Ok [].
Proof.
  intros Hfail. rewrite get_top_symbol_pairs_run. unfold result_of. simpl.
  unfold pairs_of, futures_symbols_of, listing_failed in *.
  destruct (http E futures_listing_url (requests w)) as [data|e]; [|reflexivity].
  destruct (Py.get data "data") as [d|e]; [|reflexivity].
  destruct d; try reflexivity. contradiction.
Qed.

(** The property with every request failing. *)
Lemma get_top_symbol_pairs_listing_failed_witness :
  result_of (get_top_symbol_pairs Scenario.down 100 Scenario.w0) = Ok [].
Proof.
  apply (get_top_symbol_pairs_listing_failed Scenario.down 100 Scenario.w0).
  exact I.
Defined.

(** ** SymbolMatcher: pairing *)

Lemma match_spots_take limit (m : gmap string string) spot_symbols : forall filtered,
  (List.length filtered < limit)%nat ->
  match_spots limit m spot_symbols filtered
  = take limit (filtered ++ omap (paired m) spot_symbols)%list.
Proof.
  induction spot_symbols as [|s rest IH]; intros filtered Hlen; simpl.
  - rewrite app_nil_r, take_ge by lia. reflexivity.
  - unfold paired at 1.
    destruct (m !! normalize_symbol s "spot") as [f|] eqn:Hm; simpl.
    + rewrite length_app. simpl.
      destruct (limit <=? List.length filtered + 1)%nat eqn:Hle.
      * apply Nat.leb_le in Hle.
        change (filtered ++ [(s, f)]
                = take limit (filtered ++ ([(s, f)] ++ omap (paired m) rest)))%list.
        rewrite (app_assoc filtered). symmetry.
        apply (take_app_length' (filtered ++ [(s, f)])%list).
        rewrite length_app. simpl. lia.
      * apply Nat.leb_gt in Hle. rewrite IH by (rewrite length_app; simpl; lia).
        rewrite <- (app_assoc filtered). reflexivity.
    + apply IH, Hlen.
Qed.

Lemma paired_empty (l : list string) :
  omap (paired (∅ : gmap string string)) l = [].
Proof.
  induction l as [|s l IH]; [reflexivity|].
  change (omap (paired ∅) (s :: l))
    with (match paired ∅ s with
          | Some p => p :: omap (paired ∅) l
          | None => omap (paired ∅) l
          end).
  unfold paired at 1. rewrite lookup_empty. exact IH.
Qed.

Lemma pairs_of_take E limit raw :
  pairs_of E limit raw
  = take limit (omap (paired (futures_norm_map raw))
                  (omap spot_candidate (get_top_symbols E (limit * 3)))).
Proof.
  unfold pairs_of. destruct raw as [|v raw'].
  - change (futures_norm_map []) with (∅ : gmap string string).
    rewrite paired_empty, take_nil. reflexivity.
  - destruct limit as [|limit].
    + reflexivity.
    + rewrite match_spots_take by (simpl; lia). reflexivity.
Qed.

(** Every entry of the map comes from a string of the listing, under that
    string's canonical form. *)
Lemma futures_norm_map_lookup raw k f :
  futures_norm_map raw !! k = Some f ->
  PStr f ∈ raw /\ normalize_symbol f "futures" = k.
Proof.
  unfold futures_norm_map.
  assert (Hgen : forall (m0 : gmap string string),
    foldl (fun m f_sym =>
             match f_sym with
             | PStr f => <[normalize_symbol f "futures" := f]> m
             | _ => m
             end) m0 raw !! k = Some f ->
    m0 !! k = Some f \/ (PStr f ∈ raw /\ normalize_symbol f "futures" = k)).
  { induction raw as [|v raw IH]; intros m0 H; simpl in H; [left; exact H|].
    apply IH in H. destruct H as [H|[H1 H2]].
    - destruct v; try (left; exact H).
      destruct (decide (normalize_symbol s "futures" = k)) as [<-|Hne].
      + rewrite lookup_insert_eq in H. injection H as ->.
        right. split; [left|reflexivity].
      + rewrite lookup_insert_ne in H by exact Hne. left. exact H.
    - right. split; [right; exact H1|exact H2]. }
  intros H. apply Hgen in H. destruct H as [H|H]; [|exact H].
  rewrite lookup_empty in H. discriminate.
Qed.

Lemma spot_candidate_sublist l :
  (PStr <$> omap spot_candidate l) `sublist_of` l.
Proof.
  induction l as [|v l IH]; simpl; [constructor|].
  destruct v; simpl; try (apply sublist_cons; exact IH).
  destruct (PyStr.contains "TRUMP" s); simpl.
  - apply sublist_cons. exact IH.
  - apply sublist_skip. exact IH.
Qed.

Lemma paired_sublist (m : gmap string string) l :
  (omap (paired m) l).*1 `sublist_of` l.
Proof.
  induction l as [|s l IH]; simpl; [constructor|].
  unfold paired at 1. destruct (m !! normalize_symbol s "spot"); simpl.
  - apply sublist_skip. exact IH.
  - apply sublist_cons. exact IH.
Qed.

(** What holds of the pairing in general.  [get_top_symbol_pairs] returns
    the first [limit] ranked spot symbols that it pairs, in the order of the
    ranking: the spot symbols of the pairs are a subsequence of the ranking,
    there are at most [limit] pairs, and each pair joins a spot symbol of the
    ranking that does not contain the denied substring with a derivative
    symbol of the listing to which [normalize_symbol] gives the same form as
    to the spot symbol.  That form is the one the code computes, which for a
    spot symbol need not be its base: the spot branch deletes [USDT] and
    [USD] wherever they stand. *)
Lemma get_top_symbol_pairs_order E limit w :
  let raw := futures_symbols_of (http E futures_listing_url (requests w)) in
  let m := futures_norm_map raw in
  exists out,
    result_of (get_top_symbol_pairs E limit w) = Ok out /\
    out = take limit (omap (paired m)
                        (omap spot_candidate (get_top_symbols E (limit * 3)))) /\
    (PStr <$> out.*1) `sublist_of` top_symbols E /\
    (List.length out <= limit)%nat /\
    (forall spot_sym f_sym,
        (spot_sym, f_sym) ∈ out ->
        PStr spot_sym ∈ top_symbols E /\
        PyStr.contains "TRUMP" spot_sym = false /\
        PStr f_sym ∈ raw /\
        m !! normalize_symbol spot_sym "spot" = Some f_sym /\
        normalize_symbol f_sym "futures" = normalize_symbol spot_sym "spot").
Proof.
  intros raw m. rewrite get_top_symbol_pairs_run. fold raw.
  eexists. split; [reflexivity|]. rewrite pairs_of_take. fold m.
  set (cands := omap spot_candidate (get_top_symbols E (limit * 3))).
  split; [reflexivity|]. split; [|split].
  - transitivity (PStr <$> cands).
    + apply fmap_sublist. rewrite fmap_take.
      transitivity ((omap (paired m) cands).*1);
        [apply sublist_take|apply paired_sublist].
    + transitivity (get_top_symbols E (limit * 3));
        [apply spot_candidate_sublist|apply sublist_take].
  - rewrite length_take. lia.
  - intros s f Hin.
    apply elem_of_take in Hin as (i & Hi & _).
    apply list_elem_of_lookup_2 in Hi.
    apply list_elem_of_omap in Hi as (s' & Hs' & Hp).
    unfold paired in Hp.
    destruct (m !! normalize_symbol s' "spot") as [f'|] eqn:Hm; [|discriminate].
    simpl in Hp. injection Hp as -> ->.
    apply list_elem_of_omap in Hs' as (v & Hv & Hc).
    destruct v; try discriminate. simpl in Hc.
    destruct (PyStr.contains "TRUMP" s0) eqn:Htrump; [discriminate|].
    injection Hc as ->.
    destruct (futures_norm_map_lookup raw _ _ Hm) as [Hraw Hnorm].
    repeat split; try assumption.
    unfold get_top_symbols in Hv. apply elem_of_take in Hv as (j & Hj & _).
    eapply list_elem_of_lookup_2, Hj.
Qed.

(** C5, at symbols the scanner can meet.  The order of the ranking and the
    limit are kept, but which symbols are paired goes by the forms
    [normalize_symbol] computes, and the form of the spot symbol USDCUSDT is
    C, not its base USDC.  With only C_USDT listed, USDCUSDT is emitted,
    paired with C_USDT, although no derivative symbol of the base USDC is
    listed.  With both C_USDT and USDC_USDT listed, USDCUSDT is paired with
    C_USDT, a contract on another asset.  With only USDC_USDT listed, its
    counterpart, nothing is emitted. *)
Theorem get_top_symbol_pairs_pairs_other_asset :
  let listing symbols :=
    PDict [("data", PList (map (fun f => PDict [("symbol", PStr f)]) symbols))] in
  let E symbols := mkEnv Scenario.parse (fun _ _ => Ok (listing symbols)) Scenario.driver
                     None [PStr "USDCUSDT"] None in
  (forall E limit w, exists out,
      result_of (get_top_symbol_pairs E limit w) = Ok out /\
      (PStr <$> out.*1) `sublist_of` top_symbols E /\
      (List.length out <= limit)%nat) /\
  normalize_symbol "USDCUSDT" "spot" = "C" /\
  normalize_symbol "C_USDT" "futures" = "C" /\
  normalize_symbol "USDC_USDT" "futures" = "USDC" /\
  result_of (get_top_symbol_pairs (E ["C_USDT"]) 100 Scenario.w0)
  = Ok [("USDCUSDT", "C_USDT")] /\
  result_of (get_top_symbol_pairs (E ["C_USDT"; "USDC_USDT"]) 100 Scenario.w0)
  = Ok [("USDCUSDT", "C_USDT")] /\
  result_of (get_top_symbol_pairs (E ["USDC_USDT"]) 100 Scenario.w0) = Ok [].
Proof.
  split.
  - intros E limit w.
    destruct (get_top_symbol_pairs_order E limit w) as (out & Hout & _ & Hsub & Hlen & _).
    exists out. auto.
  - repeat split; vm_compute; reflexivity.
Qed.

(** The consequence for pairing of the way spot symbols are normalised: the
    spot symbol USDCUSDT is not paired with the derivative symbol
    USDC_USDT. *)
Example get_top_symbol_pairs_usdc :
  let listing := PDict [("data", PList [PDict [("symbol", PStr "USDC_USDT")]])] in
  let E := mkEnv Scenario.parse (fun _ _ => Ok listing) Scenario.driver None
             [PStr "USDCUSDT"] None in
  result_of (get_top_symbol_pairs E 100 Scenario.w0) = Ok [].
Proof. vm_compute. reflexivity. Qed.

(** The scenario of the specification for pairing: of the ranking A, B, C
    only A and C have a derivative counterpart. *)
Example get_top_symbol_pairs_scenario :
  let listing := PDict [("data", PList [PDict [("symbol", PStr "C_USDT")];
                                        PDict [("symbol", PStr "A_USDT")]])] in
  let E := mkEnv Scenario.parse (fun _ _ => Ok listing) Scenario.driver None
             [PStr "AUSDT"; PStr "BUSDT"; PStr "CUSDT"] None in
  result_of (get_top_symbol_pairs E 100 Scenario.w0)
  = Ok [("AUSDT", "A_USDT"); ("CUSDT", "C_USDT")].
Proof. vm_compute. reflexivity. Qed.

(** ** ScanScheduler *)

#[export] Instance no_tier_sleep_invariant : Invariant no_tier_sleep.
Proof.
  split.
  - intros w. reflexivity.
  - intros w1 w2 w3 e1 e2 H1 H2. unfold no_tier_sleep, tier_sleeps in *.
    rewrite List.filter_app, H1, H2. reflexivity.
Qed.

Lemma no_tier_sleep_sleep site d :
  is_tier_sleep (EvSleep site d) = false -> respects no_tier_sleep (sleep site d).
Proof.
  intros H w. unfold no_tier_sleep, tier_sleeps. simpl in *. rewrite H. reflexivity.
Qed.

Lemma no_tier_sleep_http_get E url : respects no_tier_sleep (http_get E url).
Proof. intros w. reflexivity. Qed.

Lemma no_tier_sleep_modify f : respects no_tier_sleep (modify f).
Proof. intros w. reflexivity. Qed.

Lemma no_tier_sleep_emit_send uid text : respects no_tier_sleep (emit (EvSend uid text)).
Proof. intros w. reflexivity. Qed.

Lemma no_tier_sleep_rate_limit : respects no_tier_sleep rate_limit.
Proof.
  intros w. rewrite rate_limit_run. unfold no_tier_sleep, events_of, rate_limit_events.
  simpl. destruct (_ <? _)%float; reflexivity.
Qed.

Lemma no_tier_sleep_insert_row E r : respects no_tier_sleep (insert_row E r).
Proof.
  intros w. unfold insert_row.
  destruct (db_insert E r (arbitrage_signals w)); reflexivity.
Qed.

#[export] Hint Resolve no_tier_sleep_http_get no_tier_sleep_modify
  no_tier_sleep_emit_send no_tier_sleep_rate_limit no_tier_sleep_insert_row : respects.
#[export] Hint Extern 1 (respects no_tier_sleep (sleep _ _)) =>
  apply no_tier_sleep_sleep; reflexivity : respects.

Lemma no_tier_sleep_spot_attempts E url n : forall attempt,
  respects no_tier_sleep (spot_attempts E url n attempt).
Proof.
  induction n as [|n IH]; intros attempt; simpl.
  - respects_auto.
  - unfold spot_attempt. respects_auto.
Qed.

Lemma no_tier_sleep_futures_attempts E url n : forall attempt,
  respects no_tier_sleep (futures_attempts E url n attempt).
Proof.
  induction n as [|n IH]; intros attempt; simpl.
  - respects_auto.
  - unfold futures_attempt. respects_auto.
Qed.

#[export] Hint Resolve no_tier_sleep_spot_attempts no_tier_sleep_futures_attempts : respects.

Lemma no_tier_sleep_fetch_data_for_pair E spot_sym fut_sym :
  respects no_tier_sleep (fetch_data_for_pair E spot_sym fut_sym).
Proof.
  unfold fetch_data_for_pair, fetch_spot_price, fetch_futures_price, with_semaphore.
  respects_auto.
Qed.

Lemma no_tier_sleep_save_signal E sig : respects no_tier_sleep (save_signal E sig).
Proof. unfold save_signal. respects_auto. Qed.

Lemma no_tier_sleep_notify_subscribers E s :
  respects no_tier_sleep (notify_subscribers E s).
Proof.
  unfold notify_subscribers.
  destruct (get_subscribers E) as [|uid rest]; [respects_auto|].
  apply respects_bind; [exact _|respects_auto|intros text].
  apply respects_gather; [exact _|].
  apply Forall_forall. intros t Ht. apply list_elem_of_fmap in Ht as (u & -> & _).
  unfold send_message. respects_auto.
Qed.

#[export] Hint Resolve no_tier_sleep_fetch_data_for_pair no_tier_sleep_save_signal
  no_tier_sleep_notify_subscribers : respects.

Lemma no_tier_sleep_process_and_notify E pairs :
  respects no_tier_sleep (process_and_notify E pairs).
Proof.
  induction pairs as [|[spot_sym fut_sym] rest IH]; simpl; respects_auto.
Qed.

(** A tier's scan, shielded by its [try]/[except], returns and emits no tier
    sleep. *)
Lemma scan_tier_run E tier w :
  exists w1 evs,
    try_except (process_and_notify E tier) (fun _ => ret tt) w = (Ok tt, w1, evs) /\
    tier_sleeps evs = [].
Proof.
  assert (Ht : total (try_except (process_and_notify E tier) (fun _ => ret tt))).
  { apply total_try_except. intros e. apply total_ret. }
  assert (Hq : respects no_tier_sleep
                 (try_except (process_and_notify E tier) (fun _ => ret tt))).
  { apply respects_try_except; [exact _| |intros e; respects_auto].
    apply no_tier_sleep_process_and_notify. }
  destruct (Ht w) as [[] Hr]. specialize (Hq w).
  unfold result_of, no_tier_sleep, events_of in *.
  destruct (try_except _ _ w) as [[r w1] evs]. simpl in *. subst r. eauto.
Qed.

(** One tier of an iteration: nothing at all for an empty tier, else the
    scan and then the sleep. *)
Lemma tier_step_run E site d tier w :
  exists w1 scan,
    (if nonempty tier
     then try_except (process_and_notify E tier) (fun _ => ret tt) ;; sleep site d
     else ret tt) w
    = (Ok tt, w1, if nonempty tier then (scan ++ [EvSleep site d])%list else []) /\
    tier_sleeps scan = [] /\
    (tier = [] -> w1 = w).
Proof.
  destruct tier as [|p tier].
  - exists w, []. repeat split.
  - change (nonempty (p :: tier)) with true. cbv iota.
    destruct (scan_tier_run E (p :: tier) w) as (w1 & scan & Hrun & Hq).
    exists (advance d w1), scan. unfold bind. rewrite Hrun.
    repeat split; [exact Hq|discriminate].
Qed.

(** The refresh at the head of an iteration. *)
Lemma refresh_step_run E st now w :
  exists st1 w1 evs,
    (if (Py.float_of_Z Config.PAIRS_UPDATE_INTERVAL <? now - last_pairs_update st)%float
        || negb (nonempty (pairs st))
     then let* ps := get_top_symbol_pairs E Config.TOP_VOLUME_LIMIT in
          ret (mkLoop now ps)
     else ret st) w
    = (Ok st1, w1, evs) /\
    tier_sleeps evs = [] /\
    clock w1 = clock w /\
    (pairs st1 = [] -> evs = [EvGet futures_listing_url]).
Proof.
  destruct (_ || _) eqn:Hcond.
  - unfold bind. rewrite get_top_symbol_pairs_run. simpl.
    do 3 eexists. repeat split.
  - exists st, w, []. repeat split.
    apply orb_false_elim in Hcond as [_ Hne]. intros Hnil.
    rewrite Hnil in Hne. discriminate.
Qed.

Lemma main_loop_iteration_run E st w :
  exists st' w' refresh scan_fast scan_slow,
    main_loop_iteration E st w =
      (Ok st', w',
       (refresh
        ++ (if nonempty (take 50 (pairs st'))
            then scan_fast
                 ++ [EvSleep FastInterval (Py.float_of_Z Config.CHECK_INTERVAL_FAST)]
            else [])
        ++ (if nonempty (drop 50 (pairs st'))
            then scan_slow
                 ++ [EvSleep SlowInterval (Py.float_of_Z Config.CHECK_INTERVAL_SLOW)]
            else []))%list) /\
    tier_sleeps refresh = [] /\
    tier_sleeps scan_fast = [] /\
    tier_sleeps scan_slow = [] /\
    (pairs st' = [] -> clock w' = clock w /\ refresh = [EvGet futures_listing_url]).
Proof.
  unfold main_loop_iteration.
  unfold bind at 1. unfold time at 1.
  unfold bind at 1.
  destruct (refresh_step_run E st (clock w) w)
    as (st1 & w1 & refresh & -> & Hq & Hclock & Hnil).
  unfold bind at 1.
  destruct (tier_step_run E FastInterval (Py.float_of_Z Config.CHECK_INTERVAL_FAST)
              (take 50 (pairs st1)) w1) as (w2 & scan_fast & -> & Hqf & Hwf).
  unfold bind at 1.
  destruct (tier_step_run E SlowInterval (Py.float_of_Z Config.CHECK_INTERVAL_SLOW)
              (drop 50 (pairs st1)) w2) as (w3 & scan_slow & -> & Hqs & Hws).
  exists st1, w3, refresh, scan_fast, scan_slow.
  unfold ret. rewrite app_nil_r. simpl.
  split; [reflexivity|]. do 3 (split; [assumption|]).
  intros Hp. split; [|exact (Hnil Hp)].
  rewrite Hp in Hwf, Hws. simpl in *.
  rewrite (Hws eq_refl), (Hwf eq_refl). exact Hclock.
Qed.



(** ** Processing core: what reaches the table *)

#[export] Instance table_kept_invariant : Invariant table_kept.
Proof.
  split.
  - intros w. reflexivity.
  - intros w1 w2 w3 e1 e2 H1 H2. unfold table_kept in *. congruence.
Qed.

Lemma table_kept_sleep site d : respects table_kept (sleep site d).
Proof. intros w. reflexivity. Qed.

Lemma table_kept_http_get E url : respects table_kept (http_get E url).
Proof. intros w. reflexivity. Qed.

Lemma table_kept_emit ev : respects table_kept (emit ev).
Proof. intros w. reflexivity. Qed.

Lemma table_kept_rate_limit : respects table_kept rate_limit.
Proof. intros w. rewrite rate_limit_run. reflexivity. Qed.

Lemma table_kept_with_semaphore {A} (body : M A) :
  respects table_kept body -> respects table_kept (with_semaphore body).
Proof.
  intros H w. rewrite with_semaphore_run.
  specialize (H (set_semaphore_held (S (semaphore_held w)) w)).
  unfold table_kept, world_of in *.
  destruct (body _) as [[r w1] ev]. simpl in *. exact H.
Qed.

Lemma table_kept_save_scanner_dict E s :
  respects table_kept (save_signal E (ArgValue (signal_dict s))).
Proof. intros w. rewrite save_signal_scanner_dict. reflexivity. Qed.

#[export] Hint Resolve table_kept_sleep table_kept_http_get table_kept_emit
  table_kept_rate_limit table_kept_save_scanner_dict : respects.

Lemma table_kept_spot_attempts E url n : forall attempt,
  respects table_kept (spot_attempts E url n attempt).
Proof.
  induction n as [|n IH]; intros attempt; simpl.
  - respects_auto.
  - unfold spot_attempt. respects_auto.
Qed.

Lemma table_kept_futures_attempts E url n : forall attempt,
  respects table_kept (futures_attempts E url n attempt).
Proof.
  induction n as [|n IH]; intros attempt; simpl.
  - respects_auto.
  - unfold futures_attempt. respects_auto.
Qed.

#[export] Hint Resolve table_kept_spot_attempts table_kept_futures_attempts : respects.

Lemma table_kept_fetch_data_for_pair E spot_sym fut_sym :
  respects table_kept (fetch_data_for_pair E spot_sym fut_sym).
Proof.
  unfold fetch_data_for_pair, fetch_spot_price, fetch_futures_price.
  apply respects_try_except; [exact _| |intros e; respects_auto].
  apply respects_bind; [exact _| |intros spot].
  { apply table_kept_with_semaphore. respects_auto. }
  apply respects_bind; [exact _| |intros futures_price; respects_auto].
  apply table_kept_with_semaphore. respects_auto.
Qed.

Lemma table_kept_notify_subscribers E s :
  respects table_kept (notify_subscribers E s).
Proof.
  unfold notify_subscribers.
  destruct (get_subscribers E) as [|uid rest]; [respects_auto|].
  apply respects_bind; [exact _|respects_auto|intros text].
  apply respects_gather; [exact _|].
  apply Forall_forall. intros t Ht. apply list_elem_of_fmap in Ht as (u & -> & _).
  unfold send_message. respects_auto.
Qed.

#[export] Hint Resolve table_kept_fetch_data_for_pair table_kept_notify_subscribers
  : respects.

(** Whatever the upstream answers and whatever the database driver would do,
    a scan leaves the table [arbitrage_signals] as it found it. *)
Lemma process_and_notify_keeps_table E pairs w :
  arbitrage_signals (world_of (process_and_notify E pairs w)) = arbitrage_signals w.
Proof.
  revert w. change (respects table_kept (process_and_notify E pairs)).
  induction pairs as [|[spot_sym fut_sym] rest IH]; simpl; respects_auto.
Qed.

(** C1, at a pair the code can meet.  The fetch of BTCUSDT / BTC_USDT yields
    a signal with a spread of 8 per cent, above both thresholds, and the
    database driver would accept the row; yet [save_signal] answers [False]
    for the dictionary of that signal, and after the scan the table is still
    empty, while the three subscribers have been notified. *)
Theorem process_and_notify_does_not_persist :
  let E := Scenario.live in
  let w := Scenario.w0 in
  let run := process_and_notify E [("BTCUSDT", "BTC_USDT")] w in
  exists s,
    result_of (fetch_data_for_pair E "BTCUSDT" "BTC_USDT" w) = Ok (Some s) /\
    spread_percent s = 8%float /\
    (Config.THRESHOLD_PERCENT <=? spread_percent s)%float = true /\
    (Config.THRESHOLD_NOTIFY_PERCENT <=? spread_percent s)%float = true /\
    (forall r, db_insert E r (arbitrage_signals w) = Ok [r]) /\
    result_of (save_signal E (ArgValue (signal_dict s)) w) = Ok false /\
    result_of run = Ok tt /\
    arbitrage_signals (world_of run) = [] /\
    (deliveries (events_of run)).*1 = [1; 2; 3]%Z.
Proof.
  eexists. split; [vm_compute; reflexivity|].
  repeat split; vm_compute; reflexivity.
Qed.

(* ===================================================================== *)
(** * Part III: further properties of the code *)
(* ===================================================================== *)

(** ** Order and sign of binary64 numbers *)

Module FloatOrder.

Local Open Scope float_scope.

(** Two positive finite numbers compare by exponent, then by mantissa. *)
Lemma SFleb_finite m e m' e' :
  SFleb (S754_finite false m e) (S754_finite false m' e') = true
  <-> (e < e')%Z \/ (e = e' /\ (m <= m')%positive).
Proof.
  unfold SFleb, SFcompare.
  change (IntDef.Z.compare e e') with (Z.compare e e').
  change (PosDef.Pos.compare_cont Eq m m') with (Pos.compare m m').
  destruct (Z.compare_spec e e') as [He|He|He].
  - subst e'. unfold Pos.le.
    destruct (Pos.compare m m') eqn:Hc; split; intros H;
      try discriminate; try (right; split; [reflexivity|congruence]);
      try reflexivity; destruct H as [H|[_ H]]; try lia; congruence.
  - split; [intros _; left; exact He|reflexivity].
  - split; [discriminate|intros [H|[H _]]; lia].
Qed.

Lemma SFltb_finite m e m' e' :
  SFltb (S754_finite false m e) (S754_finite false m' e') = true
  <-> (e < e')%Z \/ (e = e' /\ (m < m')%positive).
Proof.
  unfold SFltb, SFcompare.
  change (IntDef.Z.compare e e') with (Z.compare e e').
  change (PosDef.Pos.compare_cont Eq m m') with (Pos.compare m m').
  destruct (Z.compare_spec e e') as [He|He|He].
  - subst e'. unfold Pos.lt.
    destruct (Pos.compare m m') eqn:Hc; split; intros H;
      try discriminate; try (right; split; [reflexivity|congruence]);
      try reflexivity; destruct H as [H|[_ H]]; try lia; congruence.
  - split; [intros _; left; exact He|reflexivity].
  - split; [discriminate|intros [H|[H _]]; lia].
Qed.

(** A positive finite bound passed by [a] is passed by everything above
    [a]. *)
Lemma SFleb_trans m e a b :
  SFleb (S754_finite false m e) a = true -> SFleb a b = true ->
  SFleb (S754_finite false m e) b = true.
Proof.
  destruct a as [[]|[]| |[] ma ea], b as [[]|[]| |[] mb eb];
    try (intros; reflexivity); try (intros; discriminate);
    try (intros _ H; discriminate H); try (intros H _; discriminate H).
  rewrite !SFleb_finite. intros H1 H2. lia.
Qed.

Lemma SFltb_leb_trans m e a b :
  SFltb (S754_finite false m e) a = true -> SFleb a b = true ->
  SFltb (S754_finite false m e) b = true.
Proof.
  destruct a as [[]|[]| |[] ma ea], b as [[]|[]| |[] mb eb];
    try (intros; reflexivity); try (intros; discriminate);
    try (intros _ H; discriminate H); try (intros H _; discriminate H).
  rewrite !SFltb_finite, SFleb_finite. intros H1 H2. lia.
Qed.

(** The same for the floats of the code, with the bound a positive finite
    constant. *)
Lemma leb_trans c a b m e :
  Prim2SF c = S754_finite false m e ->
  (c <=? a) = true -> (a <=? b) = true -> (c <=? b) = true.
Proof. rewrite !leb_spec. intros ->. apply SFleb_trans. Qed.

Lemma ltb_leb_trans c a b m e :
  Prim2SF c = S754_finite false m e ->
  (c <? a) = true -> (a <=? b) = true -> (c <? b) = true.
Proof. rewrite !ltb_spec, leb_spec. intros ->. apply SFltb_leb_trans. Qed.

(** [a < b] gives [a <= b]. *)
Lemma ltb_leb a b : (a <? b) = true -> (a <=? b) = true.
Proof.
  rewrite ltb_spec, leb_spec. unfold SFltb, SFleb.
  destruct (SFcompare _ _) as [[]|]; congruence.
Qed.

(** The product of a number whose sign bit is clear and a positive finite
    constant has its sign bit clear. *)
Lemma sign_clear_round m e l :
  match binary_round_aux prec emax false m e l with
  | S754_nan => true
  | S754_zero s | S754_infinity s | S754_finite s _ _ => negb s
  end = true.
Proof.
  rewrite <- (FloatFacts.binary_round_aux_abs false m e l).
  destruct (binary_round_aux prec emax false m e l) as [s|s| |s m' e']; reflexivity.
Qed.

Lemma sign_clear_mul x c m e :
  Prim2SF c = S754_finite false m e ->
  sign_clear x = true -> sign_clear (x * c) = true.
Proof.
  unfold sign_clear. rewrite mul_spec. intros ->.
  destruct (Prim2SF x) as [[]|[]| |[] mx ex]; simpl; try discriminate; try reflexivity.
  intros _. apply sign_clear_round.
Qed.

Lemma sign_clear_abs x : sign_clear (abs x) = true.
Proof.
  unfold sign_clear. rewrite abs_spec.
  destruct (Prim2SF x) as [[]|[]| |[] mx ex]; reflexivity.
Qed.

(** With the sign bit clear the number is a NaN or is at least zero. *)
Lemma sign_clear_nonneg x :
  sign_clear x = true -> isnan x = true \/ (0 <=? x) = true.
Proof.
  unfold sign_clear, isnan. rewrite leb_spec, FloatFacts.Prim2SF_zero.
  destruct (Prim2SF x) as [[]|[]| |[] mx ex]; simpl; try discriminate; auto.
Qed.

(** [int] of a number whose sign bit is clear is not negative. *)
Lemma int_of_float_sign_clear x z :
  sign_clear x = true -> Py.int_of_float x = Ok z -> (0 <= z)%Z.
Proof.
  unfold sign_clear, Py.int_of_float.
  destruct (Prim2SF x) as [[]|[]| |[] mx ex]; simpl; try discriminate;
    intros _ [= <-]; try lia.
  destruct ex as [|p|p].
  - lia.
  - apply Z.shiftl_nonneg. lia.
  - apply Z.shiftr_nonneg. lia.
Qed.

End FloatOrder.

(** ** SpreadEvaluator and SignalPresenter: what a signal and its message can be *)

Section SignalFacts.

Local Open Scope float_scope.

Lemma evaluate_sign_clear spot_sym fut_sym s v d now sig :
  evaluate spot_sym fut_sym s v d now = Some sig ->
  sign_clear (spread_percent sig) = true.
Proof.
  unfold evaluate. destruct (_ || _); [discriminate|]. intros [= <-]. simpl.
  eapply FloatOrder.sign_clear_mul; [reflexivity|apply FloatOrder.sign_clear_abs].
Qed.

(** X1.  Every signal [fetch_data_for_pair] builds records its inputs
    unchanged, has neither price [<= 0], carries one of the two directions,
    and its spread is never below zero: it is a NaN or at least zero. *)
Theorem evaluate_signal_invariants spot_sym fut_sym s v d now sig :
  evaluate spot_sym fut_sym s v d now = Some sig ->
  spot_symbol sig = spot_sym /\ futures_symbol sig = fut_sym /\
  spot_price sig = s /\ futures_price sig = d /\ volume_spot sig = v /\
  (spot_price sig <=? 0) = false /\ (futures_price sig <=? 0) = false /\
  (isnan (spread_percent sig) = true \/ (0 <=? spread_percent sig) = true) /\
  (spread_percent sig <? 0) = false /\
  (bid_ask sig = "Buy Spot / Sell Futures" \/ bid_ask sig = "Buy Futures / Sell Spot").
Proof.
  intros H. pose proof (evaluate_sign_clear _ _ _ _ _ _ _ H) as Hsign.
  unfold evaluate in H.
  destruct (s <=? 0) eqn:Hs; [discriminate|].
  destruct (d <=? 0) eqn:Hd; [discriminate|].
  simpl in H. injection H as <-. simpl in *.
  repeat split; try assumption.
  - apply FloatOrder.sign_clear_nonneg. exact Hsign.
  - revert Hsign. unfold sign_clear. rewrite ltb_spec, FloatFacts.Prim2SF_zero.
    unfold SFltb.
    destruct (Prim2SF _) as [[]|[]| |[] m e]; simpl; intros; congruence.
  - destruct (s <? d); auto.
Qed.

(** The bounds of [get_risk_management]. *)
Lemma get_risk_management_bounds spread volume l p sl :
  get_risk_management spread volume = Ok (l, p, sl) ->
  (l <= 20)%Z /\ (10000 <? p) = false /\ (1 <=? sl) = true.
Proof.
  unfold get_risk_management.
  destruct (Py.int_of_float _) as [z|e]; [|discriminate]. simpl.
  intros [= <- <- <-]. split; [lia|]. split.
  - unfold Py.min. destruct (10000 <? volume * 0.0001) eqn:H; [reflexivity|exact H].
  - unfold Py.max. destruct (1 <? spread / 2) eqn:H; [|reflexivity].
    apply FloatOrder.ltb_leb. exact H.
Qed.

(** X2.  The message of a signal built by [fetch_data_for_pair] is about
    that signal; its leverage lies between 0 and 20 and its count of flames
    between 0 and 5; its stop-loss is at least 1 (it is never a NaN) and its
    position size never exceeds 10000. *)
Theorem create_signal_message_bounds spot_sym fut_sym s v d now sig m :
  evaluate spot_sym fut_sym s v d now = Some sig ->
  create_signal_message sig = Ok m ->
  msg_signal m = sig /\
  (0 <= msg_leverage m <= 20)%Z /\
  (0 <= msg_flames m <= 5)%Z /\
  (1 <=? msg_stop_loss m) = true /\
  (10000 <? msg_position_size m) = false.
Proof.
  intros Hev Hmsg. pose proof (evaluate_sign_clear _ _ _ _ _ _ _ Hev) as Hsign.
  unfold create_signal_message in Hmsg.
  destruct (get_risk_management _ _) as [[[l p] sl]|e] eqn:Hrisk; [|discriminate].
  simpl in Hmsg.
  destruct (Py.int_of_float (spread_percent sig)) as [flames|e] eqn:Hfl; [|discriminate].
  injection Hmsg as <-. simpl.
  destruct (get_risk_management_bounds _ _ _ _ _ Hrisk) as (Hl & Hp & Hsl).
  pose proof (FloatOrder.int_of_float_sign_clear _ _ Hsign Hfl) as Hfl0.
  assert (0 <= l)%Z as Hl0.
  { unfold get_risk_management in Hrisk.
    destruct (Py.int_of_float (spread_percent sig * _)) as [z|e] eqn:Hz; [|discriminate].
    simpl in Hrisk. injection Hrisk as <- _ _.
    apply Z.min_glb; [|lia].
    eapply FloatOrder.int_of_float_sign_clear; [|exact Hz].
    eapply FloatOrder.sign_clear_mul; [reflexivity|exact Hsign]. }
  repeat split; try assumption; lia.
Qed.

Lemma isnan_mul_l x y : isnan x = true -> isnan (x * y) = true.
Proof.
  unfold isnan. rewrite mul_spec.
  destruct (Prim2SF x); try discriminate. reflexivity.
Qed.

Lemma isinf_mul_finite x c m e :
  Prim2SF c = S754_finite false m e -> isinf x = true -> isinf (x * c) = true.
Proof.
  unfold isinf. rewrite mul_spec. intros ->.
  destruct (Prim2SF x); try discriminate. reflexivity.
Qed.

(** X3.  [create_signal_message] raises exactly when the spread times
    [RISK_MULTIPLIER] is not a finite number: [ValueError] when it is a NaN,
    [OverflowError] when it is an infinity; in particular for a spread that
    is itself a NaN or an infinity.  Otherwise it returns a message about the
    signal. *)
Theorem create_signal_message_errors (s : signal) :
  let tripled := spread_percent s * Py.float_of_Z Config.RISK_MULTIPLIER in
  (isnan tripled = true -> create_signal_message s = Raise ValueError) /\
  (isinf tripled = true -> create_signal_message s = Raise OverflowError) /\
  (Py.is_finite tripled = true ->
   exists m, create_signal_message s = Ok m /\ msg_signal m = s) /\
  (isnan (spread_percent s) = true -> create_signal_message s = Raise ValueError) /\
  (isinf (spread_percent s) = true -> create_signal_message s = Raise OverflowError).
Proof.
  intros tripled.
  assert (Hnan : isnan tripled = true -> create_signal_message s = Raise ValueError).
  { unfold create_signal_message, get_risk_management, Py.int_of_float at 1, isnan.
    fold tripled. destruct (Prim2SF tripled); try discriminate. reflexivity. }
  assert (Hinf : isinf tripled = true -> create_signal_message s = Raise OverflowError).
  { unfold create_signal_message, get_risk_management, Py.int_of_float at 1, isinf.
    fold tripled. destruct (Prim2SF tripled); try discriminate. reflexivity. }
  split; [exact Hnan|]. split; [exact Hinf|]. split; [|split].
  - intros Hfin.
    destruct (int_of_float_finite _ Hfin) as [l Hl].
    destruct (int_of_float_finite _ (is_finite_mul_l _ _ Hfin)) as [fl Hfl].
    unfold create_signal_message, get_risk_management. fold tripled.
    rewrite Hl. simpl. rewrite Hfl. simpl. eexists. split; reflexivity.
  - intros H. apply Hnan. apply isnan_mul_l. exact H.
  - intros H. apply Hinf. eapply isinf_mul_finite; [reflexivity|exact H].
Qed.

(** X4.  The labels are monotone: a larger spread never gets a weaker
    strength or a lesser historical context, and a larger volume never gets
    a lower liquidity status. *)
Theorem labels_monotone (a b : float) :
  (a <=? b) = true ->
  (strength_rank (get_signal_strength a) <= strength_rank (get_signal_strength b))%nat /\
  (context_rank (get_historical_context a) <= context_rank (get_historical_context b))%nat /\
  (liquidity_rank (get_liquidity_status a) <= liquidity_rank (get_liquidity_status b))%nat.
Proof.
  intros Hab.
  assert (Hle : forall c m e, Prim2SF c = S754_finite false m e ->
                              (c <=? a) = true -> (c <=? b) = true).
  { intros c m e Hc Ha. exact (FloatOrder.leb_trans c a b m e Hc Ha Hab). }
  assert (Hlt : forall c m e, Prim2SF c = S754_finite false m e ->
                              (c <? a) = true -> (c <? b) = true).
  { intros c m e Hc Ha. exact (FloatOrder.ltb_leb_trans c a b m e Hc Ha Hab). }
  unfold get_signal_strength, get_historical_context, get_liquidity_status.
  repeat split.
  - destruct (8.0 <=? a) eqn:H8; [rewrite (Hle 8.0 _ _ eq_refl H8); simpl; lia|].
    destruct (5.0 <=? a) eqn:H5;
      [rewrite (Hle 5.0 _ _ eq_refl H5); destruct (8.0 <=? b); simpl; lia|].
    destruct (3.0 <=? a) eqn:H3;
      [rewrite (Hle 3.0 _ _ eq_refl H3);
       destruct (8.0 <=? b), (5.0 <=? b); simpl; lia|].
    simpl. lia.
  - destruct (15.0 <=? a) eqn:H15; [rewrite (Hle 15.0 _ _ eq_refl H15); simpl; lia|].
    destruct (10.0 <=? a) eqn:H10;
      [rewrite (Hle 10.0 _ _ eq_refl H10); destruct (15.0 <=? b); simpl; lia|].
    destruct (5.0 <=? a) eqn:H5;
      [rewrite (Hle 5.0 _ _ eq_refl H5);
       destruct (15.0 <=? b), (10.0 <=? b); simpl; lia|].
    simpl. lia.
  - destruct (5000000 <? a) eqn:H5; [rewrite (Hlt 5000000 _ _ eq_refl H5); simpl; lia|].
    destruct (1000000 <? a) eqn:H1;
      [rewrite (Hlt 1000000 _ _ eq_refl H1); destruct (5000000 <? b); simpl; lia|].
    simpl. lia.
Qed.

(** X5.  The labels of one message agree: the historical context is above
    the standard one exactly when the strength is strong or very strong; an
    unprecedented spread or a historical maximum is always very strong; and
    the gem, shown for a spread above 5, comes only with a context above the
    standard one. *)
Theorem labels_consistent (spread : float) :
  ((1 <= context_rank (get_historical_context spread))%nat
   <-> (2 <= strength_rank (get_signal_strength spread))%nat) /\
  ((2 <= context_rank (get_historical_context spread))%nat ->
   get_signal_strength spread = VeryStrong) /\
  ((5 <? spread) = true -> (1 <= context_rank (get_historical_context spread))%nat).
Proof.
  assert (Hle : forall c c' m e, Prim2SF c = S754_finite false m e ->
                  (c <=? c') = true -> (c' <=? spread) = true -> (c <=? spread) = true).
  { intros c c' m e Hc Hcc Hs. exact (FloatOrder.leb_trans c c' spread m e Hc Hcc Hs). }
  pose proof (Hle 10.0 15.0 _ _ eq_refl eq_refl) as C1.
  pose proof (Hle 8.0 10.0 _ _ eq_refl eq_refl) as C2.
  pose proof (Hle 5.0 8.0 _ _ eq_refl eq_refl) as C3.
  pose proof (FloatOrder.ltb_leb 5 spread) as C4.
  clear Hle.
  unfold get_historical_context, get_signal_strength.
  destruct (15.0 <=? spread), (10.0 <=? spread), (8.0 <=? spread),
    (5.0 <=? spread), (3.0 <=? spread); simpl;
    repeat split; intros; try lia; try reflexivity;
    try (specialize (C1 eq_refl); discriminate);
    try (specialize (C2 eq_refl); discriminate);
    try (specialize (C3 eq_refl); discriminate);
    try (specialize (C4 ltac:(assumption)); discriminate).
Qed.

End SignalFacts.

(** The labels at a spread of 3 and of 8 per cent, and at volumes of one and
    of six million. *)
Lemma labels_monotone_witness :
  ((strength_rank (get_signal_strength 3) <= strength_rank (get_signal_strength 8))%nat /\
   (context_rank (get_historical_context 3) <= context_rank (get_historical_context 8))%nat /\
   (liquidity_rank (get_liquidity_status 3) <= liquidity_rank (get_liquidity_status 8))%nat) /\
  get_signal_strength 3 = Medium /\ get_signal_strength 8 = VeryStrong.
Proof.
  split; [|split; reflexivity].
  apply (labels_monotone 3 8). reflexivity.
Defined.

(** The signal of the scenario: 100 against 108. *)
Lemma evaluate_signal_invariants_witness :
  exists sig,
    evaluate "BTCUSDT" "BTC_USDT" 100 2000000 108 1000 = Some sig /\
    (spread_percent sig <? 0)%float = false.
Proof.
  eexists. split; [reflexivity|].
  apply (evaluate_signal_invariants "BTCUSDT" "BTC_USDT" 100 2000000 108 1000 _ eq_refl).
Defined.

Lemma create_signal_message_bounds_witness :
  exists sig m,
    evaluate "BTCUSDT" "BTC_USDT" 100 2000000 108 1000 = Some sig /\
    create_signal_message sig = Ok m /\
    msg_leverage m = 20%Z /\ msg_flames m = 5%Z /\
    (0 <= msg_leverage m <= 20)%Z.
Proof.
  do 2 eexists. split; [reflexivity|]. split; [reflexivity|].
  split; [reflexivity|]. split; [reflexivity|].
  apply (create_signal_message_bounds "BTCUSDT" "BTC_USDT" 100 2000000 108 1000 _ _
           eq_refl eq_refl).
Defined.
(** ** PriceFetcher: the retries of [fetch_futures_price] *)

(** One round of the loop of [fetch_futures_price]: the request, and the
    sleep when the reply backs off. *)
Lemma futures_round_run E url attempt w :
  let r := futures_outcome E url (requests w) in
  try_except (futures_attempt E url attempt)
    (fun _ => sleep FuturesBackoff (backoff attempt) ;; ret None) w
  = (Ok (price_of r),
     (if backs_off r then advance (backoff attempt) (bump_requests w)
      else bump_requests w),
     EvGet url :: (if backs_off r then [EvSleep FuturesBackoff (backoff attempt)] else [])).
Proof.
  unfold futures_outcome, futures_ticker, futures_attempt, try_except, bind, http_get,
    lift, ret, sleep, emit, modify, bump_requests.
  destruct (http E url (requests w)) as [data|e]; simpl; [|reflexivity].
  destruct (Py.contains "data" data) as [[]|e]; simpl; [| |reflexivity].
  - destruct (Py.getitem data "data") as [inner|e]; simpl; [|reflexivity].
    destruct (Py.contains "lastPrice" inner) as [[]|e]; simpl; [| |reflexivity].
    + destruct (Py.getitem inner "lastPrice") as [last|e]; simpl; [|reflexivity].
      destruct (Py.to_float (parse_float E) last) as [price|e]; reflexivity.
    + destruct (Py.get data "code") as [code|e]; simpl; [|reflexivity].
      destruct (Py.eq_int code 510); reflexivity.
  - destruct (Py.get data "code") as [code|e]; simpl; [|reflexivity].
    destruct (Py.eq_int code 510); reflexivity.
Qed.

Lemma futures_attempts_S E url n attempt w :
  futures_attempts E url (S n) attempt w =
  let r := futures_outcome E url (requests w) in
  match price_of r with
  | Some p => (Ok p, bump_requests w, [EvGet url])
  | None =>
      match futures_attempts E url n (S attempt)
              (if backs_off r then advance (backoff attempt) (bump_requests w)
               else bump_requests w) with
      | (res, w2, ev2) =>
          (res, w2,
           ((EvGet url ::
             (if backs_off r then [EvSleep FuturesBackoff (backoff attempt)] else []))
            ++ ev2)%list)
      end
  end.
Proof.
  simpl futures_attempts. unfold bind at 1.
  pose proof (futures_round_run E url attempt w) as Hround. cbv zeta in *.
  rewrite Hround.
  destruct (futures_outcome E url (requests w)) as [p| | |e]; reflexivity.
Qed.

Lemma futures_attempts_run E url retries : forall attempt w,
  exists k,
    (k <= retries)%nat /\
    (forall i, (i < k)%nat -> price_of (futures_outcome E url (requests w + i)) = None) /\
    events_of (futures_attempts E url retries attempt w)
      = (futures_rounds E url (requests w) attempt k
         ++ (if (k <? retries)%nat then [EvGet url] else []))%list /\
    ((k < retries)%nat ->
     exists p, futures_outcome E url (requests w + k) = Price p /\
               result_of (futures_attempts E url retries attempt w) = Ok p) /\
    (k = retries -> result_of (futures_attempts E url retries attempt w) = Ok 0%float).
Proof.
  induction retries as [|n IH]; intros attempt w.
  - exists 0%nat. split; [lia|]. split; [intros i Hi; lia|].
    split; [reflexivity|]. split; [intros H; lia|reflexivity].
  - rewrite futures_attempts_S. cbv zeta.
    destruct (price_of (futures_outcome E url (requests w))) as [p|] eqn:Hprice.
    + exists 0%nat. split; [lia|]. split; [intros i Hi; lia|].
      split; [reflexivity|]. split; [|intros H; lia].
      intros _. exists p. rewrite Nat.add_0_r. split; [|reflexivity].
      destruct (futures_outcome E url (requests w)); try discriminate.
      simpl in Hprice. congruence.
    + set (r := futures_outcome E url (requests w)) in *.
      set (w' := if backs_off r then advance (backoff attempt) (bump_requests w)
                 else bump_requests w).
      assert (Hreq : requests w' = S (requests w)).
      { subst w'. destruct (backs_off r); reflexivity. }
      destruct (IH (S attempt) w') as (k & Hk & Hnone & Hev & Hlt & Heq).
      clear IH. rewrite Hreq in Hnone, Hev, Hlt.
      unfold events_of, result_of in *.
      destruct (futures_attempts E url n (S attempt) w') as [[res w2] ev2].
      cbn [fst snd] in *. exists (S k). split; [lia|]. split; [|split; [|split]].
      * intros [|i] Hi; [rewrite Nat.add_0_r; exact Hprice|].
        replace (requests w + S i)%nat with (S (requests w + i)) by lia.
        apply Hnone. lia.
      * rewrite Hev. cbn [futures_rounds]. fold r.
        rewrite <- app_assoc. reflexivity.
      * intros H. replace (requests w + S k)%nat with (S (requests w + k)) by lia.
        apply Hlt. lia.
      * intros H. apply Heq. lia.
Qed.

Lemma attempt_events_futures_rounds E url n : forall first attempt,
  attempt_events (futures_rounds E url first attempt n)
  = futures_rounds E url first attempt n.
Proof.
  induction n as [|n IH]; intros first attempt; [reflexivity|].
  simpl. destruct (backs_off _); simpl; fold (attempt_events
    (futures_rounds E url (S first) (S attempt) n)); rewrite IH; reflexivity.
Qed.

Lemma gets_futures_rounds E url n : forall first attempt,
  List.length (List.filter is_get (futures_rounds E url first attempt n)) = n.
Proof.
  induction n as [|n IH]; intros first attempt; [reflexivity|].
  simpl. destruct (backs_off _); simpl; rewrite IH; reflexivity.
Qed.

Lemma gets_rate_limit_events w : List.filter is_get (rate_limit_events w) = [].
Proof. unfold rate_limit_events. destruct (_ <? _)%float; reflexivity. Qed.

Lemma flat_map_shift {A} (f : nat -> list A) n :
  flat_map f (seq 1 n) = flat_map (fun i => f (S i)) (seq 0 n).
Proof.
  rewrite <- seq_shift. induction (seq 0 n) as [|i l IH]; [reflexivity|].
  simpl. rewrite IH. reflexivity.
Qed.

(** The rounds with their seconds written out: the attempt number [i + 1]
    of a round that backs off is followed by [1.5 * (i + 1)] seconds. *)
Lemma futures_rounds_seconds E url n : forall first attempt,
  futures_rounds E url first attempt n
  = flat_map (fun i =>
                EvGet url ::
                (if backs_off (futures_outcome E url (first + i))
                 then [EvSleep FuturesBackoff
                         (1.5 * Py.float_of_Z (Z.of_nat (attempt + i) + 1))%float]
                 else []))
      (seq 0 n).
Proof.
  induction n as [|n IH]; intros first attempt; [reflexivity|].
  cbn [futures_rounds]. rewrite IH. cbn [seq flat_map].
  rewrite flat_map_shift, !Nat.add_0_r. unfold backoff. f_equal.
  apply flat_map_ext. intros i.
  replace (first + S i)%nat with (S first + i)%nat by lia.
  replace (attempt + S i)%nat with (S attempt + i)%nat by lia. reflexivity.
Qed.

(** X6.  [fetch_futures_price] never raises and issues at most [retries]
    requests.  For some [k <= retries], the first [k] attempts yield no
    price; each is followed by a sleep of [1.5 * attemptNumber] seconds when
    it ended in an exception or in the rate-limit code 510, and by no sleep
    when the body was otherwise unusable.  If [k < retries] the next attempt
    yields the price returned; otherwise the result is 0. *)
Theorem fetch_futures_price_retries E symbol retries w :
  let run := fetch_futures_price E symbol retries w in
  let url := futures_url symbol in
  exists k,
    (k <= retries)%nat /\
    (forall i, (i < k)%nat -> price_of (futures_outcome E url (requests w + i)) = None) /\
    attempt_events (events_of run)
      = (futures_rounds E url (requests w) 0 k
         ++ (if (k <? retries)%nat then [EvGet url] else []))%list /\
    attempt_events (events_of run)
      = (flat_map (fun i =>
                     EvGet url ::
                     (if backs_off (futures_outcome E url (requests w + i))
                      then [EvSleep FuturesBackoff
                              (1.5 * Py.float_of_Z (Z.of_nat i + 1))%float]
                      else []))
           (seq 0 k)
         ++ (if (k <? retries)%nat then [EvGet url] else []))%list /\
    (List.length (List.filter is_get (events_of run)) <= retries)%nat /\
    ((k < retries)%nat ->
     exists p, futures_outcome E url (requests w + k) = Price p /\ result_of run = Ok p) /\
    (k = retries -> result_of run = Ok 0%float) /\
    (exists p, result_of run = Ok p).
Proof.
  intros run url. subst run url. unfold fetch_futures_price.
  rewrite with_semaphore_run, bind_rate_limit.
  set (w1 := granted (set_semaphore_held (S (semaphore_held w)) w)).
  destruct (futures_attempts_run E (futures_url symbol) retries 0 w1)
    as (k & Hk & Hnone & Hev & Hlt & Heq).
  change (requests w1) with (requests w) in *.
  unfold events_of, result_of in *.
  destruct (futures_attempts E (futures_url symbol) retries 0 w1) as [[res w2] ev2].
  simpl in *. subst ev2.
  exists k. split; [exact Hk|]. split; [exact Hnone|].
  assert (Hrounds : attempt_events
            (rate_limit_events (set_semaphore_held (S (semaphore_held w)) w)
             ++ futures_rounds E (futures_url symbol) (requests w) 0 k
             ++ (if (k <? retries)%nat then [EvGet (futures_url symbol)] else []))
          = (futures_rounds E (futures_url symbol) (requests w) 0 k
             ++ (if (k <? retries)%nat then [EvGet (futures_url symbol)] else []))%list).
  { unfold attempt_events. rewrite !List.filter_app.
    fold (attempt_events (rate_limit_events (set_semaphore_held (S (semaphore_held w)) w))).
    fold (attempt_events (futures_rounds E (futures_url symbol) (requests w) 0 k)).
    rewrite attempt_events_rate_limit, attempt_events_futures_rounds.
    destruct (k <? retries)%nat; reflexivity. }
  split; [exact Hrounds|].
  split; [rewrite Hrounds, futures_rounds_seconds; reflexivity|].
  split; [|split; [|split]].
  - rewrite !List.filter_app, !List.length_app, gets_rate_limit_events,
      gets_futures_rounds.
    destruct (k <? retries)%nat eqn:Hlt'; simpl;
      try apply Nat.ltb_lt in Hlt'; lia.
  - exact Hlt.
  - exact Heq.
  - destruct (Nat.eq_dec k retries) as [->|Hne].
    + exists 0%float. apply Heq. reflexivity.
    + destruct Hlt as (p & _ & Hp); [lia|]. exists p. exact Hp.
Qed.

(** With the exchange unreachable: three requests, three sleeps of 1.5, 3
    and 4.5 seconds, and the price 0. *)
Example fetch_futures_price_unreachable :
  let run := fetch_futures_price Scenario.down "BTC_USDT" 3 Scenario.w0 in
  result_of run = Ok 0%float /\
  attempt_events (events_of run)
  = [EvGet (futures_url "BTC_USDT"); EvSleep FuturesBackoff 1.5;
     EvGet (futures_url "BTC_USDT"); EvSleep FuturesBackoff 3;
     EvGet (futures_url "BTC_USDT"); EvSleep FuturesBackoff 4.5].
Proof. split; vm_compute; reflexivity. Qed.

(** ** Processing core: who is notified, and about what *)

Section RespectsResult.

Context (P : world -> world -> list event -> Prop) `{!Invariant P}.

(** Sequencing, with the continuation looked at only for the values the first
    computation can return. *)
Lemma respects_bind_ok {A B} (m : M A) (k : A -> M B) :
  respects P m ->
  (forall w a, result_of (m w) = Ok a ->
               P (world_of (m w)) (world_of (k a (world_of (m w))))
                 (events_of (k a (world_of (m w))))) ->
  respects P (bind m k).
Proof.
  intros Hm Hk w. specialize (Hm w). specialize (Hk w).
  unfold bind, world_of, events_of, result_of in *.
  destruct (m w) as [[[a|e] w1] ev1]; simpl in *; [|exact Hm].
  specialize (Hk a eq_refl).
  destruct (k a w1) as [[r w2] ev2]. simpl in *.
  eapply inv_trans; eassumption.
Qed.

End RespectsResult.

#[export] Instance gated_invariant E pairs : Invariant (gated E pairs).
Proof.
  split.
  - intros w. constructor.
  - intros w1 w2 w3 e1 e2 H1 H2. unfold gated in *.
    rewrite deliveries_app. apply Forall_app. split; assumption.
Qed.

Lemma gated_sleep E pairs site d : respects (gated E pairs) (sleep site d).
Proof. intros w. constructor. Qed.

Lemma gated_http_get E pairs E' url : respects (gated E pairs) (http_get E' url).
Proof. intros w. constructor. Qed.

Lemma gated_modify E pairs f : respects (gated E pairs) (modify f).
Proof. intros w. constructor. Qed.

Lemma gated_rate_limit E pairs : respects (gated E pairs) rate_limit.
Proof.
  intros w. rewrite rate_limit_run. unfold gated, events_of, rate_limit_events. simpl.
  destruct (_ <? _)%float; constructor.
Qed.

Lemma gated_insert_row E pairs E' r : respects (gated E pairs) (insert_row E' r).
Proof.
  intros w. unfold insert_row, gated, events_of.
  destruct (db_insert E' r (arbitrage_signals w)); constructor.
Qed.

#[export] Hint Resolve gated_sleep gated_http_get gated_modify gated_rate_limit
  gated_insert_row : respects.

Lemma gated_spot_attempts E pairs E' url n : forall attempt,
  respects (gated E pairs) (spot_attempts E' url n attempt).
Proof.
  induction n as [|n IH]; intros attempt; simpl.
  - respects_auto.
  - unfold spot_attempt. respects_auto.
Qed.

Lemma gated_futures_attempts E pairs E' url n : forall attempt,
  respects (gated E pairs) (futures_attempts E' url n attempt).
Proof.
  induction n as [|n IH]; intros attempt; simpl.
  - respects_auto.
  - unfold futures_attempt. respects_auto.
Qed.

#[export] Hint Resolve gated_spot_attempts gated_futures_attempts : respects.

Lemma gated_fetch_data_for_pair E pairs E' spot_sym fut_sym :
  respects (gated E pairs) (fetch_data_for_pair E' spot_sym fut_sym).
Proof.
  unfold fetch_data_for_pair, fetch_spot_price, fetch_futures_price, with_semaphore.
  respects_auto.
Qed.

Lemma gated_save_signal E pairs E' sig : respects (gated E pairs) (save_signal E' sig).
Proof. unfold save_signal. respects_auto. Qed.

#[export] Hint Resolve gated_fetch_data_for_pair gated_save_signal : respects.

Lemma create_signal_message_signal s text :
  create_signal_message s = Ok text -> msg_signal text = s.
Proof.
  unfold create_signal_message.
  destruct (get_risk_management _ _) as [risk|e]; [|discriminate]. simpl.
  destruct (Py.int_of_float _) as [flames|e]; [|discriminate]. simpl.
  intros [= <-]. reflexivity.
Qed.

Lemma gated_notify_subscribers E pairs s :
  (spot_symbol s, futures_symbol s) ∈ pairs ->
  (Config.THRESHOLD_PERCENT <=? spread_percent s)%float = true ->
  (Config.THRESHOLD_NOTIFY_PERCENT <=? spread_percent s)%float = true ->
  respects (gated E pairs) (notify_subscribers E s).
Proof.
  intros Hin H1 H2. unfold notify_subscribers.
  destruct (get_subscribers E) as [|uid0 rest] eqn:Hsubs; [respects_auto|].
  apply respects_bind_ok; [exact _|respects_auto|].
  intros w text Htext. unfold lift, result_of in Htext. simpl in Htext.
  apply create_signal_message_signal in Htext.
  revert w. change (respects (gated E pairs)
                      (gather (map (send_message E text) (uid0 :: rest)))).
  apply respects_gather; [exact _|].
  apply Forall_forall. intros t Ht. apply list_elem_of_fmap in Ht as (uid & -> & Huid).
  unfold send_message.
  apply respects_try_except; [exact _| |intros e; respects_auto].
  destruct (send_message_func E) as [send|]; [|respects_auto].
  apply respects_bind; [exact _| |intros _; respects_auto].
  intros w. unfold gated, emit, events_of. simpl.
  constructor; [|constructor].
  unfold delivery_ok. simpl. rewrite Htext, Hsubs. auto.
Qed.

Lemma gated_mono E pairs pairs' {A} (m : M A) :
  pairs ⊆ pairs' -> respects (gated E pairs) m -> respects (gated E pairs') m.
Proof.
  intros Hsub Hm w. specialize (Hm w). unfold gated in *.
  eapply Forall_impl; [exact Hm|].
  intros d (Hu & Hp & Ht). split; [exact Hu|]. split; [|exact Ht].
  apply Hsub. exact Hp.
Qed.

Lemma evaluate_symbols spot_sym fut_sym s v d now sig :
  evaluate spot_sym fut_sym s v d now = Some sig ->
  spot_symbol sig = spot_sym /\ futures_symbol sig = fut_sym.
Proof.
  unfold evaluate. destruct (_ || _); [discriminate|].
  intros [= <-]. split; reflexivity.
Qed.

Lemma gated_process_and_notify E pairs :
  respects (gated E pairs) (process_and_notify E pairs).
Proof.
  induction pairs as [|[spot_sym fut_sym] rest IH]; [simpl; respects_auto|].
  cbn [process_and_notify].
  apply respects_bind_ok; [exact _|respects_auto|].
  intros w sig Hsig.
  generalize (world_of (fetch_data_for_pair E spot_sym fut_sym w)).
  apply respects_bind; [exact _| |intros ?].
  - destruct sig as [sig|]; [|respects_auto].
    destruct (fetch_data_for_pair_evaluates E spot_sym fut_sym w)
      as (sp & v & fp & _ & _ & Hres).
    rewrite Hres in Hsig. injection Hsig as Hsig.
    apply evaluate_symbols in Hsig as [Hs Hf].
    cbv zeta.
    destruct (Config.THRESHOLD_PERCENT <=? spread_percent sig)%float eqn:H1;
      [|respects_auto].
    apply respects_bind; [exact _|respects_auto|intros saved].
    destruct (Config.THRESHOLD_NOTIFY_PERCENT <=? spread_percent sig)%float eqn:H2;
      [|respects_auto].
    apply gated_notify_subscribers; [|exact H1|exact H2].
    rewrite Hs, Hf. apply list_elem_of_here.
  - eapply gated_mono; [|exact IH].
    intros x Hx. apply list_elem_of_further. exact Hx.
Qed.

(** X7.  Whatever the exchange answers, every delivery that a scan of
    [pairs] attempts goes to a subscriber and carries a signal of one of the
    scanned pairs whose spread passes both [THRESHOLD_PERCENT] and
    [THRESHOLD_NOTIFY_PERCENT]. *)
Theorem process_and_notify_gated E pairs w :
  Forall (delivery_ok E pairs) (deliveries (events_of (process_and_notify E pairs w))).
Proof. exact (gated_process_and_notify E pairs w). Qed.

(** ** Processing core: how scans compose *)

Lemma bind_assoc {A B C} (m : M A) (k : A -> M B) (h : B -> M C) w :
  bind (bind m k) h w = bind m (fun a => bind (k a) h) w.
Proof.
  unfold bind. destruct (m w) as [[[a|e] w1] ev1]; [|reflexivity].
  destruct (k a w1) as [[[b|e] w2] ev2]; [|reflexivity].
  destruct (h b w2) as [[r w3] ev3]. rewrite app_assoc. reflexivity.
Qed.

Lemma bind_ext {A B} (m : M A) (k k' : A -> M B) w :
  (forall a w1, k a w1 = k' a w1) -> bind m k w = bind m k' w.
Proof.
  intros H. unfold bind. destruct (m w) as [[[a|e] w1] ev1]; [|reflexivity].
  rewrite H. reflexivity.
Qed.

Lemma process_and_notify_bind E l1 l2 : forall w,
  process_and_notify E (l1 ++ l2) w
  = (process_and_notify E l1 ;; process_and_notify E l2) w.
Proof.
  induction l1 as [|[spot_sym fut_sym] l1 IH]; intros w.
  - simpl. unfold bind, ret.
    destruct (process_and_notify E l2 w) as [[r w2] ev2]. reflexivity.
  - cbn [process_and_notify app]. rewrite bind_assoc.
    apply bind_ext. intros sig w1. rewrite bind_assoc.
    apply bind_ext. intros a w2. apply IH.
Qed.

(** X8.  Scanning a list of pairs is scanning a first part of it and then
    the rest, and an exception raised while a part is scanned ends the scan:
    the pairs after it are not fetched. *)
Theorem process_and_notify_app E l1 l2 w :
  process_and_notify E (l1 ++ l2) w
  = (process_and_notify E l1 ;; process_and_notify E l2) w /\
  (forall e, result_of (process_and_notify E l1 w) = Raise e ->
             process_and_notify E (l1 ++ l2) w = process_and_notify E l1 w).
Proof.
  split; [apply process_and_notify_bind|].
  intros e He. rewrite process_and_notify_bind. unfold bind, result_of in *.
  destruct (process_and_notify E l1 w) as [[[[]|e'] w1] ev1]; [discriminate|reflexivity].
Qed.

(** The pair X / X_USDT has an infinite spread, for which no message can be
    made: the scan ends there with [OverflowError], and BTCUSDT, next in
    the list, is not fetched. *)
Example process_and_notify_aborts :
  let run := process_and_notify Extreme.market
               [("XUSDT", "X_USDT"); ("BTCUSDT", "BTC_USDT")] Scenario.w0 in
  result_of run = Raise OverflowError /\
  gets (events_of run) = [EvGet (spot_url "XUSDT"); EvGet (futures_url "X_USDT")] /\
  deliveries (events_of run) = [].
Proof. repeat split; vm_compute; reflexivity. Qed.

Lemma process_and_notify_app_witness :
  process_and_notify Extreme.market ([("XUSDT", "X_USDT")] ++ [("BTCUSDT", "BTC_USDT")])
    Scenario.w0
  = process_and_notify Extreme.market [("XUSDT", "X_USDT")] Scenario.w0.
Proof.
  apply (proj2 (process_and_notify_app Extreme.market [("XUSDT", "X_USDT")]
                  [("BTCUSDT", "BTC_USDT")] Scenario.w0) OverflowError).
  vm_compute. reflexivity.
Defined.

(** ** PriceFetcher: the requests of one pair *)

Lemma gets_app e1 e2 : gets (e1 ++ e2) = (gets e1 ++ gets e2)%list.
Proof. apply List.filter_app. Qed.

Lemma gets_failed_rounds_repeat url n : forall attempt,
  gets (failed_rounds url attempt n) = repeat (EvGet url) n.
Proof.
  induction n as [|n IH]; intros attempt; [reflexivity|].
  simpl. unfold gets in IH. rewrite IH. reflexivity.
Qed.

Lemma gets_futures_rounds_repeat E url n : forall first attempt,
  gets (futures_rounds E url first attempt n) = repeat (EvGet url) n.
Proof.
  induction n as [|n IH]; intros first attempt; [reflexivity|].
  cbn [futures_rounds]. rewrite gets_app, IH.
  destruct (backs_off _); reflexivity.
Qed.

Lemma repeat_snoc {A} (x : A) n : (repeat x n ++ [x])%list = repeat x (S n).
Proof. induction n as [|n IH]; [reflexivity|]. simpl. rewrite IH. reflexivity. Qed.

Lemma fetch_spot_price_gets E symbol w :
  exists a pv,
    (1 <= a <= 3)%nat /\
    result_of (fetch_spot_price E symbol 3 w) = Ok pv /\
    gets (events_of (fetch_spot_price E symbol 3 w)) = repeat (EvGet (spot_url symbol)) a.
Proof.
  destruct (total_fetch_spot_price E symbol 3 w) as [pv Hpv].
  unfold fetch_spot_price in *. rewrite with_semaphore_run, bind_rate_limit in *.
  set (w1 := granted (set_semaphore_held (S (semaphore_held w)) w)) in *.
  destruct (spot_attempts_run E (spot_url symbol) 3 0 w1)
    as (n & Hn & _ & Hev & _ & _ & _).
  unfold events_of, result_of in *.
  destruct (spot_attempts E (spot_url symbol) 3 0 w1) as [[res w2] ev2].
  simpl in *. subst ev2 res.
  exists (if (n <? 3)%nat then S n else n), pv. split; [|split; [reflexivity|]].
  - destruct (n <? 3)%nat eqn:Hlt; [apply Nat.ltb_lt in Hlt|apply Nat.ltb_ge in Hlt]; lia.
  - rewrite !gets_app, gets_failed_rounds_repeat.
    unfold gets at 1. rewrite gets_rate_limit_events. simpl.
    destruct (n <? 3)%nat; [apply repeat_snoc|apply app_nil_r].
Qed.

Lemma fetch_futures_price_gets E symbol w :
  exists b p,
    (1 <= b <= 3)%nat /\
    result_of (fetch_futures_price E symbol 3 w) = Ok p /\
    gets (events_of (fetch_futures_price E symbol 3 w))
    = repeat (EvGet (futures_url symbol)) b.
Proof.
  destruct (total_fetch_futures_price E symbol 3 w) as [p Hp].
  unfold fetch_futures_price in *. rewrite with_semaphore_run, bind_rate_limit in *.
  set (w1 := granted (set_semaphore_held (S (semaphore_held w)) w)) in *.
  destruct (futures_attempts_run E (futures_url symbol) 3 0 w1)
    as (k & Hk & _ & Hev & _ & _).
  unfold events_of, result_of in *.
  destruct (futures_attempts E (futures_url symbol) 3 0 w1) as [[res w2] ev2].
  simpl in *. subst ev2 res.
  exists (if (k <? 3)%nat then S k else k), p. split; [|split; [reflexivity|]].
  - destruct (k <? 3)%nat eqn:Hlt; [apply Nat.ltb_lt in Hlt|apply Nat.ltb_ge in Hlt]; lia.
  - rewrite !gets_app, gets_futures_rounds_repeat.
    unfold gets at 1. rewrite gets_rate_limit_events. simpl.
    destruct (k <? 3)%nat; [apply repeat_snoc|apply app_nil_r].
Qed.

(** X9.  [fetch_data_for_pair] never raises, and its requests are: between
    one and three of the spot ticker of the pair, then between one and three
    of its derivative ticker; no other address is requested. *)
Theorem fetch_data_for_pair_requests E spot_sym fut_sym w :
  let run := fetch_data_for_pair E spot_sym fut_sym w in
  exists a b sig,
    (1 <= a <= 3)%nat /\ (1 <= b <= 3)%nat /\
    result_of run = Ok sig /\
    gets (events_of run)
    = (repeat (EvGet (spot_url spot_sym)) a ++ repeat (EvGet (futures_url fut_sym)) b)%list.
Proof.
  intros run. subst run.
  destruct (fetch_spot_price_gets E spot_sym w) as (a & pv & Ha & Hpv & Hga).
  unfold fetch_data_for_pair, try_except, bind, result_of, events_of in *.
  destruct (fetch_spot_price E spot_sym 3 w) as [[r1 w1] ev1].
  cbn [fst snd] in *. subst r1.
  destruct (fetch_futures_price_gets E fut_sym w1) as (b & p & Hb & Hp & Hgb).
  unfold result_of, events_of in *.
  destruct (fetch_futures_price E fut_sym 3 w1) as [[r2 w2] ev2].
  cbn [fst snd] in *. subst r2.
  exists a, b. eexists. split; [exact Ha|]. split; [exact Hb|].
  split; [reflexivity|].
  unfold time, ret. cbn [fst snd].
  rewrite !gets_app, Hga, Hgb. simpl. rewrite app_nil_r. reflexivity.
Qed.

(** ** ScanScheduler: the loop goes on *)

Lemma main_loop_from_returns E n : forall st w,
  exists st', result_of (main_loop_from E n st w) = Ok st'.
Proof.
  induction n as [|n IH]; intros st w; [exists st; reflexivity|].
  simpl. unfold bind.
  destruct (main_loop_iteration_run E st w) as (st1 & w1 & r & sf & ss & -> & _).
  destruct (IH st1 w1) as [st' Hst']. unfold result_of in *.
  destruct (main_loop_from E n st1 w1) as [[res w2] ev2]. simpl in *.
  exists st'. exact Hst'.
Qed.

(** X10.  No exception leaves [main_loop]: whatever a scan raises, every
    iteration returns and the next one is run. *)
Theorem main_loop_returns E n w :
  exists st, result_of (main_loop E n w) = Ok st.
Proof. apply main_loop_from_returns. Qed.

(** With the pair X / X_USDT at the head of the fast tier, the scan of the
    tier ends at it with [OverflowError] in every iteration: the loop goes
    on to the sleep of the fast interval, and BTCUSDT, whose spread of 8 per
    cent passes both thresholds, is never fetched and nobody is notified. *)
Example main_loop_survives_overflow :
  let run := main_loop Extreme.market 2 Scenario.w0 in
  (exists st, result_of run = Ok st /\
              pairs st = [("XUSDT", "X_USDT"); ("BTCUSDT", "BTC_USDT")]) /\
  gets (events_of run)
  = [EvGet futures_listing_url;
     EvGet (spot_url "XUSDT"); EvGet (futures_url "X_USDT");
     EvGet (spot_url "XUSDT"); EvGet (futures_url "X_USDT")] /\
  tier_sleeps (events_of run) = [EvSleep FastInterval 30; EvSleep FastInterval 30] /\
  deliveries (events_of run) = [].
Proof.
  split; [eexists; split; vm_compute; reflexivity|].
  repeat split; vm_compute; reflexivity.
Qed.

(** ** ScanScheduler: what the loop never does *)

Lemma table_kept_get_top_symbol_pairs E limit :
  respects table_kept (get_top_symbol_pairs E limit).
Proof. intros w. rewrite get_top_symbol_pairs_run. reflexivity. Qed.

Lemma table_kept_process_and_notify E pairs :
  respects table_kept (process_and_notify E pairs).
Proof. exact (process_and_notify_keeps_table E pairs). Qed.

#[export] Hint Resolve table_kept_get_top_symbol_pairs table_kept_process_and_notify
  : respects.

Lemma table_kept_main_loop_iteration E st :
  respects table_kept (main_loop_iteration E st).
Proof. unfold main_loop_iteration. respects_auto. Qed.

Lemma table_kept_main_loop_from E n : forall st,
  respects table_kept (main_loop_from E n st).
Proof.
  induction n as [|n IH]; intros st; simpl; [respects_auto|].
  apply respects_bind; [exact _|apply table_kept_main_loop_iteration|intros st'; apply IH].
Qed.

(** X11.  However long the scanner runs, whatever the exchange answers and
    whatever the database driver would accept, the table [arbitrage_signals]
    is left as it was found: no scan adds, changes or removes a row. *)
Theorem main_loop_keeps_table E n w :
  arbitrage_signals (world_of (main_loop E n w)) = arbitrage_signals w.
Proof. exact (table_kept_main_loop_from E n _ w). Qed.

(** ** SymbolMatcher: the canonical forms of ordinary symbols *)

Module StrFacts.

Lemma append_cons c s t : String c s ++ t = String c (s ++ t).
Proof. reflexivity. Qed.

Lemma append_nil_l s : "" ++ s = s.
Proof. reflexivity. Qed.

Lemma append_nil_r s : s ++ "" = s.
Proof.
  induction s as [|c s IH]; [reflexivity|]. rewrite append_cons, IH. reflexivity.
Qed.

Lemma upper_app a b : PyStr.upper (a ++ b) = PyStr.upper a ++ PyStr.upper b.
Proof.
  induction a as [|c a IH]; [reflexivity|].
  rewrite append_cons. cbn [PyStr.upper]. rewrite IH. reflexivity.
Qed.

Lemma contains_cons p c s :
  PyStr.contains p (String c s) = false ->
  PyStr.startswith p (String c s) = false /\ PyStr.contains p s = false.
Proof. simpl. intros H. apply orb_false_elim in H. exact H. Qed.

(** Deleting a pattern that does not occur changes nothing. *)
Lemma remove_absent p s : PyStr.contains p s = false -> PyStr.remove p s = s.
Proof.
  unfold PyStr.remove. induction s as [|c s IH]; [reflexivity|].
  intros H. apply contains_cons in H as [Hhere Hrest].
  cbn [PyStr.remove_from]. rewrite Hhere, (IH Hrest). reflexivity.
Qed.

(** Deleting [p] from [B ++ q], for a [B] free of [USD], when no occurrence
    of [p] can start inside [B]: only [q] is touched. *)
Lemma remove_suffix p q r B :
  (forall c B', PyStr.startswith "USD" (String c B') = false ->
                PyStr.startswith p (String c (B' ++ q)) = false) ->
  PyStr.remove p q = r ->
  PyStr.contains "USD" B = false ->
  PyStr.remove p (B ++ q) = B ++ r.
Proof.
  intros Hstart Hq. unfold PyStr.remove in *.
  induction B as [|c B IH]; intros H; [exact Hq|].
  apply contains_cons in H as [Hhere Hrest].
  rewrite !append_cons. cbn [PyStr.remove_from].
  rewrite (Hstart c B Hhere), (IH Hrest). reflexivity.
Qed.

Ltac straddle :=
  intros c B';
  destruct B' as [|c2 [|c3 B']]; rewrite ?append_cons, ?append_nil_l;
  cbn [PyStr.startswith];
  repeat match goal with
         | |- context [Ascii.eqb ?a ?b] => is_var b; destruct (Ascii.eqb a b)
         end;
  intros H; try reflexivity; try discriminate H.

Lemma straddle_USDT_USDT c B' :
  PyStr.startswith "USD" (String c B') = false ->
  PyStr.startswith "USDT" (String c (B' ++ "USDT")) = false.
Proof. revert c B'. straddle. Qed.

Lemma straddle_USDT_USD c B' :
  PyStr.startswith "USD" (String c B') = false ->
  PyStr.startswith "USDT" (String c (B' ++ "USD")) = false.
Proof. revert c B'. straddle. Qed.

Lemma straddle_USD_USD c B' :
  PyStr.startswith "USD" (String c B') = false ->
  PyStr.startswith "USD" (String c (B' ++ "USD")) = false.
Proof. revert c B'. straddle. Qed.

(** Inside a string free of the underscore no derivative suffix starts. *)
Lemma match_alt_inside c s :
  Ascii.eqb "_" c = false -> PyStr.match_alt futures_suffixes (String c s) = None.
Proof.
  intros H. unfold futures_suffixes. cbn [PyStr.match_alt PyStr.startswith].
  rewrite H. reflexivity.
Qed.

Lemma sub_suffix_suffix B suf :
  PyStr.contains "_" B = false ->
  PyStr.match_alt futures_suffixes suf = Some EmptyString ->
  PyStr.sub_suffix futures_suffixes (B ++ suf) = B.
Proof.
  intros HB Hsuf. induction B as [|c B IH].
  - change ("" ++ suf) with suf.
    destruct suf; cbn [PyStr.sub_suffix]; rewrite Hsuf; reflexivity.
  - apply contains_cons in HB as [Hhere Hrest].
    rewrite append_cons. cbn [PyStr.sub_suffix].
    rewrite match_alt_inside, (IH Hrest); [reflexivity|].
    cbn [PyStr.startswith] in Hhere.
    destruct (Ascii.eqb "_" c); [discriminate|reflexivity].
Qed.

(** Deleting a one-character pattern leaves no occurrence of it. *)
Lemma remove_char_absent c s :
  PyStr.contains (String c EmptyString) (PyStr.remove (String c EmptyString) s) = false.
Proof.
  unfold PyStr.remove. induction s as [|a s IH]; [reflexivity|].
  cbn [PyStr.remove_from PyStr.startswith String.length Nat.sub].
  destruct (Ascii.eqb c a) eqn:Hca; [exact IH|].
  cbn [PyStr.contains PyStr.startswith]. rewrite Hca, IH. reflexivity.
Qed.

End StrFacts.

(** X12.  Ordinary symbols meet: when the upper-cased base neither contains
    [USD] nor an underscore, the spot symbol made of the base and the quote
    [USDT] or [USD], and the derivative symbol made of the base and any of
    the eight suffixes, both have the upper-cased base as canonical form. *)
Theorem normalize_symbol_pairs (base quote suffix : string) :
  PyStr.contains "USD" (PyStr.upper base) = false ->
  PyStr.contains "_" (PyStr.upper base) = false ->
  quote ∈ spot_quotes ->
  suffix ∈ futures_suffixes ->
  normalize_symbol (base ++ quote) "spot" = PyStr.upper base /\
  normalize_symbol (base ++ suffix) "futures" = PyStr.upper base.
Proof.
  intros Husd Hund Hq Hs. unfold normalize_symbol. cbn [String.eqb Ascii.eqb].
  rewrite !StrFacts.upper_app. split.
  - change (String.eqb "spot" "spot") with true. cbv iota.
    unfold spot_quotes in Hq. rewrite !elem_of_cons in Hq.
    destruct Hq as [->|[->|Hq]]; [| |apply elem_of_nil in Hq; contradiction].
    + change (PyStr.upper "USDT") with "USDT".
      rewrite (StrFacts.remove_suffix "USDT" "USDT" "" _
                 StrFacts.straddle_USDT_USDT eq_refl Husd).
      rewrite StrFacts.append_nil_r.
      apply StrFacts.remove_absent. exact Husd.
    + change (PyStr.upper "USD") with "USD".
      rewrite (StrFacts.remove_suffix "USDT" "USD" "USD" _
                 StrFacts.straddle_USDT_USD eq_refl Husd).
      rewrite (StrFacts.remove_suffix "USD" "USD" "" _
                 StrFacts.straddle_USD_USD eq_refl Husd).
      apply StrFacts.append_nil_r.
  - change (String.eqb "futures" "spot") with false.
    change (String.eqb "futures" "futures") with true. cbv iota zeta.
    assert (Hsuf : PyStr.upper suffix = suffix /\
                   PyStr.match_alt futures_suffixes suffix = Some EmptyString).
    { unfold futures_suffixes in Hs. rewrite !elem_of_cons in Hs.
      repeat (destruct Hs as [->|Hs]; [split; reflexivity|]).
      apply elem_of_nil in Hs. contradiction. }
    destruct Hsuf as [-> Hmatch].
    rewrite (StrFacts.sub_suffix_suffix _ _ Hund Hmatch).
    apply StrFacts.remove_absent. exact Hund.
Qed.

(** BTC against USDT, spot and perpetual. *)
Lemma normalize_symbol_pairs_witness :
  normalize_symbol ("btc" ++ "USDT") "spot" = PyStr.upper "btc" /\
  normalize_symbol ("btc" ++ "_USDT") "futures" = PyStr.upper "btc".
Proof.
  apply (normalize_symbol_pairs "btc" "USDT" "_USDT").
  - reflexivity.
  - reflexivity.
  - apply list_elem_of_here.
  - do 2 apply list_elem_of_further. apply list_elem_of_here.
Defined.

(** X13.  The canonical form of a derivative symbol never contains an
    underscore, whatever the symbol. *)
Theorem normalize_symbol_futures_no_underscore (symbol : string) :
  PyStr.contains "_" (normalize_symbol symbol "futures") = false.
Proof.
  unfold normalize_symbol.
  change (String.eqb "futures" "spot") with false.
  change (String.eqb "futures" "futures") with true. cbv iota zeta.
  apply StrFacts.remove_char_absent.
Qed.

(** ** The ranking of spot symbols *)

Section Loader.

Import SymbolsLoader.

Local Open Scope float_scope.

Variable sorted : list (float * pyval) -> list (float * pyval).
Variable parse : string -> option float.

Lemma traverse_length {A B} (f : A -> result B) l ys :
  traverse f l = Ok ys -> List.length ys = List.length l.
Proof.
  revert ys. induction l as [|x l IH]; intros ys; simpl.
  - intros [= <-]. reflexivity.
  - destruct (f x) as [y|e]; [|discriminate]. simpl.
    destruct (traverse f l) as [ys'|e]; [|discriminate]. simpl.
    intros [= <-]. simpl. rewrite (IH ys' eq_refl). reflexivity.
Qed.

Lemma traverse_Forall {A B} (f : A -> result B) (P : A -> Prop) (Q : B -> Prop) l ys :
  (forall x y, P x -> f x = Ok y -> Q y) ->
  Forall P l -> traverse f l = Ok ys -> Forall Q ys.
Proof.
  intros Hf. revert ys. induction l as [|x l IH]; intros ys Hl; simpl.
  - intros [= <-]. constructor.
  - apply Forall_cons in Hl as [Hx Hl].
    destruct (f x) as [y|e] eqn:Hy; [|discriminate]. simpl.
    destruct (traverse f l) as [ys'|e]; [|discriminate]. simpl.
    intros [= <-]. constructor; [eapply Hf; eassumption|apply IH; auto].
Qed.

(** The items kept by the filter have a symbol that ends in [USDT]. *)
Lemma usdt_pairs_Forall items usdt :
  usdt_pairs items = Ok usdt ->
  Forall (fun item => exists s, Py.getitem item "symbol" = Ok (PStr s)
                                /\ endswith "USDT" s = true) usdt.
Proof.
  revert usdt. induction items as [|item rest IH]; intros usdt; simpl.
  - intros [= <-]. constructor.
  - unfold is_usdt.
    destruct (Py.getitem item "symbol") as [[| | | |s| |]|e] eqn:Hsym; try discriminate.
    simpl. destruct (usdt_pairs rest) as [kept|e]; [|discriminate]. simpl.
    intros [= <-]. destruct (endswith "USDT" s) eqn:Hend; [|apply IH; reflexivity].
    constructor; [|apply IH; reflexivity]. exists s. auto.
Qed.

Lemma fresh_ranking_length response limit top :
  fresh_ranking sorted parse response limit = Ok top ->
  (List.length top <= limit)%nat.
Proof.
  unfold fresh_ranking.
  destruct response as [data|e]; [|discriminate]. simpl.
  destruct (iterate data) as [items|e]; [|discriminate]. simpl.
  destruct (usdt_pairs items) as [usdt|e]; [|discriminate]. simpl.
  destruct (traverse (keyed parse) usdt) as [keys|e]; [|discriminate]. simpl.
  intros H. apply traverse_length in H. rewrite H, length_take. lia.
Qed.

(** X14.  [get_top_symbols] raises nothing and returns at most [limit]
    entries; it makes no request exactly when the cache is younger than
    [CACHE_TTL] and not empty, and then the cache is left as it was and the
    result is its first [limit] entries. *)
Theorem get_top_symbols_bounded response now limit c :
  let hit := (now - cache_timestamp c <? CACHE_TTL) && nonempty (cache_data c) in
  let out := get_top_symbols sorted parse response now limit c in
  (List.length out.1.1 <= limit)%nat /\
  out.2 = negb hit /\
  (hit = true -> out.1.1 = take limit (cache_data c) /\ out.1.2 = c).
Proof.
  intros hit out. subst hit out. unfold get_top_symbols.
  destruct (_ && _); simpl.
  - split; [rewrite length_take; lia|]. split; [reflexivity|]. auto.
  - destruct (fresh_ranking sorted parse response limit) as [top|e] eqn:Hfresh; simpl.
    + split; [eapply fresh_ranking_length; exact Hfresh|]. split; [reflexivity|].
      discriminate.
    + split; [lia|]. split; [reflexivity|discriminate].
Qed.

Lemma usdt_pairs_raises items :
  Exists (fun item => is_raise (is_usdt item) = true) items ->
  exists e, usdt_pairs items = Raise e.
Proof.
  induction 1 as [item rest Hitem|item rest _ [e IH]]; simpl.
  - destruct (is_usdt item) as [b|e]; [discriminate|]. exists e. reflexivity.
  - destruct (is_usdt item) as [b|e']; simpl; [|exists e'; reflexivity].
    rewrite IH. exists e. reflexivity.
Qed.

Lemma fresh_ranking_unusable response limit :
  unusable response -> exists e, fresh_ranking sorted parse response limit = Raise e.
Proof.
  unfold unusable, fresh_ranking.
  destruct response as [[| | | |s|items|d]|e]; simpl;
    try (intros _; eexists; reflexivity).
  - destruct s as [|c s]; [intros H; contradiction|]. intros _.
    eexists. reflexivity.
  - intros H. apply usdt_pairs_raises in H as [e ->]. exists e. reflexivity.
  - destruct d as [|[k v] d]; [intros H; contradiction|]. intros _.
    eexists. reflexivity.
Qed.

(** What is asked of [sorted]: it returns the items it is given, in some
    order. *)
Hypothesis sorted_permutes : forall l, sorted l ≡ₚ l.

(** X15.  When the cache is stale or empty and the request fails, or its
    body cannot be iterated, or is a dictionary or a string that is not
    empty, or is a list with an item that has no ['symbol'] that is a string,
    the result is the empty list and the cache is left as it was: the stale
    entries are not served, and they are not dropped.  When the body is an
    empty list, an empty dictionary or an empty string, the result is the
    empty list as well, but the cache is overwritten: it then holds the
    empty ranking, with the time of the call. *)
Theorem get_top_symbols_failure response now limit c :
  (now - cache_timestamp c <? CACHE_TTL) && nonempty (cache_data c) = false ->
  (unusable response ->
   get_top_symbols sorted parse response now limit c = ([], c, true)) /\
  (empty_body response ->
   get_top_symbols sorted parse response now limit c = ([], mkCache now [], true)).
Proof.
  intros Hhit. unfold get_top_symbols. rewrite Hhit. split.
  - intros Hbad.
    destruct (fresh_ranking_unusable response limit Hbad) as [e ->]. reflexivity.
  - assert (Hnil : sorted [] = []) by apply Permutation_nil_r, sorted_permutes.
    intros [-> | [-> | ->]]; unfold fresh_ranking; simpl;
      rewrite Hnil; destruct limit; reflexivity.
Qed.

Lemma fresh_ranking_usdt response limit top :
  fresh_ranking sorted parse response limit = Ok top -> Forall usdt_symbol top.
Proof.
  unfold fresh_ranking.
  destruct response as [data|e]; [|discriminate]. simpl.
  destruct (iterate data) as [items|e]; [|discriminate]. simpl.
  destruct (usdt_pairs items) as [usdt|e] eqn:Husdt; [|discriminate]. simpl.
  destruct (traverse (keyed parse) usdt) as [keys|e] eqn:Hkeys; [|discriminate]. simpl.
  apply usdt_pairs_Forall in Husdt.
  assert (Hk : Forall (fun k => exists s, Py.getitem k.2 "symbol" = Ok (PStr s)
                                          /\ endswith "USDT" s = true) keys).
  { eapply traverse_Forall; [|exact Husdt|exact Hkeys].
    intros item k Hitem. unfold keyed.
    destruct (Py.getitem item "quoteVolume") as [qv|e]; [|discriminate]. simpl.
    destruct (Py.to_float parse qv) as [key|e]; [|discriminate]. simpl.
    intros [= <-]. exact Hitem. }
  rewrite <- (sorted_permutes keys) in Hk.
  assert (Hcut : Forall (fun item => exists s, Py.getitem item "symbol" = Ok (PStr s)
                                               /\ endswith "USDT" s = true)
                   (take limit (sorted keys).*2)).
  { apply Forall_take. apply Forall_fmap. exact Hk. }
  apply traverse_Forall with (P := fun item => exists s,
    Py.getitem item "symbol" = Ok (PStr s) /\ endswith "USDT" s = true); [|exact Hcut].
  intros item y (s & Hs & Hend) Hy. rewrite Hs in Hy. injection Hy as <-.
  exists s. auto.
Qed.

(** X16.  The ranking holds nothing but strings that end in [USDT]: this is
    true of the cache when the module is loaded, every call keeps it true of
    the cache, and every call returns only such strings. *)
Theorem get_top_symbols_usdt response now limit c :
  let out := get_top_symbols sorted parse response now limit c in
  Forall usdt_symbol (cache_data initial) /\
  (Forall usdt_symbol (cache_data c) ->
   Forall usdt_symbol out.1.1 /\ Forall usdt_symbol (cache_data out.1.2)).
Proof.
  intros out. subst out. split; [constructor|]. intros Hc.
  unfold get_top_symbols. destruct (_ && _); simpl.
  - split; [apply Forall_take|]; exact Hc.
  - destruct (fresh_ranking sorted parse response limit) as [top|e] eqn:Hfresh; simpl.
    + apply fresh_ranking_usdt in Hfresh. auto.
    + split; [constructor|exact Hc].
Qed.

(** X17.  A ranking that is not empty, fetched with one limit, is served
    for the next [CACHE_TTL] seconds to every caller, cut at the caller's own
    limit and without a request: a caller that asks for more gets no more
    than the first caller asked for.  A ranking that is empty is stored in
    the cache but never served: the next call makes the request again,
    however soon it comes, and returns what that request yields. *)
Theorem get_top_symbols_cached response now limit c top c1
    response' now' limit' :
  get_top_symbols sorted parse response now limit c = (top, c1, true) ->
  (top <> [] -> (now' - now <? CACHE_TTL) = true ->
   get_top_symbols sorted parse response' now' limit' c1 = (take limit' top, c1, false) /\
   (List.length (take limit' top) <= limit)%nat) /\
  (fresh_ranking sorted parse response limit = Ok [] ->
   c1 = mkCache now [] /\
   get_top_symbols sorted parse response' now' limit' c1
   = match fresh_ranking sorted parse response' limit' with
     | Ok top' => (top', mkCache now' top', true)
     | Raise _ => ([], c1, true)
     end).
Proof.
  intros Hfirst. unfold get_top_symbols in Hfirst.
  destruct (_ && _); [discriminate|].
  destruct (fresh_ranking sorted parse response limit) as [top'|e] eqn:Hfresh.
  - injection Hfirst as -> <-. split.
    + intros Hne Hyoung. split.
      * unfold get_top_symbols. simpl. rewrite Hyoung.
        destruct top; [contradiction|reflexivity].
      * rewrite length_take. apply fresh_ranking_length in Hfresh. lia.
    + intros [= ->]. split; [reflexivity|].
      unfold get_top_symbols. simpl. rewrite andb_false_r. reflexivity.
  - injection Hfirst as <- _. split; [intros H; contradiction|discriminate].
Qed.

End Loader.

Lemma sort_desc_permutes l : SymbolsLoader.sort_desc l ≡ₚ l.
Proof.
  unfold SymbolsLoader.sort_desc. induction l as [|x l IH]; [reflexivity|].
  simpl. rewrite <- IH at 2. generalize (foldr SymbolsLoader.insert_desc [] l).
  clear. intros l. induction l as [|y l IH]; [reflexivity|].
  simpl. destruct (_ <? _)%float; [|reflexivity].
  rewrite IH. apply Permutation_swap.
Qed.

(** The ranking of the ticker list, by volume; cut at two; served from the
    cache half a minute later, to a caller that asks for ten. *)
Example get_top_symbols_scenario :
  let get := SymbolsLoader.get_top_symbols SymbolsLoader.sort_desc Scenario.parse in
  get (Ok SymbolsLoader.tickers) 1000%float 2%nat SymbolsLoader.initial
  = ([PStr "BTCUSDT"; PStr "ETHUSDT"],
     SymbolsLoader.mkCache 1000 [PStr "BTCUSDT"; PStr "ETHUSDT"], true) /\
  get (Raise ClientError) 1030%float 10%nat
      (SymbolsLoader.mkCache 1000 [PStr "BTCUSDT"; PStr "ETHUSDT"])
  = ([PStr "BTCUSDT"; PStr "ETHUSDT"],
     SymbolsLoader.mkCache 1000 [PStr "BTCUSDT"; PStr "ETHUSDT"], false) /\
  get (Raise ClientError) 1060%float 10%nat
      (SymbolsLoader.mkCache 1000 [PStr "BTCUSDT"; PStr "ETHUSDT"])
  = ([], SymbolsLoader.mkCache 1000 [PStr "BTCUSDT"; PStr "ETHUSDT"], true).
Proof. repeat split; vm_compute; reflexivity. Qed.

Lemma get_top_symbols_failure_witness :
  SymbolsLoader.get_top_symbols SymbolsLoader.sort_desc Scenario.parse
    (Raise ClientError) 1060%float 10%nat
    (SymbolsLoader.mkCache 1000 [PStr "BTCUSDT"; PStr "ETHUSDT"])
  = ([], SymbolsLoader.mkCache 1000 [PStr "BTCUSDT"; PStr "ETHUSDT"], true).
Proof.
  apply (get_top_symbols_failure SymbolsLoader.sort_desc Scenario.parse sort_desc_permutes
           (Raise ClientError) 1060%float 10%nat); [reflexivity|exact I].
Defined.

(** An empty body replaces a stale ranking by the empty one. *)
Example get_top_symbols_empty_body :
  SymbolsLoader.get_top_symbols SymbolsLoader.sort_desc Scenario.parse
    (Ok (PDict [])) 1060%float 10%nat
    (SymbolsLoader.mkCache 1000 [PStr "BTCUSDT"; PStr "ETHUSDT"])
  = ([], SymbolsLoader.mkCache 1060 [], true).
Proof. vm_compute. reflexivity. Qed.

(** Items of equal volume keep the order they came in. *)
Example sort_desc_stable :
  SymbolsLoader.sort_desc [(1, PStr "A"); (2, PStr "B"); (1, PStr "C"); (2, PStr "D")]%float
  = [(2, PStr "B"); (2, PStr "D"); (1, PStr "A"); (1, PStr "C")]%float.
Proof. vm_compute. reflexivity. Qed.

(** The body of an error answer is a dictionary: iterating it gives its
    keys, and the ranking is empty. *)
Example get_top_symbols_error_body :
  SymbolsLoader.get_top_symbols SymbolsLoader.sort_desc Scenario.parse
    (Ok (PDict [("code", PInt 429); ("msg", PStr "Too Many Requests")]))
    1000%float 10%nat SymbolsLoader.initial
  = ([], SymbolsLoader.initial, true).
Proof. vm_compute. reflexivity. Qed.

Lemma get_top_symbols_usdt_witness :
  Forall SymbolsLoader.usdt_symbol
    (SymbolsLoader.get_top_symbols SymbolsLoader.sort_desc Scenario.parse
       (Ok SymbolsLoader.tickers) 1000%float 2%nat SymbolsLoader.initial).1.1.
Proof.
  apply (get_top_symbols_usdt SymbolsLoader.sort_desc Scenario.parse sort_desc_permutes
           (Ok SymbolsLoader.tickers) 1000%float 2%nat SymbolsLoader.initial).
  constructor.
Defined.

Lemma get_top_symbols_cached_witness :
  SymbolsLoader.get_top_symbols SymbolsLoader.sort_desc Scenario.parse
    (Raise ClientError) 1030%float 10%nat
    (SymbolsLoader.mkCache 1000 [PStr "BTCUSDT"; PStr "ETHUSDT"])
  = (take 10 [PStr "BTCUSDT"; PStr "ETHUSDT"],
     SymbolsLoader.mkCache 1000 [PStr "BTCUSDT"; PStr "ETHUSDT"], false) /\
  (List.length (take 10 [PStr "BTCUSDT"; PStr "ETHUSDT"]) <= 2)%nat.
Proof.
  apply (get_top_symbols_cached SymbolsLoader.sort_desc Scenario.parse
           (Ok SymbolsLoader.tickers) 1000%float 2%nat SymbolsLoader.initial
           [PStr "BTCUSDT"; PStr "ETHUSDT"] _ (Raise ClientError) 1030%float 10%nat).
  - reflexivity.
  - discriminate.
  - reflexivity.
Defined.

(** An empty ticker list is cached, and asked for again a second later. *)
Example get_top_symbols_empty_not_served :
  let get := SymbolsLoader.get_top_symbols SymbolsLoader.sort_desc Scenario.parse in
  get (Ok (PList [])) 1000%float 2%nat SymbolsLoader.initial
  = ([], SymbolsLoader.mkCache 1000 [], true) /\
  get (Ok SymbolsLoader.tickers) 1001%float 10%nat (SymbolsLoader.mkCache 1000 [])
  = ([PStr "BTCUSDT"; PStr "ETHUSDT"; PStr "XUSDT"],
     SymbolsLoader.mkCache 1001 [PStr "BTCUSDT"; PStr "ETHUSDT"; PStr "XUSDT"], true).
Proof. split; vm_compute; reflexivity. Qed.

(** ** The table of subscribers *)

(** The ways a call of [add_subscriber] can end: a row was inserted, which
    was not there; or the table is as before, and the answer is not
    [True]. *)
Lemma add_subscriber_cases d user_id (t : gset Z) :
  (Database.add_subscriber d user_id t = (Ok true, {[user_id]} ∪ t) /\ user_id ∉ t) \/
  (exists r, Database.add_subscriber d user_id t = (r, t) /\ r <> Ok true).
Proof.
  unfold Database.add_subscriber, Database.changed, Database.connect,
    Database.insert_or_ignore, Database.bind_int, Database.step.
  destruct d; cbn [rbind];
    try (right; eexists; split; [reflexivity|discriminate]);
    (destruct (Database.fits_int64 user_id); cbn [rbind is_sqlite_error];
     [|right; eexists; split; [reflexivity|discriminate]]).
  - destruct (decide (user_id ∈ t)) as [Hin|Hout].
    + rewrite bool_decide_eq_true_2 by exact Hin. cbn.
      right. eexists. split; [reflexivity|discriminate].
    + rewrite bool_decide_eq_false_2 by exact Hout. cbn. left. auto.
  - right. eexists. split; [reflexivity|discriminate].
Qed.

Lemma remove_subscriber_cases d user_id (t : gset Z) :
  (Database.remove_subscriber d user_id t = (Ok true, t ∖ {[user_id]}) /\ user_id ∈ t) \/
  (exists r, Database.remove_subscriber d user_id t = (r, t) /\ r <> Ok true).
Proof.
  unfold Database.remove_subscriber, Database.changed, Database.connect,
    Database.delete, Database.bind_int, Database.step.
  destruct d; cbn [rbind];
    try (right; eexists; split; [reflexivity|discriminate]);
    (destruct (Database.fits_int64 user_id); cbn [rbind is_sqlite_error];
     [|right; eexists; split; [reflexivity|discriminate]]).
  - destruct (decide (user_id ∈ t)) as [Hin|Hout].
    + rewrite bool_decide_eq_true_2 by exact Hin. cbn. left. auto.
    + rewrite bool_decide_eq_false_2 by exact Hout. cbn.
      right. eexists. split; [reflexivity|discriminate].
  - right. eexists. split; [reflexivity|discriminate].
Qed.

(** With a working driver the answer is [conn.total_changes > 0] after the
    one statement: whether a row was inserted, or deleted. *)
Lemma add_subscriber_working user_id (t : gset Z) :
  Database.fits_int64 user_id = true ->
  Database.add_subscriber Database.Working user_id t
  = (Ok (bool_decide (user_id ∉ t)), {[user_id]} ∪ t).
Proof.
  intros fits.
  unfold Database.add_subscriber, Database.changed, Database.connect,
    Database.insert_or_ignore, Database.bind_int, Database.step.
  rewrite fits. cbn [rbind Database.rows Database.total_changes].
  destruct (decide (user_id ∈ t)) as [Hin|Hout].
  - rewrite bool_decide_eq_true_2 by exact Hin.
    rewrite (bool_decide_eq_false_2 (user_id ∉ t)) by (intros H; exact (H Hin)).
    cbn. f_equal. apply set_eq. intros x.
    rewrite elem_of_union, elem_of_singleton.
    split; [auto|]. intros [->|H]; assumption.
  - rewrite bool_decide_eq_false_2 by exact Hout.
    rewrite (bool_decide_eq_true_2 (user_id ∉ t)) by exact Hout. reflexivity.
Qed.

Lemma remove_subscriber_working user_id (t : gset Z) :
  Database.fits_int64 user_id = true ->
  Database.remove_subscriber Database.Working user_id t
  = (Ok (bool_decide (user_id ∈ t)), t ∖ {[user_id]}).
Proof.
  intros fits.
  unfold Database.remove_subscriber, Database.changed, Database.connect,
    Database.delete, Database.bind_int, Database.step.
  rewrite fits. cbn [rbind Database.rows Database.total_changes].
  destruct (decide (user_id ∈ t)) as [Hin|Hout].
  - rewrite !bool_decide_eq_true_2 by exact Hin. reflexivity.
  - rewrite !bool_decide_eq_false_2 by exact Hout.
    cbn. f_equal. apply set_eq. intros x.
    rewrite elem_of_difference, elem_of_singleton.
    split; [intros H; split; [exact H|intros ->; contradiction]|intros [H _]; exact H].
Qed.

Lemma subscriber_call_failing d user_id (t : gset Z) :
  Database.fits_int64 user_id = true -> d <> Database.Working ->
  Database.add_subscriber d user_id t = (Ok false, t) /\
  Database.remove_subscriber d user_id t = (Ok false, t).
Proof.
  intros fits.
  unfold Database.add_subscriber, Database.remove_subscriber, Database.changed,
    Database.connect, Database.insert_or_ignore, Database.delete, Database.bind_int,
    Database.step.
  rewrite fits. destruct d; [contradiction| |]; intros _; split; reflexivity.
Qed.

Lemma get_subscribers_working (t : gset Z) :
  Database.get_subscribers Database.Working t = elements t.
Proof. reflexivity. Qed.

Section Subscribers.

Import Database.

Variables (user_id : Z) (t : gset Z).
Hypothesis fits : fits_int64 user_id = true.

(** X18.  Subscribing: with a working driver [add_subscriber] answers
    [True] exactly when the user was not subscribed, and afterwards
    [get_subscribers] lists the user once, and the others as before; a second
    call answers [False] and changes nothing.  With a failing driver it
    answers [False] and the table is left as it was. *)
Theorem add_subscriber_lookup :
  let after := (add_subscriber Working user_id t).2 in
  (add_subscriber Working user_id t).1 = Ok (bool_decide (user_id ∉ t)) /\
  (forall x, x ∈ get_subscribers Working after <-> x = user_id \/ x ∈ t) /\
  NoDup (get_subscribers Working after) /\
  add_subscriber Working user_id after = (Ok false, after) /\
  (forall d, d <> Working -> add_subscriber d user_id t = (Ok false, t)).
Proof.
  rewrite (add_subscriber_working user_id t fits). cbv zeta. cbn [fst snd].
  rewrite get_subscribers_working.
  split; [reflexivity|]. split; [|split; [|split]].
  - intros x. rewrite elem_of_elements, elem_of_union, elem_of_singleton. reflexivity.
  - apply NoDup_elements.
  - rewrite (add_subscriber_working user_id _ fits). f_equal.
    + f_equal. apply bool_decide_eq_false. intros H. apply H.
      apply elem_of_union_l, elem_of_singleton. reflexivity.
    + apply set_eq. intros x. rewrite !elem_of_union. tauto.
  - intros d Hd. apply (subscriber_call_failing d user_id t fits Hd).
Qed.

(** X19.  Unsubscribing: with a working driver [remove_subscriber] answers
    [True] exactly when the user was subscribed, and afterwards
    [get_subscribers] does not list the user, and lists the others as before;
    unsubscribing a user who has just subscribed gives back the table as it
    was before.  With a failing driver it answers [False] and the table is
    left as it was. *)
Theorem remove_subscriber_lookup :
  let after := (remove_subscriber Working user_id t).2 in
  (remove_subscriber Working user_id t).1 = Ok (bool_decide (user_id ∈ t)) /\
  (forall x, x ∈ get_subscribers Working after <-> x <> user_id /\ x ∈ t) /\
  (user_id ∉ t ->
   remove_subscriber Working user_id (add_subscriber Working user_id t).2 = (Ok true, t)) /\
  (forall d, d <> Working -> remove_subscriber d user_id t = (Ok false, t)).
Proof.
  rewrite (remove_subscriber_working user_id t fits),
    (add_subscriber_working user_id t fits). cbv zeta. cbn [fst snd].
  rewrite get_subscribers_working.
  split; [reflexivity|]. split; [|split].
  - intros x. rewrite elem_of_elements, elem_of_difference, elem_of_singleton. tauto.
  - intros Hnew. rewrite (remove_subscriber_working user_id _ fits). f_equal.
    + f_equal. apply bool_decide_eq_true.
      apply elem_of_union_l, elem_of_singleton. reflexivity.
    + apply set_eq. intros x.
      rewrite elem_of_difference, elem_of_union, elem_of_singleton.
      split; [tauto|]. intros Hx. split; [right; exact Hx|].
      intros ->. contradiction.
  - intros d Hd. apply (subscriber_call_failing d user_id t fits Hd).
Qed.

End Subscribers.





(** User 7 subscribes to a table that holds user 3. *)
Lemma add_subscriber_lookup_witness :
  (Database.add_subscriber Database.Working 7 {[3%Z]}).1 = Ok true /\
  Database.add_subscriber Database.Working 7
    (Database.add_subscriber Database.Working 7 {[3%Z]}).2
  = (Ok false, (Database.add_subscriber Database.Working 7 {[3%Z]}).2).
Proof.
  destruct (add_subscriber_lookup 7 {[3%Z]} eq_refl) as (H1 & _ & _ & H4 & _).
  split; [exact H1|exact H4].
Defined.

Lemma remove_subscriber_lookup_witness :
  (Database.remove_subscriber Database.Working 3 {[3%Z]}).1 = Ok true.
Proof.
  destruct (remove_subscriber_lookup 3 {[3%Z]} eq_refl) as (H1 & _).
  exact H1.
Defined.


(** ** SymbolMatcher: the listing and the map of canonical forms *)

Lemma futures_symbols_of_items resp :
  futures_symbols_of resp = omap item_symbol (listing_items resp).
Proof.
  unfold futures_symbols_of, listing_items.
  destruct resp as [data|e]; [|reflexivity].
  destruct (Py.get data "data") as [[| | | | |items|]|e]; reflexivity.
Qed.

Lemma item_symbol_field item v :
  item_symbol item = Some v ->
  Py.truthy v = true /\
  exists d k, item = PDict d /\ k ∈ symbol_keys /\ Py.lookup k d = Some v.
Proof.
  destruct item as [| | | | | |d]; try discriminate. unfold item_symbol. cbv zeta.
  assert (Hfield : forall k, Py.truthy (default PNone (Py.lookup k d)) = true ->
                             Py.lookup k d = Some (default PNone (Py.lookup k d))).
  { intros k. destruct (Py.lookup k d); [reflexivity|discriminate]. }
  pose proof (Hfield "symbol") as Ha.
  pose proof (Hfield "contractName") as Hb.
  pose proof (Hfield "instrumentId") as Hc. clear Hfield.
  set (a := default PNone (Py.lookup "symbol" d)) in *.
  set (b := default PNone (Py.lookup "contractName" d)) in *.
  set (c := default PNone (Py.lookup "instrumentId" d)) in *.
  destruct (Py.truthy (Py.or (Py.or a b) c)) eqn:Ht; intros H; [|discriminate H].
  injection H as <-. split; [exact Ht|]. exists d.
  unfold Py.or in *.
  destruct (Py.truthy a) eqn:H1.
  - rewrite H1 in *. exists "symbol". split; [reflexivity|].
    split; [apply list_elem_of_here|apply Ha; reflexivity].
  - destruct (Py.truthy b) eqn:H2.
    + rewrite H2 in *. exists "contractName". split; [reflexivity|].
      split; [apply list_elem_of_further, list_elem_of_here|apply Hb; reflexivity].
    + exists "instrumentId". split; [reflexivity|].
      split; [do 2 apply list_elem_of_further; apply list_elem_of_here|].
      apply Hc. exact Ht.
Qed.

Lemma omap_length_le {A B} (f : A -> option B) (l : list A) :
  (List.length (omap f l) <= List.length l)%nat.
Proof.
  induction l as [|x l IH]; [reflexivity|].
  cbn [omap list_omap]. destruct (f x); simpl; lia.
Qed.

(** X21.  [get_futures_symbols] makes one request, of the listing, and
    never raises.  It returns at most one symbol for each item of the
    listing, in the order of the listing; each symbol is truthy and is the
    value an item that is a dictionary has under [symbol], [contractName] or
    [instrumentId]. *)
Theorem get_futures_symbols_listing E w :
  let resp := http E futures_listing_url (requests w) in
  exists symbols,
    get_futures_symbols E w = (Ok symbols, bump_requests w, [EvGet futures_listing_url]) /\
    symbols = omap item_symbol (listing_items resp) /\
    (List.length symbols <= List.length (listing_items resp))%nat /\
    Forall (fun v => Py.truthy v = true /\
                     exists d k, PDict d ∈ listing_items resp /\ k ∈ symbol_keys /\
                                 Py.lookup k d = Some v) symbols.
Proof.
  intros resp. exists (futures_symbols_of resp).
  split; [apply get_futures_symbols_run|].
  rewrite futures_symbols_of_items. split; [reflexivity|]. split.
  - apply omap_length_le.
  - apply Forall_forall. intros v Hv.
    apply list_elem_of_omap in Hv as (item & Hitem & Hsym).
    apply item_symbol_field in Hsym as (Ht & d & k & -> & Hk & Hl).
    split; [exact Ht|]. exists d, k. auto.
Qed.

(** The fold that builds the map keeps an entry that no later symbol
    overwrites. *)
Lemma futures_norm_map_keeps k f l : forall m : gmap string string,
  m !! k = Some f ->
  (forall g, PStr g ∈ l -> normalize_symbol g "futures" <> k) ->
  foldl (fun m f_sym =>
           match f_sym with
           | PStr f => <[normalize_symbol f "futures" := f]> m
           | _ => m
           end) m l !! k = Some f.
Proof.
  induction l as [|v l IH]; intros m Hm Hl; [exact Hm|].
  simpl. apply IH.
  - destruct v as [| | | |g| |]; try exact Hm.
    rewrite lookup_insert_ne; [exact Hm|].
    apply Hl. apply list_elem_of_here.
  - intros g Hg. apply Hl. apply list_elem_of_further. exact Hg.
Qed.

(** X22.  When several derivative symbols have the same canonical form, the
    one listed last is the one a spot symbol is matched with: a symbol that
    no later symbol of the listing shares its canonical form with is the
    entry of the map under that form. *)
Theorem futures_norm_map_last_wins (before after : list pyval) (f : string) :
  (forall g, PStr g ∈ after ->
             normalize_symbol g "futures" <> normalize_symbol f "futures") ->
  futures_norm_map (before ++ PStr f :: after) !! normalize_symbol f "futures" = Some f.
Proof.
  intros Hafter. unfold futures_norm_map. rewrite foldl_app. simpl.
  apply futures_norm_map_keeps; [|exact Hafter].
  apply lookup_insert_eq.
Qed.

(** BTC_USD and BTC_USDT both have the canonical form BTC: the spot symbol
    BTCUSDT is matched with the one listed last. *)
Lemma futures_norm_map_last_wins_witness :
  futures_norm_map ([PStr "BTC_USDT"] ++ PStr "BTC_USD" :: [PStr "ETH_USDT"])
    !! normalize_symbol "BTC_USD" "futures" = Some "BTC_USD".
Proof.
  apply (futures_norm_map_last_wins [PStr "BTC_USDT"] [PStr "ETH_USDT"] "BTC_USD").
  intros g Hg. inversion Hg as [|? ? ? Hg']; subst; [|inversion Hg'].
  vm_compute. discriminate.
Defined.

(** ** ScanScheduler: the refresh of the pairs *)

(** The state an iteration ends in, and the head of its trace. *)
Lemma main_loop_iteration_state E st w :
  let due := refresh_due st (clock w) in
  let st1 := if due
             then mkLoop (clock w)
                    (pairs_of E Config.TOP_VOLUME_LIMIT
                       (futures_symbols_of (http E futures_listing_url (requests w))))
             else st in
  exists w' evs,
    main_loop_iteration E st w
    = (Ok st1, w', ((if due then [EvGet futures_listing_url] else []) ++ evs)%list) /\
    (pairs st1 = [] -> evs = [] /\ w' = if due then bump_requests w else w).
Proof.
  intros due st1.
  assert (Hrefresh :
    (if (Py.float_of_Z Config.PAIRS_UPDATE_INTERVAL <? clock w - last_pairs_update st)%float
        || negb (nonempty (pairs st))
     then let* ps := get_top_symbol_pairs E Config.TOP_VOLUME_LIMIT in
          ret (mkLoop (clock w) ps)
     else ret st) w
    = (Ok st1, (if due then bump_requests w else w),
       if due then [EvGet futures_listing_url] else [])).
  { subst st1 due. unfold refresh_due. destruct (_ || _).
    - unfold bind. rewrite get_top_symbol_pairs_run. reflexivity.
    - reflexivity. }
  unfold main_loop_iteration.
  unfold bind at 1. unfold time at 1. unfold bind at 1. rewrite Hrefresh.
  set (w1 := if due then bump_requests w else w).
  unfold bind at 1.
  destruct (tier_step_run E FastInterval (Py.float_of_Z Config.CHECK_INTERVAL_FAST)
              (take 50 (pairs st1)) w1) as (w2 & scan_fast & -> & _ & Hwf).
  unfold bind at 1.
  destruct (tier_step_run E SlowInterval (Py.float_of_Z Config.CHECK_INTERVAL_SLOW)
              (drop 50 (pairs st1)) w2) as (w3 & scan_slow & -> & _ & Hws).
  unfold ret. cbn [app]. do 2 eexists. split; [reflexivity|].
  intros Hp. rewrite Hp in *. simpl in *.
  rewrite (Hws eq_refl), (Hwf eq_refl). split; reflexivity.
Qed.

(** X23.  An iteration of [main_loop] keeps the pairs and the time of their
    last update when no refresh is due.  When one is due, more than
    [PAIRS_UPDATE_INTERVAL] seconds after the last one or with no pair at
    hand, its first event is the request of the listing, and the pairs are
    replaced by those of the new listing and the time by the clock reading:
    the pairs at hand are dropped even when the listing request fails, and
    the iteration then does nothing else. *)
Theorem main_loop_iteration_refresh E st w :
  let run := main_loop_iteration E st w in
  let resp := http E futures_listing_url (requests w) in
  (refresh_due st (clock w) = false -> result_of run = Ok st) /\
  (refresh_due st (clock w) = true ->
   result_of run
   = Ok (mkLoop (clock w) (pairs_of E Config.TOP_VOLUME_LIMIT (futures_symbols_of resp))) /\
   exists evs, events_of run = EvGet futures_listing_url :: evs) /\
  (refresh_due st (clock w) = true -> listing_failed resp ->
   main_loop_iteration E st w
   = (Ok (mkLoop (clock w) []), bump_requests w, [EvGet futures_listing_url])).
Proof.
  intros run resp. subst run resp.
  destruct (main_loop_iteration_state E st w) as (w' & evs & Hrun & Hnil).
  cbv zeta in Hrun, Hnil. rewrite Hrun. unfold result_of, events_of. cbn [fst snd].
  split; [|split].
  - intros ->. reflexivity.
  - intros ->. split; [reflexivity|]. exists evs. reflexivity.
  - intros Hdue Hfail. rewrite Hdue in *.
    assert (Hempty : futures_symbols_of (http E futures_listing_url (requests w)) = []).
    { unfold listing_failed, futures_symbols_of in *.
      destruct (http E futures_listing_url (requests w)) as [data|e]; [|reflexivity].
      destruct (Py.get data "data") as [[| | | | |items|]|e]; try reflexivity.
      contradiction. }
    rewrite Hempty in *. cbn [pairs_of pairs] in *.
    destruct (Hnil eq_refl) as [-> ->]. reflexivity.
Qed.

(** With the listing unreachable, a refresh that is due drops the pair at
    hand. *)
Lemma main_loop_iteration_refresh_witness :
  main_loop_iteration Scenario.down (mkLoop 0 [("BTCUSDT", "BTC_USDT")])
    (mkWorld 4000 0 0 0 [])
  = (Ok (mkLoop 4000 []), bump_requests (mkWorld 4000 0 0 0 []),
     [EvGet futures_listing_url]).
Proof.
  apply (main_loop_iteration_refresh Scenario.down (mkLoop 0 [("BTCUSDT", "BTC_USDT")])
           (mkWorld 4000 0 0 0 [])).
  - reflexivity.
  - exact I.
Defined.

(** ** The menu of the bot: the flag and the table *)

Section BotSync.

Import Bot.

Variables (uid actor : Z).

Lemma in_sync_setdefault d_get st :
  in_sync uid st ->
  (actor = uid -> user_settings st !! uid = None -> d_get = Database.Working) ->
  in_sync uid (setdefault d_get actor st).2 /\
  user_settings (setdefault d_get actor st).2 !! actor = Some (setdefault d_get actor st).1 /\
  subscribers (setdefault d_get actor st).2 = subscribers st.
Proof.
  intros Hsync Hget. unfold setdefault.
  destruct (user_settings st !! actor) as [s|] eqn:Hs; simpl; [auto|].
  split; [|split; [apply lookup_insert_eq|reflexivity]].
  intros s. simpl. destruct (decide (actor = uid)) as [->|Hne].
  - rewrite lookup_insert_eq. intros [= <-]. simpl.
    rewrite (Hget eq_refl Hs). unfold Database.get_subscribers. simpl.
    rewrite bool_decide_eq_true. apply elem_of_elements.
  - rewrite lookup_insert_ne by exact Hne. apply Hsync.
Qed.

Lemma in_sync_store s st :
  in_sync uid st ->
  (actor = uid -> (notifications s = true <-> uid ∈ subscribers st)) ->
  in_sync uid (store actor s st).
Proof.
  intros Hsync Hs s'. unfold store. simpl.
  destruct (decide (actor = uid)) as [->|Hne].
  - rewrite lookup_insert_eq. intros [= <-]. apply Hs. reflexivity.
  - rewrite lookup_insert_ne by exact Hne. apply Hsync.
Qed.

Lemma in_sync_unchanged r flag s ud st yes no :
  in_sync uid st -> r <> Ok true ->
  in_sync uid (switch (r, subscribers st) flag yes no actor s ud st).2.
Proof.
  intros Hsync Hr. unfold switch.
  destruct r as [[|]|e]; [contradiction| |]; exact Hsync.
Qed.

Lemma in_sync_add d_op s ud st yes no :
  in_sync uid st -> user_settings st !! actor = Some s ->
  in_sync uid (switch (Database.add_subscriber d_op actor (subscribers st)) true
                 yes no actor s ud st).2.
Proof.
  intros Hsync Hs.
  destruct (add_subscriber_cases d_op actor (subscribers st))
    as [[-> Hout]|(r & -> & Hr)]; [|apply in_sync_unchanged; assumption].
  unfold switch. intros s'. simpl. destruct (decide (actor = uid)) as [->|Hne].
  - rewrite lookup_insert_eq. intros [= <-]. simpl.
    rewrite elem_of_union, elem_of_singleton. split; auto.
  - rewrite lookup_insert_ne by exact Hne. intros Hs'. rewrite (Hsync s' Hs').
    rewrite elem_of_union, elem_of_singleton.
    split; [auto|]. intros [->|H]; [contradiction|assumption].
Qed.

Lemma in_sync_remove d_op s ud st yes no :
  in_sync uid st -> user_settings st !! actor = Some s ->
  in_sync uid (switch (Database.remove_subscriber d_op actor (subscribers st)) false
                 yes no actor s ud st).2.
Proof.
  intros Hsync Hs.
  destruct (remove_subscriber_cases d_op actor (subscribers st))
    as [[-> Hin]|(r & -> & Hr)]; [|apply in_sync_unchanged; assumption].
  unfold switch. intros s'. simpl. destruct (decide (actor = uid)) as [->|Hne].
  - rewrite lookup_insert_eq. intros [= <-]. simpl.
    rewrite elem_of_difference, elem_of_singleton.
    split; [discriminate|]. intros [_ H]. contradiction.
  - rewrite lookup_insert_ne by exact Hne. intros Hs'. rewrite (Hsync s' Hs').
    rewrite elem_of_difference, elem_of_singleton.
    split; [intros H; split; [exact H|congruence]|intros [H _]; exact H].
Qed.

(** X24.  The flag [notifications] that the bot keeps for a user agrees with
    the table of subscribers, and stays so: whoever presses a button or sends
    a text, whatever the button, and whether the database works or fails at
    that moment, if the flag of [uid] agreed with the table before the
    handler ran, it agrees afterwards.  The entry of a user is made at the
    user's first message from what [get_subscribers] answers, so that
    message must find the database working. *)
Theorem handlers_keep_in_sync d_get d_op data parse message_text ud st :
  in_sync uid st ->
  (actor = uid -> user_settings st !! uid = None -> d_get = Database.Working) ->
  in_sync uid (handle_menu_interaction d_get d_op data actor ud st).2 /\
  in_sync uid (handle_text_input parse d_get message_text actor ud st).2.
Proof.
  intros Hsync Hget.
  destruct (in_sync_setdefault d_get st Hsync Hget) as (Hsync1 & Hs1 & Ht1).
  unfold handle_menu_interaction, handle_text_input.
  destruct (setdefault d_get actor st) as [s st1]. simpl in Hsync1, Hs1, Ht1.
  assert (Hkeep : forall s', notifications s' = notifications s ->
                             in_sync uid (store actor s' st1)).
  { intros s' Hflag. apply in_sync_store; [exact Hsync1|].
    intros ->. rewrite Hflag. apply Hsync1. exact Hs1. }
  split.
  - destruct (bool_decide (menu ud = Some SETTINGS_MENU));
      repeat match goal with
             | |- context [String.eqb data ?k] => destruct (String.eqb data k)
             end;
      try exact Hsync1;
      try (apply in_sync_add; assumption); try (apply in_sync_remove; assumption);
      try (apply Hkeep; reflexivity).
    destruct (notifications s); [apply in_sync_remove|apply in_sync_add]; assumption.
  - destruct (awaiting_spread ud).
    + destruct (parse _) as [val|]; [|exact Hsync1].
      destruct (val <=? 0)%float; [exact Hsync1|]. apply Hkeep. reflexivity.
    + destruct (awaiting_volume ud); [|exact Hsync1].
      destruct (parse _) as [val|]; [|exact Hsync1].
      destruct (val <? 0)%float; [exact Hsync1|]. apply Hkeep. reflexivity.
Qed.

End BotSync.

(** User 7 is not subscribed and presses "subscribe": the reply, the table
    and the flag. *)
Lemma handlers_keep_in_sync_witness :
  let st := Bot.mkState {[3%Z]} ∅ in
  Bot.in_sync 7
    (Bot.handle_menu_interaction Database.Working Database.Working "subscribe" 7
       (Bot.mkUserData None false false) st).2.
Proof.
  intros st.
  apply (handlers_keep_in_sync 7 7 Database.Working Database.Working "subscribe"
           Scenario.parse "" (Bot.mkUserData None false false) st).
  - intros s Hs. subst st. cbn [Bot.user_settings] in Hs.
    rewrite lookup_empty in Hs. discriminate.
  - reflexivity.
Defined.

(** When the database fails at the first message of a subscribed user, the
    flag is made [False] against the table, and the menu cannot repair it:
    "toggle notifications" tries to subscribe the user, who is subscribed
    already, and reports a failure; the user stays subscribed with the flag
    [False]. *)
Example bot_flag_out_of_sync :
  let ud := Bot.mkUserData (Some Bot.SETTINGS_MENU) false false in
  let st0 := Bot.mkState {[7%Z]} ∅ in
  let first := Bot.handle_menu_interaction Database.FailsEarly Database.Working
                 "help" 7 ud st0 in
  let second := Bot.handle_menu_interaction Database.Working Database.Working
                  "toggle_notifications" 7 ud first.2 in
  (Bot.notifications <$> Bot.user_settings first.2 !! 7%Z) = Some false /\
  second.1.1 = Ok Bot.NotificationsOnFailed /\
  (Bot.notifications <$> Bot.user_settings second.2 !! 7%Z) = Some false /\
  Database.get_subscribers Database.Working (Bot.subscribers second.2) = [7%Z].
Proof. repeat split; vm_compute; reflexivity. Qed.

(** ** PriceFetcher: a spot body without a price *)

Lemma spot_ticker_without_price E d :
  Py.truthy (default PNone (Py.lookup "lastPrice" d)) = false ->
  Py.truthy (default PNone (Py.lookup "price" d)) = false ->
  Py.truthy (default PNone (Py.lookup "quoteVolume" d)) = false ->
  spot_ticker E (PDict d) = Ok (0%float, 0%float).
Proof.
  intros H1 H2 H3. unfold spot_ticker, Py.get, Py.or. simpl.
  rewrite H1. simpl. rewrite H2, H3. reflexivity.
Qed.

(** X25.  A spot answer that is a dictionary without a usable [lastPrice],
    [price] and [quoteVolume], as the body of an error answer is, is not
    retried: [fetch_spot_price] returns [(0, 0)] after its first request,
    without a sleep, and [fetch_data_for_pair] then builds no signal,
    whatever the derivative ticker answers. *)
Theorem fetch_spot_price_without_price E spot_sym fut_sym d w :
  http E (spot_url spot_sym) (requests w) = Ok (PDict d) ->
  Py.truthy (default PNone (Py.lookup "lastPrice" d)) = false ->
  Py.truthy (default PNone (Py.lookup "price" d)) = false ->
  Py.truthy (default PNone (Py.lookup "quoteVolume" d)) = false ->
  result_of (fetch_spot_price E spot_sym 3 w) = Ok (0%float, 0%float) /\
  attempt_events (events_of (fetch_spot_price E spot_sym 3 w)) = [EvGet (spot_url spot_sym)] /\
  result_of (fetch_data_for_pair E spot_sym fut_sym w) = Ok None.
Proof.
  intros Hresp H1 H2 H3.
  assert (Hrun : result_of (fetch_spot_price E spot_sym 3 w) = Ok (0%float, 0%float) /\
                 attempt_events (events_of (fetch_spot_price E spot_sym 3 w))
                 = [EvGet (spot_url spot_sym)]).
  { unfold fetch_spot_price. rewrite with_semaphore_run, bind_rate_limit.
    set (w1 := granted (set_semaphore_held (S (semaphore_held w)) w)).
    cbn [spot_attempts]. unfold try_except. rewrite spot_attempt_run.
    unfold spot_outcome. change (requests w1) with (requests w).
    rewrite Hresp. cbn [rbind]. rewrite (spot_ticker_without_price E d H1 H2 H3).
    unfold result_of, events_of. cbn [fst snd]. split; [reflexivity|].
    unfold attempt_events. rewrite List.filter_app.
    fold (attempt_events (rate_limit_events (set_semaphore_held (S (semaphore_held w)) w))).
    rewrite attempt_events_rate_limit. reflexivity. }
  destruct Hrun as [Hres Hev]. split; [exact Hres|]. split; [exact Hev|].
  destruct (fetch_data_for_pair_evaluates E spot_sym fut_sym w)
    as (sp & v & fp & Hspot & _ & Hpair).
  rewrite Hres in Hspot. injection Hspot as <- <-.
  rewrite Hpair. reflexivity.
Qed.

(** The body of an error answer. *)
Lemma fetch_spot_price_without_price_witness :
  let E := mkEnv Scenario.parse
             (fun _ _ => Ok (PDict [("code", PInt 429); ("msg", PStr "Too Many Requests")]))
             Scenario.driver None [] None in
  result_of (fetch_data_for_pair E "BTCUSDT" "BTC_USDT" Scenario.w0) = Ok None.
Proof.
  intros E.
  apply (fetch_spot_price_without_price E "BTCUSDT" "BTC_USDT"
           [("code", PInt 429); ("msg", PStr "Too Many Requests")] Scenario.w0);
    reflexivity.
Defined.

(** ** SymbolMatcher: the canonical form of a derivative symbol is final *)

Module CanonFacts.

Lemma upper_ascii_idem c : PyStr.upper_ascii (PyStr.upper_ascii c) = PyStr.upper_ascii c.
Proof. destruct c as [[] [] [] [] [] [] [] []]; reflexivity. Qed.

Lemma upper_idem s : PyStr.upper (PyStr.upper s) = PyStr.upper s.
Proof.
  induction s as [|c s IH]; [reflexivity|].
  cbn [PyStr.upper]. rewrite upper_ascii_idem, IH. reflexivity.
Qed.

Lemma upper_cons c s :
  PyStr.upper (String c s) = String c s ->
  PyStr.upper_ascii c = c /\ PyStr.upper s = s.
Proof. cbn [PyStr.upper]. intros [= Hc Hs]. auto. Qed.

Lemma upper_drop n : forall s, PyStr.upper s = s -> PyStr.upper (PyStr.drop n s) = PyStr.drop n s.
Proof.
  induction n as [|n IH]; intros s Hs; [destruct s; exact Hs|].
  destruct s as [|c s]; [exact Hs|].
  apply upper_cons in Hs as [_ Hs]. cbn [PyStr.drop]. apply IH. exact Hs.
Qed.

Lemma match_alt_drop alts s rest :
  PyStr.match_alt alts s = Some rest -> exists n, rest = PyStr.drop n s.
Proof.
  induction alts as [|a alts IH]; [discriminate|].
  cbn [PyStr.match_alt]. destruct (_ && _); [|exact IH].
  intros [= <-]. eexists. reflexivity.
Qed.

Lemma upper_sub_suffix alts s :
  PyStr.upper s = s -> PyStr.upper (PyStr.sub_suffix alts s) = PyStr.sub_suffix alts s.
Proof.
  induction s as [|c s IH]; intros Hs.
  - cbn [PyStr.sub_suffix]. destruct (PyStr.match_alt alts "") as [rest|] eqn:Hm;
      [|reflexivity].
    apply match_alt_drop in Hm as [n ->]. apply upper_drop. reflexivity.
  - cbn [PyStr.sub_suffix].
    destruct (PyStr.match_alt alts (String c s)) as [rest|] eqn:Hm.
    + apply match_alt_drop in Hm as [n ->]. apply upper_drop. exact Hs.
    + apply upper_cons in Hs as [Hc Hs]. cbn [PyStr.upper]. rewrite Hc, (IH Hs).
      reflexivity.
Qed.

Lemma upper_remove_from p s : forall skip,
  PyStr.upper s = s -> PyStr.upper (PyStr.remove_from p skip s) = PyStr.remove_from p skip s.
Proof.
  induction s as [|c s IH]; intros skip Hs; [reflexivity|].
  apply upper_cons in Hs as [Hc Hs]. cbn [PyStr.remove_from].
  destruct skip as [|k]; [|apply IH; exact Hs].
  destruct (PyStr.startswith p (String c s)); [apply IH; exact Hs|].
  cbn [PyStr.upper]. rewrite Hc, (IH 0%nat Hs). reflexivity.
Qed.

(** In a string free of the underscore no derivative suffix is found. *)
Lemma sub_suffix_absent s :
  PyStr.contains "_" s = false -> PyStr.sub_suffix futures_suffixes s = s.
Proof.
  induction s as [|c s IH]; intros Hs; [reflexivity|].
  apply StrFacts.contains_cons in Hs as [Hhere Hrest].
  cbn [PyStr.sub_suffix]. rewrite StrFacts.match_alt_inside, (IH Hrest); [reflexivity|].
  cbn [PyStr.startswith] in Hhere.
  destruct (Ascii.eqb "_" c); [discriminate|reflexivity].
Qed.

End CanonFacts.

(** X26.  The canonical form of a derivative symbol is final: normalising it
    again as a derivative symbol gives it back, for every symbol.  (For spot
    symbols this fails: UUSDSD gives USD, which gives the empty string.) *)
Theorem normalize_symbol_futures_idempotent (symbol : string) :
  normalize_symbol (normalize_symbol symbol "futures") "futures"
  = normalize_symbol symbol "futures".
Proof.
  assert (Hnorm : forall s, normalize_symbol s "futures"
                            = PyStr.remove "_" (PyStr.sub_suffix futures_suffixes (PyStr.upper s))).
  { intros s. reflexivity. }
  rewrite !Hnorm.
  set (r := PyStr.remove "_" (PyStr.sub_suffix futures_suffixes (PyStr.upper symbol))).
  assert (Hupper : PyStr.upper r = r).
  { apply CanonFacts.upper_remove_from, CanonFacts.upper_sub_suffix, CanonFacts.upper_idem. }
  assert (Hfree : PyStr.contains "_" r = false) by apply StrFacts.remove_char_absent.
  rewrite Hupper, (CanonFacts.sub_suffix_absent r Hfree).
  apply StrFacts.remove_absent. exact Hfree.
Qed.

(** ** The migrations *)

Section MigrationFacts.

Import Migrations.

Lemma existsb_eqb_elem_of c (cols : list string) :
  existsb (String.eqb c) cols = true <-> c ∈ cols.
Proof.
  induction cols as [|x cols IH]; simpl.
  - split; [discriminate|]. intros H. inversion H.
  - rewrite orb_true_iff, IH, elem_of_cons, String.eqb_eq. reflexivity.
Qed.

(** X27.  [apply_migrations] repeats safely.  Once it has returned, a second
    run returns too and changes nothing; the column [volume] is then in the
    table unless the migration had been recorded before without it.  On a
    table that holds the column already, as the one [init_db] creates does, it
    changes nothing and records nothing; without the table, while the
    migration is not recorded, it raises. *)
Theorem apply_migrations_idempotent (sch sch' : schema) :
  (apply_migrations sch = Ok sch' ->
   apply_migrations sch' = Ok sch' /\
   (forall names, applied sch = Some names -> "add_volume_column" ∉ names ->
                  column_exists sch' "volume" = true)) /\
  (column_exists sch "volume" = true -> is_Some (applied sch) ->
   apply_migrations sch = Ok sch) /\
  (signals_columns sch = None ->
   (forall names, applied sch = Some names -> "add_volume_column" ∉ names) ->
   exists e, apply_migrations sch = Raise e).
Proof.
  unfold apply_migrations, MIGRATIONS. cbn [run_migrations name column].
  destruct sch as [cols names]. cbn [applied signals_columns].
  split; [|split].
  - destruct names as [names|]; [|discriminate].
    destruct (bool_decide ("add_volume_column" ∈ names)) eqn:Hrec.
    + cbn [rbind]. intros [= <-]. cbn [applied]. rewrite Hrec. cbn [rbind].
      split; [reflexivity|].
      intros names' [= <-] Hnot. apply bool_decide_eq_true in Hrec. contradiction.
    + destruct (column_exists (mkSchema cols (Some names)) "volume") eqn:Hcol.
      * cbn [negb rbind]. intros [= <-]. cbn [applied]. rewrite Hrec, Hcol.
        split; [reflexivity|]. intros; reflexivity.
      * cbn [negb]. unfold add_column. cbn [signals_columns applied].
        destruct cols as [cols|]; [|discriminate].
        destruct (existsb _ cols); [discriminate|]. cbn [rbind].
        unfold record_migration. cbn [applied signals_columns]. rewrite Hrec.
        intros [= <-]. cbn [applied].
        assert (Hin : bool_decide ("add_volume_column" ∈ ({[ "add_volume_column" ]} ∪ names
                                     : gset string)) = true).
        { apply bool_decide_eq_true, elem_of_union_l, elem_of_singleton. reflexivity. }
        rewrite Hin. cbn [rbind]. split; [reflexivity|].
        intros _ _ _. unfold column_exists. cbn [signals_columns default].
        apply existsb_eqb_elem_of. apply elem_of_app. right. apply list_elem_of_here.
  - intros Hcol [names' Hnames]. cbn in Hnames. subst names.
    rewrite Hcol. cbn [negb]. destruct (bool_decide _); reflexivity.
  - intros Hnone Hnot. cbn in Hnone. subst cols.
    destruct names as [names|]; [|eexists; reflexivity].
    rewrite bool_decide_eq_false_2 by (apply (Hnot names); reflexivity).
    cbn. eexists. reflexivity.
Qed.

End MigrationFacts.

(** A table made before the column was introduced gets it, once; the table
    [init_db] creates is left alone. *)
Example apply_migrations_scenario :
  let old := Migrations.mkSchema (Some ["id"; "symbol"; "spread_percent"]) (Some ∅) in
  let new := Migrations.mkSchema (Some Migrations.created) (Some ∅) in
  Migrations.apply_migrations old
  = Ok (Migrations.mkSchema (Some ["id"; "symbol"; "spread_percent"; "volume"])
          (Some {[ "add_volume_column" ]})) /\
  Migrations.apply_migrations new = Ok new.
Proof. split; vm_compute; reflexivity. Qed.

Lemma apply_migrations_idempotent_witness :
  let new := Migrations.mkSchema (Some Migrations.created) (Some ∅) in
  Migrations.apply_migrations new = Ok new.
Proof.
  intros new.
  apply (apply_migrations_idempotent new new); [reflexivity|].
  eexists. reflexivity.
Defined.

